(** * Trend scoring, ingestion and scheduled maintenance

    A shallow embedding of the scoring / aggregation core of the
    social-media backend:

    - [src/services/socialMediaService.js]: [normalizeTrendData],
      [calculateEngagementRate], [detectNiche], [calculateRelevanceScore],
      [storeTrends], [fetchAndStoreTrends];
    - [src/models/Trend.js]: the trend schema with [calculateTrendScore]
      and the analytics schema with [calculateGrowthRates];
    - the trend scheduler ([scheduleJob], [fetchAllTrends],
      [fetchNicheTrends], [updateTrendScores]);
    - the analytics scheduler ([performWeeklyCleanup]).

    Conventions of the model.
    - A JavaScript number is a [JsNum.t]: an exact rational for a finite
      double, plus [NaN] and the two infinities.  Rounding of doubles and
      the sign of zero are not modelled; a statement that would depend on
      rounding carries the range or the margin that keeps it away from it.
    - A string is the sequence of its code units, each below 256.
    - A property that may be absent from a JavaScript object is an
      [option]; [None] is [undefined].
    - Instants are milliseconds since the epoch, in [Z].
    - A collection is the list of its documents in scan order.
    - Asynchronous code that may throw is a function from the collection to
      an [outcome] and the collection it leaves behind: what was written
      before an exception stays written. *)

From Stdlib Require Import ZArith QArith Qminmax Qabs Lqa String Ascii List Bool Lia
  DecimalString.
Import ListNotations.

Local Open Scope Z_scope.

(* ================================================================== *)
(** ** JavaScript numbers *)
(* ================================================================== *)

Module JsNum.

Inductive t : Type :=
| Fin (q : Q)
| PosInf
| NegInf
| NaN.

Definition ofZ (z : Z) : t := Fin (inject_Z z).

Definition neg (a : t) : t :=
  match a with
  | Fin q => Fin (- q)%Q
  | PosInf => NegInf
  | NegInf => PosInf
  | NaN => NaN
  end.

(** [a + b] *)
Definition add (a b : t) : t :=
  match a, b with
  | NaN, _ | _, NaN => NaN
  | Fin x, Fin y => Fin (x + y)%Q
  | PosInf, NegInf | NegInf, PosInf => NaN
  | PosInf, _ | _, PosInf => PosInf
  | NegInf, _ | _, NegInf => NegInf
  end.

(** [a - b] *)
Definition sub (a b : t) : t := add a (neg b).

(** An infinity of the sign of [q]; [NaN] for zero. *)
Definition infOfSign (q : Q) (flip : bool) : t :=
  match (0 ?= q)%Q with
  | Eq => NaN
  | Lt => if flip then NegInf else PosInf
  | Gt => if flip then PosInf else NegInf
  end.

(** [a * b] *)
Definition mul (a b : t) : t :=
  match a, b with
  | NaN, _ | _, NaN => NaN
  | Fin x, Fin y => Fin (x * y)%Q
  | PosInf, Fin y | Fin y, PosInf => infOfSign y false
  | NegInf, Fin y | Fin y, NegInf => infOfSign y true
  | PosInf, PosInf | NegInf, NegInf => PosInf
  | PosInf, NegInf | NegInf, PosInf => NegInf
  end.

(** [a / b]; a zero divisor is taken as [+0]. *)
Definition div (a b : t) : t :=
  match a, b with
  | NaN, _ | _, NaN => NaN
  | Fin x, Fin y =>
      if Qeq_bool y 0 then infOfSign x false else Fin (x / y)%Q
  | Fin _, PosInf | Fin _, NegInf => Fin 0
  | PosInf, Fin y => if Qle_bool 0 y then PosInf else NegInf
  | NegInf, Fin y => if Qle_bool 0 y then NegInf else PosInf
  | _, _ => NaN
  end.

(** [a > b]: false as soon as one side is [NaN]. *)
Definition gtb (a b : t) : bool :=
  match a, b with
  | NaN, _ | _, NaN => false
  | Fin x, Fin y => negb (Qle_bool x y)
  | PosInf, PosInf => false
  | PosInf, _ => true
  | _, NegInf => match a with NegInf => false | _ => true end
  | _, _ => false
  end.

(** [a <= b] *)
Definition leb (a b : t) : bool :=
  match a, b with
  | NaN, _ | _, NaN => false
  | _, _ => negb (gtb a b)
  end.

(** [Math.min(a, b)] *)
Definition min (a b : t) : t :=
  match a, b with
  | NaN, _ | _, NaN => NaN
  | _, _ => if gtb a b then b else a
  end.

(** [Math.max(a, b)] *)
Definition max (a b : t) : t :=
  match a, b with
  | NaN, _ | _, NaN => NaN
  | _, _ => if gtb a b then a else b
  end.

(** [Math.abs(a)] *)
Definition abs (a : t) : t :=
  match a with
  | Fin q => Fin (Qabs q)
  | PosInf | NegInf => PosInf
  | NaN => NaN
  end.

(** Truthiness of a number: [0] and [NaN] are falsy. *)
Definition truthy (a : t) : bool :=
  match a with
  | Fin q => negb (Qeq_bool q 0)
  | NaN => false
  | PosInf | NegInf => true
  end.

(** [Number.isNaN(a)] *)
Definition isNaN (a : t) : bool :=
  match a with
  | NaN => true
  | _ => false
  end.

(** Equality of values (rationals up to their representation). *)
Definition same (a b : t) : Prop :=
  match a, b with
  | Fin x, Fin y => (x == y)%Q
  | PosInf, PosInf | NegInf, NegInf | NaN, NaN => True
  | _, _ => False
  end.

End JsNum.

Definition jsnum : Type := JsNum.t.

(** [x || d] for a possibly missing number. *)
Definition orNum (x : option jsnum) (d : jsnum) : jsnum :=
  match x with
  | Some v => if JsNum.truthy v then v else d
  | None => d
  end.

(** [x > c] for a possibly missing number: [undefined > c] is false. *)
Definition optGt (x : option jsnum) (c : Z) : bool :=
  match x with
  | Some v => JsNum.gtb v (JsNum.ofZ c)
  | None => false
  end.

(** [x || d] for a possibly missing string: the empty string is falsy. *)
Definition orStr (x : option string) (d : string) : string :=
  match x with
  | Some EmptyString | None => d
  | Some s => s
  end.

(** [x || d] for a possibly missing object or array (always truthy). *)
Definition orObj {A : Type} (x : option A) (d : A) : A :=
  match x with
  | Some v => v
  | None => d
  end.

(* ================================================================== *)
(** ** Strings *)
(* ================================================================== *)

(** [s.startsWith(p)] *)
Fixpoint startsWith (p s : string) : bool :=
  match p, s with
  | EmptyString, _ => true
  | String a p', String b s' => Ascii.eqb a b && startsWith p' s'
  | String _ _, EmptyString => false
  end.

(** [text.includes(keyword)] *)
Fixpoint includes (keyword text : string) : bool :=
  startsWith keyword text ||
  match text with
  | EmptyString => false
  | String _ rest => includes keyword rest
  end.

(** Lower-casing of the letters [A]-[Z]. *)
Definition lowerAscii (c : ascii) : ascii :=
  let n := nat_of_ascii c in
  if (Nat.leb 65 n && Nat.leb n 90)%bool then ascii_of_nat (n + 32) else c.

Fixpoint asciiToLowerCase (s : string) : string :=
  match s with
  | EmptyString => EmptyString
  | String c rest => String (lowerAscii c) (asciiToLowerCase rest)
  end.

(** The white space of [String.prototype.trim] among the code units
    below 256: tab, line feed, vertical tab, form feed, carriage return,
    space and no-break space. *)
Definition isWhiteSpace (c : ascii) : bool :=
  let n := nat_of_ascii c in
  (Nat.leb 9 n && Nat.leb n 13) || Nat.eqb n 32 || Nat.eqb n 160.

Fixpoint trimStart (s : string) : string :=
  match s with
  | EmptyString => EmptyString
  | String c rest => if isWhiteSpace c then trimStart rest else s
  end.

Fixpoint trimEnd (s : string) : string :=
  match s with
  | EmptyString => EmptyString
  | String c rest =>
      match trimEnd rest with
      | EmptyString => if isWhiteSpace c then EmptyString else String c EmptyString
      | kept => String c kept
      end
  end.

(** [s.trim()] *)
Definition trim (s : string) : string := trimEnd (trimStart s).

(** Interpolation of a possibly missing string in a template literal. *)
Definition interpolate (x : option string) : string :=
  match x with
  | Some s => s
  | None => "undefined"
  end.

(** Decimal rendering of an integer, as in a template literal. *)
Definition showZ (z : Z) : string := NilZero.string_of_int (Z.to_int z).

(* ================================================================== *)
(** ** Raw platform items and normalized trends *)
(* ================================================================== *)

Inductive Platform : Type := instagram | tiktok | youtube.

Definition platformName (p : Platform) : string :=
  match p with
  | instagram => "instagram"
  | tiktok => "tiktok"
  | youtube => "youtube"
  end.

(** The platform as the fetch errors spell it. *)
Definition platformLabel (p : Platform) : string :=
  match p with
  | instagram => "Instagram"
  | tiktok => "TikTok"
  | youtube => "YouTube"
  end.

(** The [metrics] object of a raw item, as the service reads it. *)
Record RawMetrics : Type := mkRawMetrics {
  raw_views : option jsnum;
  raw_uses : option jsnum;
  raw_growth : option jsnum;
  raw_likes : option jsnum;
  raw_comments : option jsnum;
  raw_shares : option jsnum;
  raw_engagementRate : option jsnum
}.

Record AudioTrack : Type := mkAudioTrack {
  audio_id : option string;
  audio_title : option string;
  audio_artist : option string
}.

Definition emptyAudioTrack : AudioTrack := mkAudioTrack None None None.

Record RawTrend : Type := mkRawTrend {
  raw_id : string;
  raw_title : option string;
  raw_description : option string;
  raw_hashtags : option (list string);
  raw_audioTrack : option AudioTrack;
  raw_metrics : option RawMetrics;
  raw_niche : option (list string);
  raw_relevanceScore : option jsnum;
  raw_originalUrl : option string;
  raw_thumbnailUrl : option string;
  raw_duration : option jsnum;
  raw_language : option string;
  raw_region : option string
}.

(** [data.metrics?.field] *)
Definition metricsField (f : RawMetrics -> option jsnum) (m : option RawMetrics)
  : option jsnum :=
  match m with
  | Some r => f r
  | None => None
  end.

Record TrendMetrics : Type := mkTrendMetrics {
  views : jsnum;
  uses : jsnum;
  growth : jsnum;
  engagementRate : jsnum
}.

Record Metadata : Type := mkMetadata {
  originalUrl : string;
  thumbnailUrl : string;
  duration : jsnum;
  language : string;
  region : string
}.

(** The object built by [normalizeTrendData]. *)
Record TrendData : Type := mkTrendData {
  td_platform : Platform;
  td_trendId : string;
  td_title : string;
  td_description : string;
  td_hashtags : list string;
  td_audioTrack : AudioTrack;
  td_metrics : TrendMetrics;
  td_niche : list string;
  td_relevanceScore : jsnum;
  td_metadata : Metadata
}.

(* ================================================================== *)
(** ** Scoring helpers of the social media service *)
(* ================================================================== *)

(** [calculateEngagementRate(metrics)].  The sum and the quotient are
    exact here; in doubles the sum of whole counts is exact up to [2^53]. *)
Definition calculateEngagementRate (metrics : option RawMetrics) : jsnum :=
  match metrics with
  | None => JsNum.ofZ 0
  | Some m =>
      match raw_views m with
      | None => JsNum.ofZ 0
      | Some v =>
          if negb (JsNum.truthy v) then JsNum.ofZ 0
          else
            let totalEngagement :=
              JsNum.add
                (JsNum.add (orNum (raw_likes m) (JsNum.ofZ 0))
                           (orNum (raw_comments m) (JsNum.ofZ 0)))
                (orNum (raw_shares m) (JsNum.ofZ 0)) in
            JsNum.mul (JsNum.div totalEngagement v) (JsNum.ofZ 100)
      end
  end.

(** [calculateRelevanceScore(data)] *)
Definition calculateRelevanceScore (data : RawTrend) : Z :=
  let score := 50 in
  let score :=
    if optGt (metricsField raw_engagementRate (raw_metrics data)) 5
    then score + 20
    else if optGt (metricsField raw_engagementRate (raw_metrics data)) 2
    then score + 10 else score in
  let score :=
    if optGt (metricsField raw_growth (raw_metrics data)) 1000
    then score + 15
    else if optGt (metricsField raw_growth (raw_metrics data)) 100
    then score + 10 else score in
  let score :=
    if optGt (metricsField raw_views (raw_metrics data)) 1000000
    then score + 15
    else if optGt (metricsField raw_views (raw_metrics data)) 100000
    then score + 10 else score in
  Z.min 100 (Z.max 0 score).

(** The keyword table of [detectNiche], in the order of its entries. *)
Definition nicheKeywords : list (string * list string) :=
  [ ("fitness", ["workout"; "gym"; "fitness"; "exercise"; "health"; "training"]);
    ("beauty", ["makeup"; "skincare"; "beauty"; "cosmetics"; "hair"; "style"]);
    ("food", ["recipe"; "cooking"; "food"; "kitchen"; "chef"; "meal"]);
    ("travel", ["travel"; "vacation"; "trip"; "destination"; "adventure"]);
    ("tech", ["technology"; "tech"; "gadget"; "app"; "software"; "ai"]);
    ("lifestyle", ["lifestyle"; "daily"; "routine"; "life"; "vlog"]);
    ("entertainment", ["funny"; "comedy"; "entertainment"; "meme"; "viral"]);
    ("education", ["learn"; "tutorial"; "education"; "how to"; "tips"; "guide"]) ]%string.

Section Classifier.

(** [String.prototype.toLowerCase], left abstract: the classifier is
    studied for every lower-casing function. *)
Variable toLowerCase : string -> string.

(** The text the classifier searches:
    [`${data.title} ${data.description}`.toLowerCase()]. *)
Definition nicheText (data : RawTrend) : string :=
  toLowerCase
    (interpolate (raw_title data) ++ " " ++ interpolate (raw_description data))%string.

(** The niches pushed by the loop over the keyword table. *)
Definition matchedNiches (text : string) : list string :=
  map fst
    (filter (fun entry => existsb (fun keyword => includes keyword text) (snd entry))
            nicheKeywords).

(** [detectNiche(data)] *)
Definition detectNiche (data : RawTrend) : list string :=
  let niches := matchedNiches (nicheText data) in
  if Nat.ltb 0 (List.length niches) then niches else ["general"%string].

(** [normalizeTrendData(platform, rawData)], with the value [now] that
    [Date.now()] returns. *)
Definition normalizeTrendData (now : Z) (platform : Platform) (rawData : RawTrend)
  : TrendData :=
  let trendId :=
    (platformName platform ++ "_" ++ raw_id rawData ++ "_" ++ showZ now)%string in
  {| td_platform := platform;
     td_trendId := trendId;
     td_title := orStr (raw_title rawData) EmptyString;
     td_description := orStr (raw_description rawData) EmptyString;
     td_hashtags := orObj (raw_hashtags rawData) [];
     td_audioTrack := orObj (raw_audioTrack rawData) emptyAudioTrack;
     td_metrics :=
       {| views := orNum (metricsField raw_views (raw_metrics rawData)) (JsNum.ofZ 0);
          uses := orNum (metricsField raw_uses (raw_metrics rawData)) (JsNum.ofZ 0);
          growth := orNum (metricsField raw_growth (raw_metrics rawData)) (JsNum.ofZ 0);
          engagementRate := calculateEngagementRate (raw_metrics rawData) |};
     td_niche := orObj (raw_niche rawData) (detectNiche rawData);
     td_relevanceScore :=
       orNum (raw_relevanceScore rawData)
             (JsNum.ofZ (calculateRelevanceScore rawData));
     td_metadata :=
       {| originalUrl := orStr (raw_originalUrl rawData) EmptyString;
          thumbnailUrl := orStr (raw_thumbnailUrl rawData) EmptyString;
          duration := orNum (raw_duration rawData) (JsNum.ofZ 0);
          language := orStr (raw_language rawData) "en";
          region := orStr (raw_region rawData) "US" |} |}.

End Classifier.

(* ================================================================== *)
(** ** Asynchronous jobs over a collection *)
(* ================================================================== *)

(** The result of awaiting a promise: a value or a thrown error. *)
Inductive outcome (A : Type) : Type :=
| Returned (value : A)
| Thrown (message : string).

Arguments Returned {A} value.
Arguments Thrown {A} message.

(** A job reads and writes a collection of type [S]; writes made before a
    throw are kept. *)
Definition Job (S A : Type) : Type := S -> outcome A * S.

Definition ret {S A : Type} (a : A) : Job S A := fun s => (Returned a, s).

Definition throw {S A : Type} (message : string) : Job S A :=
  fun s => (Thrown message, s).

Definition bind {S A B : Type} (c : Job S A) (k : A -> Job S B) : Job S B :=
  fun s =>
    match c s with
    | (Returned a, s') => k a s'
    | (Thrown e, s') => (Thrown e, s')
    end.

(** [try { c } catch (error) { handler(error) }] *)
Definition tryCatch {S A : Type} (c : Job S A) (handler : string -> Job S A)
  : Job S A :=
  fun s =>
    match c s with
    | (Returned a, s') => (Returned a, s')
    | (Thrown e, s') => handler e s'
    end.

Definition getStore {S : Type} : Job S S := fun s => (Returned s, s).

Declare Scope job_scope.
Delimit Scope job_scope with job.
Notation "x <- c ;; k" := (bind c (fun x => k))
  (at level 61, c at next level, right associativity) : job_scope.
Notation "c ;;; k" := (bind c (fun _ => k))
  (at level 61, right associativity) : job_scope.

(* ================================================================== *)
(** ** The trend collection *)
(* ================================================================== *)

(** A stored trend document: the paths of the trend schema, with the
    document id and the [createdAt] stamp that [calculateTrendScore] reads.
    The [updatedAt] stamp, which the trend code never reads, is not part
    of the model. *)
Record Trend : Type := mkTrend {
  docId : nat;
  platform : Platform;
  trendId : string;
  title : string;
  description : string;
  hashtags : list string;
  audioTrack : AudioTrack;
  metrics : TrendMetrics;
  niche : list string;
  relevanceScore : jsnum;
  metadata : Metadata;
  isActive : bool;
  expiresAt : Z;
  createdAt : Z
}.

Definition TrendStore : Type := list Trend.

Definition sevenDays : Z := 7 * 24 * 60 * 60 * 1000.

(** The setter of an array of strings declared with [trim: true]
    ([hashtags] and [niche] in the trend schema): every entry is trimmed
    when the path is set. *)
Definition trimmedEntries (entries : list string) : list string := map trim entries.

(** [Object.assign(existingTrend, trendData)]: the ten keys of the
    normalized object overwrite the document through the setters of the
    schema, the rest stays. *)
Definition assignTrendData (existing : Trend) (data : TrendData) : Trend :=
  {| docId := docId existing;
     platform := td_platform data;
     trendId := td_trendId data;
     title := td_title data;
     description := td_description data;
     hashtags := trimmedEntries (td_hashtags data);
     audioTrack := td_audioTrack data;
     metrics := td_metrics data;
     niche := trimmedEntries (td_niche data);
     relevanceScore := td_relevanceScore data;
     metadata := td_metadata data;
     isActive := isActive existing;
     expiresAt := expiresAt existing;
     createdAt := createdAt existing |}.

(** An id no document of the collection carries. *)
Definition freshId (store : TrendStore) : nat :=
  S (fold_right Nat.max 0%nat (map docId store)).

(** [new Trend(trendData)] followed by its first save at instant [now]:
    the setters of the schema, its defaults for [isActive] and
    [expiresAt], the creation stamp. *)
Definition newTrend (now : Z) (id : nat) (data : TrendData) : Trend :=
  {| docId := id;
     platform := td_platform data;
     trendId := td_trendId data;
     title := td_title data;
     description := td_description data;
     hashtags := trimmedEntries (td_hashtags data);
     audioTrack := td_audioTrack data;
     metrics := td_metrics data;
     niche := trimmedEntries (td_niche data);
     relevanceScore := td_relevanceScore data;
     metadata := td_metadata data;
     isActive := true;
     expiresAt := now + sevenDays;
     createdAt := now |}.

(** [relevanceScore] replaced, every other path kept. *)
Definition setRelevanceScore (t : Trend) (score : jsnum) : Trend :=
  {| docId := docId t;
     platform := platform t;
     trendId := trendId t;
     title := title t;
     description := description t;
     hashtags := hashtags t;
     audioTrack := audioTrack t;
     metrics := metrics t;
     niche := niche t;
     relevanceScore := score;
     metadata := metadata t;
     isActive := isActive t;
     expiresAt := expiresAt t;
     createdAt := createdAt t |}.

(** [Trend.findOne({ trendId })] *)
Definition findOneByTrendId (key : string) : Job TrendStore (option Trend) :=
  fun store => (Returned (find (fun t => String.eqb (trendId t) key) store), store).

(** The documents of the collection with the id of [doc] replaced by it. *)
Definition replaceDoc (doc : Trend) (store : TrendStore) : TrendStore :=
  map (fun t => if Nat.eqb (docId t) (docId doc) then doc else t) store.

(** The cast of a path of type [Number]: [NaN] is refused, every other
    number is kept. *)
Definition castsToNumber (x : jsnum) : bool := negb (JsNum.isNaN x).

(** The schema of [src/models/Trend.js] as the validation of a document
    on [save()]: [trendId] and [title] are required strings (the empty
    string does not count), the paths of type [Number] must cast, and
    [relevanceScore] has [min: 0] and [max: 100].  The platform is one of
    the three of the [enum] by its type. *)
Definition trendSchemaValid (t : Trend) : bool :=
  negb (String.eqb (trendId t) EmptyString) &&
  negb (String.eqb (title t) EmptyString) &&
  castsToNumber (views (metrics t)) &&
  castsToNumber (uses (metrics t)) &&
  castsToNumber (growth (metrics t)) &&
  castsToNumber (engagementRate (metrics t)) &&
  castsToNumber (duration (metadata t)) &&
  JsNum.leb (JsNum.ofZ 0) (relevanceScore t) &&
  JsNum.leb (relevanceScore t) (JsNum.ofZ 100).

(** [Trend.prototype.calculateTrendScore], with the value [now] of
    [Date.now()].  The weights [0.3] and [0.4] are the exact [3/10] and
    [4/10] here; the doubles the code multiplies by differ from them in
    the seventeenth digit, which only a comparison at its very threshold
    can notice. *)
Definition calculateTrendScore (now : Z) (t : Trend) : jsnum :=
  let ageInHours :=
    JsNum.div (JsNum.ofZ (now - createdAt t)) (JsNum.ofZ (1000 * 60 * 60)) in
  let recencyScore :=
    JsNum.max (JsNum.ofZ 0)
      (JsNum.sub (JsNum.ofZ 100)
         (JsNum.mul (JsNum.div ageInHours (JsNum.ofZ 24)) (JsNum.ofZ 10))) in
  let engagementScore :=
    JsNum.min (JsNum.ofZ 100)
      (JsNum.mul (engagementRate (metrics t)) (JsNum.ofZ 10)) in
  let growthScore :=
    JsNum.min (JsNum.ofZ 100) (JsNum.div (growth (metrics t)) (JsNum.ofZ 1000)) in
  JsNum.add
    (JsNum.add (JsNum.mul recencyScore (JsNum.Fin (3 # 10)))
               (JsNum.mul engagementScore (JsNum.Fin (4 # 10))))
    (JsNum.mul growthScore (JsNum.Fin (3 # 10))).

(** The body of the re-scoring loop on one document: the document as it
    is after the iteration, and whether it was saved.  The test [> 5] is
    made on the exact distance. *)
Definition rescore (now : Z) (trend : Trend) : Trend * bool :=
  let newScore := calculateTrendScore now trend in
  if JsNum.gtb (JsNum.abs (JsNum.sub (relevanceScore trend) newScore)) (JsNum.ofZ 5)
  then (setRelevanceScore trend newScore, true)
  else (trend, false).

(** The query of the re-scoring job:
    [{ isActive: true, expiresAt: { $gt: now } }]. *)
Definition activeUnexpired (now : Z) (t : Trend) : bool :=
  isActive t && (now <? expiresAt t).

(** The eight niches of [fetchNicheTrends]. *)
Definition popularNiches : list string :=
  [ "fitness"; "beauty"; "food"; "travel"; "tech";
    "lifestyle"; "entertainment"; "education" ]%string.

(** A niche argument: one niche name or an array of names. *)
Inductive NicheArg : Type :=
| OneNiche (name : string)
| ManyNiches (names : list string).

(** [Array.isArray(niche) ? niche : [niche]] *)
Definition nicheList (arg : NicheArg) : list string :=
  match arg with
  | OneNiche name => [name]
  | ManyNiches names => names
  end.

(** [!nicheFilter]: no filter, or the empty string. *)
Definition noNicheFilter (nicheFilter : option NicheArg) : bool :=
  match nicheFilter with
  | None | Some (OneNiche EmptyString) => true
  | Some _ => false
  end.

(** [matchesNiche(trend, nicheFilter)] *)
Definition matchesNiche (toLowerCase : string -> string) (trend : TrendData)
    (nicheFilter : option NicheArg) : bool :=
  if noNicheFilter nicheFilter then true
  else
    let niches := match nicheFilter with Some arg => nicheList arg | None => [] end in
    existsb
      (fun trendNiche =>
         existsb
           (fun filterNiche =>
              includes (toLowerCase filterNiche) (toLowerCase trendNiche))
           niches)
      (td_niche trend).

(** The [niche] argument of a fetcher, which is a niche name or [null],
    as a niche filter. *)
Definition nicheFilterOf (niche : option string) : option NicheArg :=
  option_map OneNiche niche.

(** The values of the promises that [Promise.allSettled] reports
    fulfilled; a rejected one contributes nothing. *)
Definition fulfilled {A : Type} (r : outcome (list A)) : list A :=
  match r with
  | Returned l => l
  | Thrown _ => []
  end.

Section TrendService.

Local Open Scope job_scope.

Variable toLowerCase : string -> string.

(** Whether the database accepts a document on [save()] (schema
    validation, connectivity); a refused save throws. *)
Variable saveOk : Trend -> bool.

(** What a platform returns when asked for its trends of a niche: the
    raw items, or a failure of the request. *)
Variable source : Platform -> option string -> outcome (list RawTrend).

(** Whether [process.env.YOUTUBE_API_KEY] is set: the YouTube fetcher then
    builds its items from the videos of the API and keeps the normalized
    ones that pass [matchesNiche]; without a key it normalizes its own
    sample items, all of them, as the other two fetchers do. *)
Variable youtubeApiKey : bool.

(** [doc.save()] for a document that is already stored. *)
Definition saveExisting (doc : Trend) : Job TrendStore unit :=
  fun store =>
    if saveOk doc then (Returned tt, replaceDoc doc store)
    else (Thrown "ValidationError", store).

(** [doc.save()] for a new document. *)
Definition saveNew (doc : Trend) : Job TrendStore unit :=
  fun store =>
    if saveOk doc then (Returned tt, store ++ [doc])
    else (Thrown "ValidationError", store).

(** Whether the fetcher of platform [p] filters what it normalized. *)
Definition filtersByNiche (p : Platform) : bool :=
  match p with
  | youtube => youtubeApiKey
  | _ => false
  end.

(** [fetchInstagramTrends], [fetchTikTokTrends], [fetchYouTubeTrends]:
    every raw item of the platform is normalized, and with an API key the
    YouTube fetcher keeps the trends that match the niche; any failure is
    thrown again as a fetch failure of that platform. *)
Definition fetchPlatformTrends (now : Z) (p : Platform) (filter : option string)
  : outcome (list TrendData) :=
  match source p filter with
  | Returned items =>
      let trends := map (normalizeTrendData toLowerCase now p) items in
      Returned
        (if filtersByNiche p
         then List.filter
                (fun trend => matchesNiche toLowerCase trend (nicheFilterOf filter))
                trends
         else trends)
  | Thrown _ => Thrown ("Failed to fetch " ++ platformLabel p ++ " trends")
  end.

(** The loop of [storeTrends]. *)
Fixpoint storeEach (now : Z) (trends : list TrendData) (storedTrends : list Trend)
  : Job TrendStore (list Trend) :=
  match trends with
  | [] => ret storedTrends
  | trendData :: rest =>
      existingTrend <- findOneByTrendId (td_trendId trendData) ;;
      match existingTrend with
      | Some existing =>
          let updated := assignTrendData existing trendData in
          saveExisting updated ;;;
          storeEach now rest (storedTrends ++ [updated])
      | None =>
          store <- getStore ;;
          let created := newTrend now (freshId store) trendData in
          saveNew created ;;;
          storeEach now rest (storedTrends ++ [created])
      end
  end.

(** [storeTrends(trends)] *)
Definition storeTrends (now : Z) (trends : list TrendData)
  : Job TrendStore (list Trend) :=
  tryCatch (storeEach now trends [])
           (fun _ => throw "Failed to store trends in database").

(** [fetchAndStoreTrends(niche)] *)
Definition fetchAndStoreTrends (now : Z) (filter : option string)
  : Job TrendStore (list Trend) :=
  tryCatch
    (let instagramTrends := fetchPlatformTrends now instagram filter in
     let tiktokTrends := fetchPlatformTrends now tiktok filter in
     let youtubeTrends := fetchPlatformTrends now youtube filter in
     let allTrends :=
       fulfilled instagramTrends ++ fulfilled tiktokTrends
         ++ fulfilled youtubeTrends in
     storedTrends <- storeTrends now allTrends ;;
     ret storedTrends)
    (fun error => throw error).

(** [fetchAllTrends()] *)
Definition fetchAllTrends (now : Z) : Job TrendStore (list Trend) :=
  tryCatch (trends <- fetchAndStoreTrends now None ;; ret trends)
           (fun error => throw error).

(** The loop of [fetchNicheTrends]: a niche whose refresh throws is
    logged and skipped; after a refresh that returned, the job waits two
    seconds. *)
Fixpoint fetchEachNiche (now : Z) (niches : list string) (allTrends : list Trend)
  : Job TrendStore (list Trend) :=
  match niches with
  | [] => ret allTrends
  | n :: rest =>
      fun store =>
        match fetchAndStoreTrends now (Some n) store with
        | (Returned nicheTrends, store') =>
            fetchEachNiche (now + 2000) rest (allTrends ++ nicheTrends) store'
        | (Thrown _, store') =>
            fetchEachNiche now rest allTrends store'
        end
  end.

(** [fetchNicheTrends()] *)
Definition fetchNicheTrends (now : Z) : Job TrendStore (list Trend) :=
  tryCatch (fetchEachNiche now popularNiches [])
           (fun error => throw error).

(** The loop of [updateTrendScores] over the documents the query
    returned. *)
Fixpoint rescoreEach (now : Z) (trends : list Trend) (updatedCount : nat)
  : Job TrendStore nat :=
  match trends with
  | [] => ret updatedCount
  | trend :: rest =>
      let (trend', changed) := rescore now trend in
      if changed
      then saveExisting trend' ;;; rescoreEach now rest (S updatedCount)
      else rescoreEach now rest updatedCount
  end.

(** [updateTrendScores()] *)
Definition updateTrendScores (now : Z) : Job TrendStore nat :=
  tryCatch
    (store <- getStore ;;
     let trends := filter (activeUnexpired now) store in
     rescoreEach now trends 0%nat)
    (fun error => throw error).

(** [scheduleJob(name, cronExpression, task)]: the callback it hands to
    the cron library, run at every tick; the task runs inside a [try]
    whose [catch] only logs. *)
Definition scheduleJob {A : Type} (task : Job TrendStore A) : Job TrendStore unit :=
  tryCatch (task ;;; ret tt) (fun _ => ret tt).

End TrendService.

(* ================================================================== *)
(** ** The analytics collection *)
(* ================================================================== *)

Module Analytics.

Record Metrics : Type := mkMetrics {
  views : Z;
  likes : Z;
  comments : Z;
  shares : Z
}.

Record Performance : Type := mkPerformance {
  dailyGrowth : Z;
  weeklyGrowth : Z;
  monthlyGrowth : Z
}.

(** A stored analytics document: the paths of the analytics schema that
    growth computation and cleanup read or write.  Counts are integers. *)
Record doc : Type := mkDoc {
  docId : nat;
  userId : string;
  platform : string;
  mediaId : string;
  metrics : Metrics;
  performance : Performance;
  timestamp : Z;
  isActive : bool;
  createdAt : Z
}.

Definition Store : Type := list doc.

Definition sameMedia (a b : doc) : bool :=
  String.eqb (userId a) (userId b) &&
  String.eqb (platform a) (platform b) &&
  String.eqb (mediaId a) (mediaId b).

Definition setPerformance (d : doc) (p : Performance) : doc :=
  {| docId := docId d; userId := userId d; platform := platform d;
     mediaId := mediaId d; metrics := metrics d; performance := p;
     timestamp := timestamp d; isActive := isActive d;
     createdAt := createdAt d |}.

(** The first document of the greatest [timestamp]: what a query sorted
    by [{ timestamp: -1 }] returns first. *)
Fixpoint latest (candidates : list doc) : option doc :=
  match candidates with
  | [] => None
  | d :: rest =>
      match latest rest with
      | Some best => if timestamp d <? timestamp best then Some best else Some d
      | None => Some d
      end
  end.

(** The query of [calculateGrowthRates]: same user, platform and media,
    [timestamp] strictly earlier, [isActive: true], latest first. *)
Definition findPrevious (store : Store) (this : doc) : option doc :=
  latest
    (filter (fun d => sameMedia d this && (timestamp d <? timestamp this) && isActive d)
            store).

Definition msPerDay : Z := 1000 * 60 * 60 * 24.

(** The document as [calculateGrowthRates] leaves it before saving. *)
Definition withGrowthRates (store : Store) (this : doc) : doc :=
  match findPrevious store this with
  | Some previousAnalytics =>
      let timeDiff := timestamp this - timestamp previousAnalytics in
      let daysDiff := (inject_Z timeDiff / inject_Z msPerDay)%Q in
      let delta := views (metrics this) - views (metrics previousAnalytics) in
      let perf := performance this in
      if Qle_bool daysDiff 1 then
        setPerformance this
          {| dailyGrowth := delta;
             weeklyGrowth := weeklyGrowth perf;
             monthlyGrowth := monthlyGrowth perf |}
      else if Qle_bool daysDiff 7 then
        setPerformance this
          {| dailyGrowth := dailyGrowth perf;
             weeklyGrowth := delta;
             monthlyGrowth := monthlyGrowth perf |}
      else if Qle_bool daysDiff 30 then
        setPerformance this
          {| dailyGrowth := dailyGrowth perf;
             weeklyGrowth := weeklyGrowth perf;
             monthlyGrowth := delta |}
      else this
  | None => this
  end.

(** [doc.save()]: the stored document of that id is replaced, a document
    not stored yet is added. *)
Definition save (d : doc) (store : Store) : Store :=
  if existsb (fun x => Nat.eqb (docId x) (docId d)) store
  then map (fun x => if Nat.eqb (docId x) (docId d) then d else x) store
  else store ++ [d].

(** [Analytics.prototype.calculateGrowthRates]: the saved document and
    the collection after the save. *)
Definition calculateGrowthRates (store : Store) (this : doc) : doc * Store :=
  let this' := withGrowthRates store this in
  (this', save this' store).

(** The [_id] of a [$group] stage: user, platform and media. *)
Definition groupKey : Type := (string * string * string)%type.

Definition keyOf (d : doc) : groupKey := (userId d, platform d, mediaId d).

Definition keyEqb (a b : groupKey) : bool :=
  let '(u1, p1, m1) := a in
  let '(u2, p2, m2) := b in
  String.eqb u1 u2 && String.eqb p1 p2 && String.eqb m1 m2.

(** [$push] of one document id into the group of its key. *)
Fixpoint pushGroup (key : groupKey) (id : nat) (groups : list (groupKey * list nat))
  : list (groupKey * list nat) :=
  match groups with
  | [] => [(key, [id])]
  | (k, ids) :: rest =>
      if keyEqb k key then (k, ids ++ [id]) :: rest
      else (k, ids) :: pushGroup key id rest
  end.

(** The [$group] stage of the duplicates pipeline: the documents are
    consumed in scan order, so every [docs] array lists its ids in that
    order. *)
Definition groupDocs (store : Store) : list (groupKey * list nat) :=
  fold_left (fun groups d => pushGroup (keyOf d) (docId d) groups) store [].

(** The [$match] stage: [count > 1]. *)
Definition duplicateGroups (store : Store) : list (groupKey * list nat) :=
  filter (fun g => Nat.ltb 1 (List.length (snd g))) (groupDocs store).

(** [Analytics.deleteMany({ _id: { $in: ids } })] *)
Definition deleteByIds (ids : list nat) (store : Store) : Store :=
  filter (fun d => negb (existsb (Nat.eqb (docId d)) ids)) store.

(** Ninety days, each of twenty-four hours. *)
Definition ninetyDays : Z := 90 * msPerDay.

(** [performWeeklyCleanup()] at instant [now]: inactive documents older
    than ninety days go first; then, of every group with more than one
    document, [docs.slice(1)] is deleted. *)
Definition performWeeklyCleanup (now : Z) (store : Store) : Store :=
  let cutoffDate := now - ninetyDays in
  let store1 :=
    filter (fun d => negb ((timestamp d <? cutoffDate) && negb (isActive d))) store in
  let duplicates := duplicateGroups store1 in
  fold_left
    (fun st duplicate =>
       let docsToRemove := tl (snd duplicate) in
       deleteByIds docsToRemove st)
    duplicates store1.

End Analytics.

(* ================================================================== *)
(** ** Inputs used to state the properties *)
(* ================================================================== *)

(** The raw item [data] with its [metrics] object replaced. *)
Definition withMetrics (data : RawTrend) (m : RawMetrics) : RawTrend :=
  {| raw_id := raw_id data;
     raw_title := raw_title data;
     raw_description := raw_description data;
     raw_hashtags := raw_hashtags data;
     raw_audioTrack := raw_audioTrack data;
     raw_metrics := Some m;
     raw_niche := raw_niche data;
     raw_relevanceScore := raw_relevanceScore data;
     raw_originalUrl := raw_originalUrl data;
     raw_thumbnailUrl := raw_thumbnailUrl data;
     raw_duration := raw_duration data;
     raw_language := raw_language data;
     raw_region := raw_region data |}.

Definition setEngagementRate (m : RawMetrics) (x : jsnum) : RawMetrics :=
  {| raw_views := raw_views m; raw_uses := raw_uses m; raw_growth := raw_growth m;
     raw_likes := raw_likes m; raw_comments := raw_comments m;
     raw_shares := raw_shares m; raw_engagementRate := Some x |}.

Definition setGrowth (m : RawMetrics) (x : jsnum) : RawMetrics :=
  {| raw_views := raw_views m; raw_uses := raw_uses m; raw_growth := Some x;
     raw_likes := raw_likes m; raw_comments := raw_comments m;
     raw_shares := raw_shares m; raw_engagementRate := raw_engagementRate m |}.

Definition setViews (m : RawMetrics) (x : jsnum) : RawMetrics :=
  {| raw_views := Some x; raw_uses := raw_uses m; raw_growth := raw_growth m;
     raw_likes := raw_likes m; raw_comments := raw_comments m;
     raw_shares := raw_shares m; raw_engagementRate := raw_engagementRate m |}.

(** [keyword] occurs in [text] as a substring. *)
Definition occursIn (keyword text : string) : Prop :=
  exists before after : string, text = (before ++ keyword ++ after)%string.


(** The three boosts of the scorer, one per metric. *)
Definition boost (x : option jsnum) (high low : Z) (big small : Z) : Z :=
  if optGt x high then big else if optGt x low then small else 0.

(** [prior] is a record of the media of [this] with an earlier timestamp. *)
Definition priorOf (this prior : Analytics.doc) : Prop :=
  Analytics.sameMedia prior this = true
  /\ Analytics.timestamp prior < Analytics.timestamp this.

(** The views delta between [this] and [prior] went to the bucket of the
    elapsed time, and to no other: [result] is [this] as growth
    computation leaves it. *)
Definition bucketAssigned (prior this result : Analytics.doc) : Prop :=
  let elapsed := Analytics.timestamp this - Analytics.timestamp prior in
  let delta :=
    Analytics.views (Analytics.metrics this)
    - Analytics.views (Analytics.metrics prior) in
  let old := Analytics.performance this in
  (elapsed <= Analytics.msPerDay ->
     result = Analytics.setPerformance this
       {| Analytics.dailyGrowth := delta;
          Analytics.weeklyGrowth := Analytics.weeklyGrowth old;
          Analytics.monthlyGrowth := Analytics.monthlyGrowth old |})
  /\ (Analytics.msPerDay < elapsed <= 7 * Analytics.msPerDay ->
     result = Analytics.setPerformance this
       {| Analytics.dailyGrowth := Analytics.dailyGrowth old;
          Analytics.weeklyGrowth := delta;
          Analytics.monthlyGrowth := Analytics.monthlyGrowth old |})
  /\ (7 * Analytics.msPerDay < elapsed <= 30 * Analytics.msPerDay ->
     result = Analytics.setPerformance this
       {| Analytics.dailyGrowth := Analytics.dailyGrowth old;
          Analytics.weeklyGrowth := Analytics.weeklyGrowth old;
          Analytics.monthlyGrowth := delta |})
  /\ (30 * Analytics.msPerDay < elapsed -> result = this).

(** The growth-bucket property with any earlier record of the media as
    the prior one, active or not: whenever the media has an earlier
    record, the delta against the latest of them is assigned. *)
Definition bucketsFromAnyPrior : Prop :=
  forall (store : Analytics.Store) (this : Analytics.doc),
    (exists q, In q store /\ priorOf this q) ->
    exists prior,
      In prior store /\ priorOf this prior
      /\ (forall q, In q store -> priorOf this q ->
            Analytics.timestamp q <= Analytics.timestamp prior)
      /\ bucketAssigned prior this (fst (Analytics.calculateGrowthRates store this)).

(** An analytics document of user [u1], media [m1] on instagram. *)
Definition mediaRecord (id : nat) (v : Z) (created : Z) (active : bool)
  : Analytics.doc :=
  {| Analytics.docId := id;
     Analytics.userId := "u1";
     Analytics.platform := "instagram";
     Analytics.mediaId := "m1";
     Analytics.metrics :=
       {| Analytics.views := v; Analytics.likes := 0;
          Analytics.comments := 0; Analytics.shares := 0 |};
     Analytics.performance :=
       {| Analytics.dailyGrowth := 0; Analytics.weeklyGrowth := 0;
          Analytics.monthlyGrowth := 0 |};
     Analytics.timestamp := created;
     Analytics.isActive := active;
     Analytics.createdAt := created |}.

Definition hours (n : Z) : Z := n * 60 * 60 * 1000.

(** A title and a description that two niches claim. *)
Definition cookingLesson : RawTrend :=
  {| raw_id := "item";
     raw_title := Some "Healthy Cooking Recipe"%string;
     raw_description := Some "Learn to cook healthy meals in your kitchen"%string;
     raw_hashtags := None; raw_audioTrack := None; raw_metrics := None;
     raw_niche := None; raw_relevanceScore := None; raw_originalUrl := None;
     raw_thumbnailUrl := None; raw_duration := None; raw_language := None;
     raw_region := None |}.

(** A platform side on which instagram reports the given items and the
    other two platforms report nothing. *)
Definition instagramOnly (items : list RawTrend)
  : Platform -> option string -> outcome (list RawTrend) :=
  fun p _ =>
    match p with
    | instagram => Returned items
    | _ => Returned []
    end.

(** The store after a job, and what the job returned. *)
Definition storeAfter {S A : Type} (run : outcome A * S) : S := snd run.
Definition resultOf {S A : Type} (run : outcome A * S) : outcome A := fst run.

(** The distance the re-scoring job compares with 5:
    [Math.abs(trend.relevanceScore - newScore)]. *)
Definition scoreDistance (now : Z) (t : Trend) : jsnum :=
  JsNum.abs (JsNum.sub (relevanceScore t) (calculateTrendScore now t)).



Definition platformEqb (p q : Platform) : bool :=
  match p, q with
  | instagram, instagram | tiktok, tiktok | youtube, youtube => true
  | _, _ => false
  end.

(** A number that is finite when it is present. *)
Definition finiteIfPresent (x : option jsnum) : Prop :=
  match x with
  | Some (JsNum.Fin _) | None => True
  | Some _ => False
  end.


(** A raw item that carries nothing but an id, a title and metrics. *)
Definition bareItem (id title : string) (m : RawMetrics) : RawTrend :=
  {| raw_id := id;
     raw_title := Some title;
     raw_description := None;
     raw_hashtags := None;
     raw_audioTrack := None;
     raw_metrics := Some m;
     raw_niche := None;
     raw_relevanceScore := None;
     raw_originalUrl := None;
     raw_thumbnailUrl := None;
     raw_duration := None;
     raw_language := None;
     raw_region := None |}.

(** Metrics as a platform fetcher reports them:
    [{ views, likes, comments, shares, growth }]. *)
Definition fetchedMetrics (v l c s g : Z) : RawMetrics :=
  {| raw_views := Some (JsNum.ofZ v);
     raw_uses := None;
     raw_growth := Some (JsNum.ofZ g);
     raw_likes := Some (JsNum.ofZ l);
     raw_comments := Some (JsNum.ofZ c);
     raw_shares := Some (JsNum.ofZ s);
     raw_engagementRate := None |}.

(** A post seen once and liked five times. *)
Definition overLikedMetrics : RawMetrics := fetchedMetrics 1 5 0 0 0.

(** Metrics whose [views] and [likes] both overflowed to [Infinity]. *)
Definition unboundedMetrics : RawMetrics :=
  {| raw_views := Some JsNum.PosInf;
     raw_uses := None;
     raw_growth := None;
     raw_likes := Some JsNum.PosInf;
     raw_comments := None;
     raw_shares := None;
     raw_engagementRate := None |}.

(** The post [abc] as instagram reports it on a first and on a later
    refresh: same item, more views and likes. *)
Definition postFirstSeen : RawTrend :=
  bareItem "abc" "Post" (fetchedMetrics 1000 10 1 1 5).

Definition postSeenAgain : RawTrend :=
  bareItem "abc" "Post" (fetchedMetrics 9000 90 9 9 50).

(** A platform side on which the instagram request fails, tiktok reports
    the post [abc] and youtube reports nothing. *)
Definition instagramDown : Platform -> option string -> outcome (list RawTrend) :=
  fun p _ =>
    match p with
    | instagram => Thrown "API Error"
    | tiktok => Returned [postFirstSeen]
    | youtube => Returned []
    end.

(** A database that accepts every document. *)
Definition acceptAll : Trend -> bool := fun _ => true.

(** [{ views: 1_200_000, likes: 60_000, comments: 3_000, shares: 2_000,
    growth: 1_500 }] *)
Definition scenarioMetrics : RawMetrics :=
  fetchedMetrics 1200000 60000 3000 2000 1500.

Definition scenarioItem : RawTrend := bareItem "item" "Scenario" scenarioMetrics.

(** The scenario item as stored by a refresh at instant 0, and a second
    document whose stored score is within 5 of the one re-scoring computes
    one hour later. *)
Definition staleTrend : Trend :=
  newTrend 0 1 (normalizeTrendData asciiToLowerCase 0 instagram scenarioItem).

Definition settledTrend : Trend :=
  setRelevanceScore
    (newTrend 0 2 (normalizeTrendData asciiToLowerCase 0 tiktok postFirstSeen))
    (JsNum.ofZ 30).

Definition oneHour : Z := 1000 * 60 * 60.



From Stdlib Require Import Sorted.

(* ================================================================== *)
(** ** Trend expiry *)
(* ================================================================== *)

Definition fourteenDays : Z := 14 * 24 * 60 * 60 * 1000.

(** The filter of the [deleteMany] of [cleanupExpiredTrends]:
    [{ $or: [ { expiresAt: { $lt: now } }, { isActive: false },
              { createdAt: { $lt: now - 14 days } } ] }]. *)
Definition expiredOrStale (now : Z) (t : Trend) : bool :=
  (expiresAt t <? now) || negb (isActive t) || (createdAt t <? now - fourteenDays).

(** [Trend.deleteMany(filter)]: the matching documents are deleted and
    counted, unless the database refuses the operation, with [refusal] as
    its error. *)
Definition deleteManyTrends (refusal : option string) (doomed : Trend -> bool)
  : Job TrendStore nat :=
  fun store =>
    match refusal with
    | Some error => (Thrown error, store)
    | None =>
        (Returned (List.length (filter doomed store)),
         filter (fun t => negb (doomed t)) store)
    end.

(** [cleanupExpiredTrends()]: the number of deleted documents is
    returned; an error of the database is logged and thrown again. *)
Definition cleanupExpiredTrends (now : Z) (refusal : option string)
  : Job TrendStore nat :=
  tryCatch (deleteManyTrends refusal (expiredOrStale now))
           (fun error => throw error).

(** The term each component adds to the trend score of a document with
    finite metrics. *)
Definition recencyPart (now : Z) (t : Trend) : Q :=
  let y := (100 + - (inject_Z (now - createdAt t) / inject_Z (1000 * 60 * 60)
                     / inject_Z 24 * inject_Z 10))%Q in
  if Qle_bool (inject_Z 0) y then y else inject_Z 0.

Definition cappedAt100 (x : Q) : Q :=
  if Qle_bool (inject_Z 100) x then inject_Z 100 else x.

Definition tenDays : Z := 10 * 24 * 60 * 60 * 1000.

(* ================================================================== *)
(** ** The jobs that write the trend collection *)
(* ================================================================== *)

Section TrendTrigger.

Local Open Scope job_scope.

Variable toLowerCase : string -> string.
Variable saveOk : Trend -> bool.
Variable source : Platform -> option string -> outcome (list RawTrend).
Variable youtubeApiKey : bool.

(** The [case] labels of the [switch] of [triggerTrendFetch]. *)
Definition platformOfName (name : string) : option Platform :=
  if String.eqb name "instagram" then Some instagram
  else if String.eqb name "tiktok" then Some tiktok
  else if String.eqb name "youtube" then Some youtube
  else None.

(** [triggerTrendFetch(platform, niche)]: with a platform (a non-empty
    string) only that platform is fetched, and its trends are stored;
    without one the refresh of all platforms runs. *)
Definition triggerTrendFetch (now : Z) (platformArg : option string)
    (filter : option string) : Job TrendStore (list Trend) :=
  tryCatch
    (match platformArg with
     | Some (String c rest) =>
         let name := String c rest in
         match platformOfName (toLowerCase name) with
         | Some p =>
             match fetchPlatformTrends toLowerCase source youtubeApiKey now p filter with
             | Returned trends =>
                 stored <- storeTrends saveOk now trends ;; ret stored
             | Thrown e => throw e
             end
         | None => throw ("Unsupported platform: " ++ name)
         end
     | _ =>
         trends <- fetchAndStoreTrends toLowerCase saveOk source youtubeApiKey
                     now filter ;;
         ret trends
     end)
    (fun error => throw error).

End TrendTrigger.

(** One run of a job of the trend scheduler, or of the manual trigger,
    with the instant at which it runs and what it meets: the platform
    side, whether a YouTube API key is configured, the refusal of the
    database if it refuses the cleanup. *)
Inductive TrendJob : Type :=
| RunFetchTrends (now : Z)
    (source : Platform -> option string -> outcome (list RawTrend))
    (youtubeApiKey : bool)
| RunFetchNicheTrends (now : Z)
    (source : Platform -> option string -> outcome (list RawTrend))
    (youtubeApiKey : bool)
| RunUpdateTrendScores (now : Z)
| RunCleanupTrends (now : Z) (refusal : option string)
| RunTrigger (now : Z) (platformArg filter : option string)
    (source : Platform -> option string -> outcome (list RawTrend))
    (youtubeApiKey : bool).

(** The collection a job leaves behind, whether it returned or threw. *)
Definition runTrendJob (toLowerCase : string -> string) (saveOk : Trend -> bool)
    (job : TrendJob) (store : TrendStore) : TrendStore :=
  match job with
  | RunFetchTrends now source youtubeApiKey =>
      storeAfter
        (scheduleJob (fetchAllTrends toLowerCase saveOk source youtubeApiKey now)
           store)
  | RunFetchNicheTrends now source youtubeApiKey =>
      storeAfter
        (scheduleJob (fetchNicheTrends toLowerCase saveOk source youtubeApiKey now)
           store)
  | RunUpdateTrendScores now =>
      storeAfter (scheduleJob (updateTrendScores saveOk now) store)
  | RunCleanupTrends now refusal =>
      storeAfter (scheduleJob (cleanupExpiredTrends now refusal) store)
  | RunTrigger now platformArg filter source youtubeApiKey =>
      storeAfter
        (triggerTrendFetch toLowerCase saveOk source youtubeApiKey now platformArg
           filter store)
  end.

Definition runTrendJobs (toLowerCase : string -> string) (saveOk : Trend -> bool)
    (jobs : list TrendJob) (store : TrendStore) : TrendStore :=
  fold_left (fun s job => runTrendJob toLowerCase saveOk job s) jobs store.

(** What every stored trend satisfies: it is active and expires seven
    days after its creation. *)
Definition freshlyExpiring (t : Trend) : Prop :=
  isActive t = true /\ expiresAt t = createdAt t + sevenDays.

(** What the trend collection satisfies: document ids and trend keys are
    unique, and every document is [freshlyExpiring]. *)
Definition trendStoreOk (store : TrendStore) : Prop :=
  NoDup (map docId store) /\ NoDup (map trendId store)
  /\ Forall freshlyExpiring store.

(** A document is left as it was or re-scored. *)
Definition keptOrRescored (now : Z) (t t' : Trend) : Prop :=
  t' = t \/ (activeUnexpired now t = true /\ t' = fst (rescore now t)).

(** The document [doc] carries the ten keys of the normalized [data]. *)
Definition carries (data : TrendData) (doc : Trend) : Prop :=
  platform doc = td_platform data
  /\ trendId doc = td_trendId data
  /\ title doc = td_title data
  /\ description doc = td_description data
  /\ hashtags doc = map trim (td_hashtags data)
  /\ audioTrack doc = td_audioTrack data
  /\ metrics doc = td_metrics data
  /\ niche doc = map trim (td_niche data)
  /\ relevanceScore doc = td_relevanceScore data
  /\ metadata doc = td_metadata data.



(** The platform side [source] reduced to platform [p]: the other
    platforms report no item. *)
Definition onlyPlatform
    (source : Platform -> option string -> outcome (list RawTrend))
    (p : Platform) : Platform -> option string -> outcome (list RawTrend) :=
  fun q filter => if platformEqb q p then source q filter else Returned [].

Definition storeFailure : string := "Failed to store trends in database".

(* ================================================================== *)
(** ** Hashtags *)
(* ================================================================== *)

(** The class [\w] of the hashtag pattern: letters, digits, underscore. *)
Definition isWordChar (c : ascii) : bool :=
  let n := nat_of_ascii c in
  (Nat.leb 48 n && Nat.leb n 57) || (Nat.leb 65 n && Nat.leb n 90)
  || (Nat.leb 97 n && Nat.leb n 122) || Nat.eqb n 95.

Definition isHash (c : ascii) : bool := Ascii.eqb c "#"%char.

(** The match that ends where the scan stands: the word read since the
    last [#], if it is not empty. *)
Definition closeTag (pending : option string) : list string :=
  match pending with
  | Some (String c w) => [String c w]
  | _ => []
  end.

(** The matches of [/#[\w]+/g] in [text], each without its [#], found by
    one scan from the left; [pending] is the word read since a [#] the
    scan is still extending. *)
Fixpoint scanHashtags (text : string) (pending : option string) : list string :=
  match text with
  | EmptyString => closeTag pending
  | String c rest =>
      match pending with
      | Some w =>
          if isWordChar c
          then scanHashtags rest (Some (w ++ String c EmptyString)%string)
          else closeTag pending
               ++ scanHashtags rest (if isHash c then Some EmptyString else None)
      | None => scanHashtags rest (if isHash c then Some EmptyString else None)
      end
  end.

(** [extractHashtags(text)] *)
Definition extractHashtags (text : option string) : list string :=
  match text with
  | None | Some EmptyString => []
  | Some t => scanHashtags t None
  end.

Fixpoint allWordChars (s : string) : bool :=
  match s with
  | EmptyString => true
  | String c rest => isWordChar c && allWordChars rest
  end.

(** A tag: a non-empty string of word characters. *)
Definition isTag (s : string) : Prop :=
  s <> EmptyString /\ allWordChars s = true.

(** The tags written one after the other, each behind a space and a [#]. *)
Fixpoint hashtagText (tags : list string) : string :=
  match tags with
  | [] => EmptyString
  | t :: rest => (" #" ++ t ++ hashtagText rest)%string
  end.

(* ================================================================== *)
(** ** Queries on the trend collection *)
(* ================================================================== *)

(** The order in which the database sorts numbers: [NaN] first, then
    negative infinity, the finite numbers, positive infinity. *)
Definition sortLeb (a b : jsnum) : bool :=
  match a, b with
  | JsNum.NaN, _ => true
  | _, JsNum.NaN => false
  | JsNum.NegInf, _ => true
  | _, JsNum.NegInf => false
  | JsNum.Fin x, JsNum.Fin y => Qle_bool x y
  | _, JsNum.PosInf => true
  | JsNum.PosInf, JsNum.Fin _ => false
  end.

Section Sorting.

Variable A : Type.

(** [a] may stand before [b]. *)
Variable before : A -> A -> bool.

Fixpoint insertSorted (a : A) (l : list A) : list A :=
  match l with
  | [] => [a]
  | b :: rest => if before a b then a :: b :: rest else b :: insertSorted a rest
  end.

(** A sort that keeps the scan order of documents that tie. *)
Definition sortBy (l : list A) : list A := fold_right insertSorted [] l.

End Sorting.

Arguments insertSorted {A} before a l.
Arguments sortBy {A} before l.

(** A sort specification [{ first: -1, second: -1 }]: descending by the
    first key, ties by the second. *)
Definition descending (first second : Trend -> jsnum) (t u : Trend) : bool :=
  negb (sortLeb (first t) (first u))
  || (sortLeb (first u) (first t) && sortLeb (second u) (second t)).

(** [.limit(n)]: a limit of 0 is no limit. *)
Definition limitTo {A : Type} (n : nat) (l : list A) : list A :=
  match n with
  | O => l
  | _ => firstn n l
  end.

(** [Trend.findByNicheAndPlatform(niche, platform, limit)] at instant
    [now]. *)
Definition findByNicheAndPlatform (now : Z) (arg : NicheArg) (p : Platform)
    (limit : nat) (store : TrendStore) : list Trend :=
  limitTo limit
    (sortBy (descending relevanceScore (fun t => growth (metrics t)))
       (filter
          (fun t =>
             platformEqb (platform t) p
             && existsb (fun n => existsb (String.eqb n) (nicheList arg)) (niche t)
             && isActive t && (now <? expiresAt t))
          store)).

(** [Trend.findTrending(platforms, limit)] at instant [now]. *)
Definition findTrending (now : Z) (platforms : list Platform) (limit : nat)
    (store : TrendStore) : list Trend :=
  limitTo limit
    (sortBy (descending (fun t => growth (metrics t)) relevanceScore)
       (filter
          (fun t =>
             existsb (platformEqb (platform t)) platforms
             && isActive t && (now <? expiresAt t)
             && JsNum.gtb (growth (metrics t)) (JsNum.ofZ 0))
          store)).


(** A raw item without a title. *)
Definition untitledItem : RawTrend :=
  {| raw_id := "nameless";
     raw_title := None;
     raw_description := None;
     raw_hashtags := None;
     raw_audioTrack := None;
     raw_metrics := Some scenarioMetrics;
     raw_niche := None;
     raw_relevanceScore := None;
     raw_originalUrl := None;
     raw_thumbnailUrl := None;
     raw_duration := None;
     raw_language := None;
     raw_region := None |}.

(** A platform side on which instagram is down, and tiktok reports an
    item without a title for fitness, the cooking lesson for food and
    nothing for the other niches; youtube reports nothing. *)
Definition flakyPlatforms : Platform -> option string -> outcome (list RawTrend) :=
  fun p filter =>
    match p with
    | instagram => Thrown "API Error"
    | tiktok =>
        match filter with
        | Some n =>
            if String.eqb n "fitness" then Returned [untitledItem]
            else if String.eqb n "food" then Returned [cookingLesson]
            else Returned []
        | None => Returned []
        end
    | youtube => Returned []
    end.

(* ================================================================== *)
(** ** Groups of the analytics cleanup *)
(* ================================================================== *)

(** The [docs] array of the group of key [k], empty when there is none. *)
Definition lookupIds (k : Analytics.groupKey)
    (groups : list (Analytics.groupKey * list nat)) : list nat :=
  match find (fun g => Analytics.keyEqb (fst g) k) groups with
  | Some g => snd g
  | None => []
  end.

(** The ids of the documents of key [k], in scan order. *)
Definition idsOfKey (k : Analytics.groupKey) (store : Analytics.Store) : list nat :=
  map Analytics.docId
    (filter (fun d => Analytics.keyEqb (Analytics.keyOf d) k) store).

(** What the first [deleteMany] of the weekly cleanup leaves: every
    document that is active or not older than ninety days. *)
Definition retained (now : Z) (store : Analytics.Store) : Analytics.Store :=
  filter
    (fun d =>
       negb ((Analytics.timestamp d <? now - Analytics.ninetyDays)
             && negb (Analytics.isActive d)))
    store.

(** The first document of the media of [d] in scan order. *)
Definition firstOfMedia (store : Analytics.Store) (d : Analytics.doc)
  : option Analytics.doc :=
  find (fun x => Analytics.keyEqb (Analytics.keyOf x) (Analytics.keyOf d)) store.

(* ================================================================== *)
(** ** Storing fetched analytics *)
(* ================================================================== *)

(** An item of [analyticsData], as the platform fetchers build it. *)
Record AnalyticsItem : Type := mkAnalyticsItem {
  item_mediaId : string;
  item_timestamp : Z;
  item_metrics : Analytics.Metrics
}.

(** [Analytics.findByMediaId(userId, platform, mediaId)]: the latest
    active document of the media. *)
Definition findByMediaId (store : Analytics.Store) (user plat media : string)
  : option Analytics.doc :=
  Analytics.latest
    (filter
       (fun d =>
          String.eqb (Analytics.userId d) user
          && String.eqb (Analytics.platform d) plat
          && String.eqb (Analytics.mediaId d) media
          && Analytics.isActive d)
       store).

(** [Object.assign(this.metrics, newMetrics)] with the complete metrics
    of a fetched item. *)
Definition setMetrics (d : Analytics.doc) (m : Analytics.Metrics) : Analytics.doc :=
  {| Analytics.docId := Analytics.docId d;
     Analytics.userId := Analytics.userId d;
     Analytics.platform := Analytics.platform d;
     Analytics.mediaId := Analytics.mediaId d;
     Analytics.metrics := m;
     Analytics.performance := Analytics.performance d;
     Analytics.timestamp := Analytics.timestamp d;
     Analytics.isActive := Analytics.isActive d;
     Analytics.createdAt := Analytics.createdAt d |}.

Definition zeroGrowth : Analytics.Performance :=
  {| Analytics.dailyGrowth := 0; Analytics.weeklyGrowth := 0;
     Analytics.monthlyGrowth := 0 |}.

(** [new Analytics({ userId, platform, mediaId, metrics, timestamp, ... })]
    saved at instant [now]: schema defaults for growth and [isActive]. *)
Definition newAnalytics (now : Z) (id : nat) (user plat : string)
    (item : AnalyticsItem) : Analytics.doc :=
  {| Analytics.docId := id;
     Analytics.userId := user;
     Analytics.platform := plat;
     Analytics.mediaId := item_mediaId item;
     Analytics.metrics := item_metrics item;
     Analytics.performance := zeroGrowth;
     Analytics.timestamp := item_timestamp item;
     Analytics.isActive := true;
     Analytics.createdAt := now |}.

Definition freshAnalyticsId (store : Analytics.Store) : nat :=
  S (fold_right Nat.max 0%nat (map Analytics.docId store)).

Section AnalyticsStoring.

Local Open Scope job_scope.

(** Whether the database accepts an analytics document on [save()]. *)
Variable accept : Analytics.doc -> bool.

Definition saveAnalytics (d : Analytics.doc) : Job Analytics.Store unit :=
  fun store =>
    if accept d then (Returned tt, Analytics.save d store)
    else (Thrown "ValidationError", store).

(** [doc.updateMetrics(newMetrics)] *)
Definition updateMetrics (d : Analytics.doc) (m : Analytics.Metrics)
  : Job Analytics.Store Analytics.doc :=
  let d' := setMetrics d m in
  saveAnalytics d' ;;; ret d'.

(** [doc.calculateGrowthRates()] with a save that may be refused. *)
Definition growthRatesJob (this : Analytics.doc)
  : Job Analytics.Store Analytics.doc :=
  fun store =>
    let this' := Analytics.withGrowthRates store this in
    (saveAnalytics this' ;;; ret this') store.

(** The loop of [storeAnalyticsData]. *)
Fixpoint storeEachAnalytics (now : Z) (user plat : string)
    (analyticsData : list AnalyticsItem) (storedAnalytics : list Analytics.doc)
  : Job Analytics.Store (list Analytics.doc) :=
  match analyticsData with
  | [] => ret storedAnalytics
  | data :: rest =>
      store <- getStore ;;
      match findByMediaId store user plat (item_mediaId data) with
      | Some existingAnalytics =>
          updated <- updateMetrics existingAnalytics (item_metrics data) ;;
          final <- growthRatesJob updated ;;
          storeEachAnalytics now user plat rest (storedAnalytics ++ [final])
      | None =>
          let newDoc := newAnalytics now (freshAnalyticsId store) user plat data in
          saveAnalytics newDoc ;;;
          final <- growthRatesJob newDoc ;;
          storeEachAnalytics now user plat rest (storedAnalytics ++ [final])
      end
  end.

(** [storeAnalyticsData(userId, platform, accountId, analyticsData)] *)
Definition storeAnalyticsData (now : Z) (user plat : string)
    (analyticsData : list AnalyticsItem)
  : Job Analytics.Store (list Analytics.doc) :=
  tryCatch (storeEachAnalytics now user plat analyticsData [])
           (fun error => throw error).

End AnalyticsStoring.

(** At most one active document per media, and unique document ids. *)
Definition oneActivePerMedia (store : Analytics.Store) : Prop :=
  NoDup (map Analytics.docId store)
  /\ forall d1 d2,
       In d1 store -> In d2 store ->
       Analytics.isActive d1 = true -> Analytics.isActive d2 = true ->
       Analytics.sameMedia d1 d2 = true -> d1 = d2.

(** The growth buckets of [d'] are those of a document of [before] with
    the same id, or the zero defaults of a new document. *)
Definition growthUntouched (before : Analytics.Store) (d' : Analytics.doc) : Prop :=
  (exists d, In d before /\ Analytics.docId d' = Analytics.docId d
             /\ Analytics.performance d' = Analytics.performance d)
  \/ Analytics.performance d' = zeroGrowth.

(** [d'] is [e] up to its metrics. *)
Definition sameButMetrics (d' e : Analytics.doc) : Prop :=
  Analytics.docId d' = Analytics.docId e
  /\ Analytics.userId d' = Analytics.userId e
  /\ Analytics.platform d' = Analytics.platform e
  /\ Analytics.mediaId d' = Analytics.mediaId e
  /\ Analytics.isActive d' = Analytics.isActive e
  /\ Analytics.performance d' = Analytics.performance e.

(** What every step of [storeAnalyticsData] keeps, relative to the
    collection [before] it started from. *)
Definition syncInv (before store : Analytics.Store) : Prop :=
  oneActivePerMedia store /\ Forall (growthUntouched before) store.

(* ================================================================== *)
(** ** Timers and the registries that hold them *)
(* ================================================================== *)

(** A timer of the runtime (a cron task, an interval), with what it was
    created for and whether it still fires. *)
Record Timer : Type := mkTimer {
  timerId : nat;
  timerSpec : string;
  timerLive : bool
}.

(** A [Map] from names to timers, in insertion order, together with
    every timer the runtime has created. *)
Record Registry : Type := mkRegistry {
  entries : list (string * nat);
  timers : list Timer
}.

Definition emptyRegistry : Registry := {| entries := []; timers := [] |}.

(** [map.get(key)] *)
Definition mapGet (key : string) (m : list (string * nat)) : option nat :=
  match find (fun e => String.eqb (fst e) key) m with
  | Some e => Some (snd e)
  | None => None
  end.

(** [map.set(key, value)]: an existing key keeps its place. *)
Fixpoint mapSet (key : string) (value : nat) (m : list (string * nat))
  : list (string * nat) :=
  match m with
  | [] => [(key, value)]
  | (k, v) :: rest =>
      if String.eqb k key then (k, value) :: rest
      else (k, v) :: mapSet key value rest
  end.

(** [map.delete(key)] *)
Definition mapDelete (key : string) (m : list (string * nat))
  : list (string * nat) :=
  filter (fun e => negb (String.eqb (fst e) key)) m.

(** [task.stop()], [clearInterval(id)] *)
Definition stopTimer (id : nat) (ts : list Timer) : list Timer :=
  map (fun t =>
         if Nat.eqb (timerId t) id
         then {| timerId := timerId t; timerSpec := timerSpec t; timerLive := false |}
         else t)
      ts.

Definition freshTimerId (ts : list Timer) : nat :=
  S (fold_right Nat.max 0%nat (map timerId ts)).

(** A new timer is created and started, and stored under [key]. *)
Definition startTimerAs (key spec : string) (r : Registry) : Registry :=
  let id := freshTimerId (timers r) in
  {| entries := mapSet key id (entries r);
     timers := timers r ++ [ {| timerId := id; timerSpec := spec; timerLive := true |} ] |}.

(** The timer stored under [key], if any, is stopped; the entry stays. *)
Definition stopTimerOf (key : string) (r : Registry) : Registry :=
  match mapGet key (entries r) with
  | Some id => {| entries := entries r; timers := stopTimer id (timers r) |}
  | None => r
  end.

(** Every stored timer is stopped and the map is cleared. *)
Definition stopAllTimers (r : Registry) : Registry :=
  {| entries := [];
     timers := fold_left (fun ts e => stopTimer (snd e) ts) (entries r) (timers r) |}.

(** *** The trend scheduler *)

Record TrendSchedulerState : Type := mkTrendScheduler {
  trendJobs : Registry;
  trendRunning : bool
}.

Definition newTrendScheduler : TrendSchedulerState :=
  {| trendJobs := emptyRegistry; trendRunning := false |}.

(** The registry side of [scheduleJob(name, cronExpression, task)]: a job
    of that name is stopped first, then the new cron task is created,
    started and stored. *)
Definition registerJob (name cronExpression : string) (s : TrendSchedulerState)
  : TrendSchedulerState :=
  {| trendJobs := startTimerAs name cronExpression (stopTimerOf name (trendJobs s));
     trendRunning := trendRunning s |}.

(** [TrendScheduler.start()] *)
Definition trendStart (s : TrendSchedulerState) : TrendSchedulerState :=
  if trendRunning s then s
  else
    let s1 := registerJob "fetchTrends" "0 */2 * * *" s in
    let s2 := registerJob "cleanupTrends" "0 2 * * *" s1 in
    let s3 := registerJob "updateTrendScores" "0 */6 * * *" s2 in
    let s4 := registerJob "fetchNicheTrends" "0 */4 * * *" s3 in
    {| trendJobs := trendJobs s4; trendRunning := true |}.

(** [TrendScheduler.stop()] *)
Definition trendStop (s : TrendSchedulerState) : TrendSchedulerState :=
  if negb (trendRunning s) then s
  else {| trendJobs := stopAllTimers (trendJobs s); trendRunning := false |}.

(** [TrendScheduler.getStatus()]: [isRunning], [activeJobs], [jobCount]. *)
Definition trendStatus (s : TrendSchedulerState) : bool * list string * nat :=
  (trendRunning s, map fst (entries (trendJobs s)),
   List.length (entries (trendJobs s))).

Inductive TrendSchedulerCall : Type :=
| CallStart
| CallStop
| CallScheduleJob (name cronExpression : string).

Definition trendCall (s : TrendSchedulerState) (c : TrendSchedulerCall)
  : TrendSchedulerState :=
  match c with
  | CallStart => trendStart s
  | CallStop => trendStop s
  | CallScheduleJob name cronExpression => registerJob name cronExpression s
  end.

(** *** The analytics scheduler *)

Record AnalyticsSchedulerState : Type := mkAnalyticsScheduler {
  scheduledTasks : Registry;
  analyticsRunning : bool
}.

Definition newAnalyticsScheduler : AnalyticsSchedulerState :=
  {| scheduledTasks := emptyRegistry; analyticsRunning := false |}.

(** [AnalyticsScheduler.start()]: the three tasks are created, started
    and stored, with no look at what the map holds. *)
Definition analyticsStart (s : AnalyticsSchedulerState) : AnalyticsSchedulerState :=
  if analyticsRunning s then s
  else
    let r1 := startTimerAs "sync" "0 */2 * * *" (scheduledTasks s) in
    let r2 := startTimerAs "aggregation" "0 1 * * *" r1 in
    let r3 := startTimerAs "cleanup" "0 2 * * 0" r2 in
    {| scheduledTasks := r3; analyticsRunning := true |}.

(** The [forEach] of [AnalyticsScheduler.stop()] over the entries
    [todo]: [task.stop()], then [task.destroy()].  Whether a task has a
    [destroy] method depends on the release of the cron library
    ([taskHasDestroy]); without it the call throws, and the loop ends
    there. *)
Fixpoint stopAndDestroyEach (taskHasDestroy : bool) (todo : list (string * nat))
    (ts : list Timer) : outcome unit * list Timer :=
  match todo with
  | [] => (Returned tt, ts)
  | (_, id) :: rest =>
      let ts' := stopTimer id ts in
      if taskHasDestroy then stopAndDestroyEach taskHasDestroy rest ts'
      else (Thrown "task.destroy is not a function", ts')
  end.

(** [AnalyticsScheduler.stop()]: unguarded; the map is cleared and the
    flag reset after the loop, inside the [try], so an exception of the
    loop, which the [catch] only logs, leaves both as they were. *)
Definition analyticsStop (taskHasDestroy : bool) (s : AnalyticsSchedulerState)
  : AnalyticsSchedulerState :=
  match stopAndDestroyEach taskHasDestroy (entries (scheduledTasks s))
          (timers (scheduledTasks s)) with
  | (Returned _, ts) =>
      {| scheduledTasks := {| entries := []; timers := ts |};
         analyticsRunning := false |}
  | (Thrown _, ts) =>
      {| scheduledTasks := {| entries := entries (scheduledTasks s); timers := ts |};
         analyticsRunning := analyticsRunning s |}
  end.

(** [AnalyticsScheduler.getStatus()], with the two readings [t1 <= t2]
    of the clock it makes: [isRunning], [activeTasks], [taskCount],
    [lastStarted] ([None] is [null]) and [uptime].  No method ever
    assigns [lastStarted]. *)
Definition analyticsStatus (s : AnalyticsSchedulerState) (t1 t2 : Z)
  : bool * list string * nat * option Z * Z :=
  let lastStarted : option Z := None in
  (analyticsRunning s,
   map fst (entries (scheduledTasks s)),
   List.length (entries (scheduledTasks s)),
   lastStarted,
   if analyticsRunning s
   then t1 - match lastStarted with Some t => t | None => t2 end
   else 0).

(** *** Automatic sync per user *)

(** [stopAutoSync(userId)] on the map of intervals. *)
Definition stopAutoSync (userId : string) (r : Registry) : Registry :=
  match mapGet userId (entries r) with
  | Some id =>
      {| entries := mapDelete userId (entries r);
         timers := stopTimer id (timers r) |}
  | None => r
  end.

(** [startAutoSync(userId, intervalMinutes)] *)
Definition startAutoSync (userId : string) (intervalMinutes : Z) (r : Registry)
  : Registry :=
  startTimerAs userId (showZ (intervalMinutes * 60 * 1000)) (stopAutoSync userId r).

(** [getSyncStatus(userId)]: [isAutoSyncActive], [activeIntervals]. *)
Definition getSyncStatus (userId : string) (r : Registry) : bool * nat :=
  (match mapGet userId (entries r) with Some _ => true | None => false end,
   List.length (entries r)).

Inductive AutoSyncCall : Type :=
| CallStartAutoSync (userId : string) (intervalMinutes : Z)
| CallStopAutoSync (userId : string).

Definition autoSyncCall (r : Registry) (c : AutoSyncCall) : Registry :=
  match c with
  | CallStartAutoSync userId intervalMinutes => startAutoSync userId intervalMinutes r
  | CallStopAutoSync userId => stopAutoSync userId r
  end.

(** What a registry keeps: names and ids are unique, every stored id
    belongs to a timer of the runtime, and a timer fires exactly when it
    is stored. *)
Definition registryOk (r : Registry) : Prop :=
  NoDup (map fst (entries r))
  /\ NoDup (map snd (entries r))
  /\ NoDup (map timerId (timers r))
  /\ (forall id, In id (map snd (entries r)) -> In id (map timerId (timers r)))
  /\ (forall t, In t (timers r) ->
        (timerLive t = true <-> In (timerId t) (map snd (entries r)))).

(** The timers that still fire. *)
Definition liveTimers (r : Registry) : list Timer :=
  filter timerLive (timers r).

Inductive AnalyticsSchedulerCall : Type :=
| CallAnalyticsStart
| CallAnalyticsStop.

Definition analyticsCall (taskHasDestroy : bool) (s : AnalyticsSchedulerState)
    (c : AnalyticsSchedulerCall) : AnalyticsSchedulerState :=
  match c with
  | CallAnalyticsStart => analyticsStart s
  | CallAnalyticsStop => analyticsStop taskHasDestroy s
  end.

(** The analytics scheduler after [start()], and after a [stop()] that
    threw at its first [destroy]. *)
Definition startedAnalytics : AnalyticsSchedulerState :=
  analyticsStart newAnalyticsScheduler.

Definition stuckAnalytics : AnalyticsSchedulerState :=
  analyticsStop false startedAnalytics.

(** The timer stored under [key]. *)
Definition timerOf (key : string) (r : Registry) : option Timer :=
  match mapGet key (entries r) with
  | Some id => find (fun t => Nat.eqb (timerId t) id) (timers r)
  | None => None
  end.

(* ================================================================== *)
(** ** Syncing analytics of connected accounts *)
(* ================================================================== *)

(** An entry of [user.connectedAccounts]; the tokens, their expiry and
    the permissions, which no function modelled here reads, are left
    out. *)
Record ConnectedAccount : Type := mkConnectedAccount {
  acc_platform : string;
  acc_accountId : string;
  acc_username : string;
  acc_isActive : bool
}.

Record UserDoc : Type := mkUserDoc {
  user_id : string;
  user_connectedAccounts : list ConnectedAccount
}.

(** An entry of [syncResults]. *)
Record AccountResult : Type := mkAccountResult {
  res_accountId : string;
  res_success : bool
}.

(** What [syncAnalyticsData] returns: [{ success: false, error }] or
    [{ success: true, data: { totalAccounts, successfulSyncs, failedSyncs,
    results } }]. *)
Inductive SyncResult : Type :=
| SyncFailed (error : string)
| SyncDone (totalAccounts successfulSyncs failedSyncs : nat)
    (results : list AccountResult).

(** The [case] labels of the [switch] of [syncAccountAnalytics]. *)
Definition syncSupported (plat : string) : bool :=
  String.eqb plat "instagram" || String.eqb plat "tiktok"
  || String.eqb plat "youtube".

(** The filter of [syncAnalyticsData] on the connected accounts. *)
Definition accountMatches (plat : string) (accountId : option string)
    (a : ConnectedAccount) : bool :=
  String.eqb (acc_platform a) plat
  && match accountId with
     | Some (String c rest) => String.eqb (acc_accountId a) (String c rest)
     | _ => true
     end.

(** [[...new Set(list)]]: the distinct elements, first occurrences in
    order. *)
Fixpoint distinct (l : list string) : list string :=
  match l with
  | [] => []
  | x :: rest => x :: filter (fun y => negb (String.eqb y x)) (distinct rest)
  end.

Section AnalyticsSync.

Local Open Scope job_scope.

Variable accept : Analytics.doc -> bool.

(** [User.findById(userId)]: the user, [None] when there is none, or a
    failure of the query. *)
Variable findUserById : string -> outcome (option UserDoc).

(** What a platform answers when asked for the analytics of an
    account. *)
Variable fetchAnalytics : string -> ConnectedAccount -> outcome (list AnalyticsItem).

(** [syncAccountAnalytics(userId, platform, account)] *)
Definition syncAccountAnalytics (now : Z) (userId plat : string)
    (account : ConnectedAccount) : Job Analytics.Store AccountResult :=
  tryCatch
    (if syncSupported plat then
       match fetchAnalytics plat account with
       | Returned analyticsData =>
           storeAnalyticsData accept now userId plat analyticsData ;;;
           ret {| res_accountId := acc_accountId account; res_success := true |}
       | Thrown e => throw e
       end
     else throw ("Unsupported platform: " ++ plat))
    (fun error => throw error).

(** The loop of [syncAnalyticsData] over the matching accounts: an
    account whose sync throws is recorded as failed. *)
Fixpoint syncEachAccount (now : Z) (userId plat : string)
    (accounts : list ConnectedAccount) (syncResults : list AccountResult)
    (store : Analytics.Store) : list AccountResult * Analytics.Store :=
  match accounts with
  | [] => (syncResults, store)
  | account :: rest =>
      match syncAccountAnalytics now userId plat account store with
      | (Returned syncResult, store') =>
          syncEachAccount now userId plat rest (syncResults ++ [syncResult]) store'
      | (Thrown _, store') =>
          syncEachAccount now userId plat rest
            (syncResults
             ++ [ {| res_accountId := acc_accountId account;
                     res_success := false |} ])
            store'
      end
  end.

(** [syncAnalyticsData(userId, platform, accountId)] *)
Definition syncAnalyticsData (now : Z) (userId plat : string)
    (accountId : option string) (store : Analytics.Store)
  : SyncResult * Analytics.Store :=
  match findUserById userId with
  | Thrown e => (SyncFailed e, store)
  | Returned None => (SyncFailed "User not found", store)
  | Returned (Some user) =>
      let connectedAccounts :=
        filter (accountMatches plat accountId) (user_connectedAccounts user) in
      match connectedAccounts with
      | [] => (SyncFailed ("No connected " ++ plat ++ " accounts found"), store)
      | _ =>
          let (syncResults, store') :=
            syncEachAccount now userId plat connectedAccounts [] store in
          (SyncDone (List.length connectedAccounts)
             (List.length (filter res_success syncResults))
             (List.length (filter (fun r => negb (res_success r)) syncResults))
             syncResults,
           store')
      end
  end.

(** The loop of [syncAllUserAnalytics] over the platforms of one user:
    the running totals [totalSynced] and [totalErrors]. *)
Fixpoint syncEachPlatform (now : Z) (userId : string) (platforms : list string)
    (totals : nat * nat) (store : Analytics.Store)
  : (nat * nat) * Analytics.Store :=
  match platforms with
  | [] => (totals, store)
  | plat :: rest =>
      match syncAnalyticsData now userId plat None store with
      | (SyncDone _ successfulSyncs _ _, store') =>
          syncEachPlatform now userId rest
            ((fst totals + successfulSyncs)%nat, snd totals) store'
      | (SyncFailed _, store') =>
          syncEachPlatform now userId rest (fst totals, S (snd totals)) store'
      end
  end.

(** The loop of [syncAllUserAnalytics] over the users. *)
Fixpoint syncEachUser (now : Z) (users : list UserDoc) (totals : nat * nat)
    (store : Analytics.Store) : (nat * nat) * Analytics.Store :=
  match users with
  | [] => (totals, store)
  | user :: rest =>
      let platforms := distinct (map acc_platform (user_connectedAccounts user)) in
      let (totals', store') :=
        syncEachPlatform now (user_id user) platforms totals store in
      syncEachUser now rest totals' store'
  end.

(** [syncAllUserAnalytics()], given the users the query returns: what it
    logs ([usersProcessed], [totalSynced], [totalErrors]), or nothing
    when the query failed. *)
Definition syncAllUserAnalytics (now : Z) (users : outcome (list UserDoc))
    (store : Analytics.Store) : option (nat * nat * nat) * Analytics.Store :=
  match users with
  | Returned us =>
      let (totals, store') := syncEachUser now us (0%nat, 0%nat) store in
      (Some (List.length us, fst totals, snd totals), store')
  | Thrown _ => (None, store)
  end.

End AnalyticsSync.

(** The number of connected accounts of the users. *)
Definition accountsOf (users : list UserDoc) : nat :=
  list_sum (map (fun u => List.length (user_connectedAccounts u)) users).

(** What makes every sync of a platform succeed: the platform is
    supported and answers, and the database accepts every document. *)
Definition syncsCleanly (accept : Analytics.doc -> bool)
    (fetchAnalytics : string -> ConnectedAccount -> outcome (list AnalyticsItem))
    (plat : string) : Prop :=
  (forall d, accept d = true)
  /\ (forall a, exists items, fetchAnalytics plat a = Returned items)
  /\ syncSupported plat = true.

(** The accounts of the platforms [ps] of a user. *)
Definition accountsOn (u : UserDoc) (ps : list string) : nat :=
  list_sum (map (fun p => List.length (filter (accountMatches p None)
                                         (user_connectedAccounts u))) ps).

(** The lookup by id finds each of the users the query returned. *)
Definition usersFound (findUserById : string -> outcome (option UserDoc))
    (users : list UserDoc) : Prop :=
  forall u, In u users -> findUserById (user_id u) = Returned (Some u).

(** [User.findById] over a collection of users. *)
Definition findIn (users : list UserDoc) (id : string) : outcome (option UserDoc) :=
  Returned (find (fun u => String.eqb (user_id u) id) users).

(** A user with two instagram accounts and one twitter account, and a
    user with a linkedin account only. *)
Definition creatorUser : UserDoc :=
  {| user_id := "u1";
     user_connectedAccounts :=
       [ {| acc_platform := "instagram"; acc_accountId := "ig-1";
            acc_username := "first"; acc_isActive := true |};
         {| acc_platform := "twitter"; acc_accountId := "tw-1";
            acc_username := "bird"; acc_isActive := true |};
         {| acc_platform := "instagram"; acc_accountId := "ig-2";
            acc_username := "second"; acc_isActive := true |} ] |}.

Definition linkedinUser : UserDoc :=
  {| user_id := "u2";
     user_connectedAccounts :=
       [ {| acc_platform := "linkedin"; acc_accountId := "li-1";
            acc_username := "work"; acc_isActive := true |} ] |}.

(** *** Manual sync of one user *)

(** What [triggerUserSync] returns: the answer of [syncAnalyticsData]
    when a platform is named; else [{ success: true, data: { results,
    totalPlatforms, successfulSyncs } }]; or [{ success: false, error }]. *)
Inductive TriggerResult : Type :=
| TriggerOne (result : SyncResult)
| TriggerAll (results : list (string * SyncResult))
    (totalPlatforms successfulSyncs : nat)
| TriggerFailed (error : string).

(** The [success] property of an answer of [syncAnalyticsData]. *)
Definition syncSuccess (r : SyncResult) : bool :=
  match r with
  | SyncDone _ _ _ _ => true
  | SyncFailed _ => false
  end.

Section ManualSync.

Variable accept : Analytics.doc -> bool.
Variable findUserById : string -> outcome (option UserDoc).
Variable fetchAnalytics : string -> ConnectedAccount -> outcome (list AnalyticsItem).

(** The loop of [triggerUserSync] over the platforms. *)
Fixpoint syncPlatformsOf (now : Z) (userId : string) (platforms : list string)
    (results : list (string * SyncResult)) (store : Analytics.Store)
  : list (string * SyncResult) * Analytics.Store :=
  match platforms with
  | [] => (results, store)
  | p :: rest =>
      let (result, store') :=
        syncAnalyticsData accept findUserById fetchAnalytics now userId p None store in
      syncPlatformsOf now userId rest (results ++ [(p, result)]) store'
  end.

(** [triggerUserSync(userId, platform)] *)
Definition triggerUserSync (now : Z) (userId : string) (platform : option string)
    (store : Analytics.Store) : TriggerResult * Analytics.Store :=
  match platform with
  | Some (String c rest) =>
      let (result, store') :=
        syncAnalyticsData accept findUserById fetchAnalytics now userId
          (String c rest) None store in
      (TriggerOne result, store')
  | _ =>
      match findUserById userId with
      | Thrown e => (TriggerFailed e, store)
      | Returned None => (TriggerFailed "User not found", store)
      | Returned (Some user) =>
          let platforms := distinct (map acc_platform (user_connectedAccounts user)) in
          let (results, store') := syncPlatformsOf now userId platforms [] store in
          (TriggerAll results (List.length platforms)
             (List.length (filter (fun r => syncSuccess (snd r)) results)),
           store')
      end
  end.

End ManualSync.

(* ================================================================== *)
(** ** Connecting and disconnecting accounts *)
(* ================================================================== *)

(** The [accountData] of [addConnectedAccount], without its tokens. *)
Record AccountData : Type := mkAccountData {
  data_accountId : string;
  data_username : string
}.

(** The collection of users. *)
Definition UserStore : Type := list UserDoc.

(** [User.findById(userId)] on the collection. *)
Definition findUser (userId : string) (store : UserStore) : option UserDoc :=
  find (fun u => String.eqb (user_id u) userId) store.

(** What identifies a connected account of a user. *)
Definition accountKey (a : ConnectedAccount) : string * string :=
  (acc_platform a, acc_accountId a).

(** The predicate of both [findIndex] calls. *)
Definition sameAccount (plat accountId : string) (a : ConnectedAccount) : bool :=
  String.eqb (acc_platform a) plat && String.eqb (acc_accountId a) accountId.

(** [array.findIndex(p)]: [None] is [-1]. *)
Fixpoint findIndex {A : Type} (p : A -> bool) (l : list A) : option nat :=
  match l with
  | [] => None
  | x :: rest => if p x then Some 0%nat else option_map S (findIndex p rest)
  end.

(** [array[i] = f(array[i])] for an index of the array (the indices used
    here come from [findIndex]). *)
Fixpoint updateAt {A : Type} (i : nat) (f : A -> A) (l : list A) : list A :=
  match l, i with
  | [], _ => []
  | x :: rest, O => f x :: rest
  | x :: rest, S j => x :: updateAt j f rest
  end.

(** The setters of the connected-account schema, applied when an entry
    is put into [user.connectedAccounts]: [accountId] and [username] are
    declared with [trim: true]. *)
Definition castAccount (a : ConnectedAccount) : ConnectedAccount :=
  {| acc_platform := acc_platform a;
     acc_accountId := trim (acc_accountId a);
     acc_username := trim (acc_username a);
     acc_isActive := acc_isActive a |}.

Definition deactivated (a : ConnectedAccount) : ConnectedAccount :=
  {| acc_platform := acc_platform a;
     acc_accountId := acc_accountId a;
     acc_username := acc_username a;
     acc_isActive := false |}.

Section ConnectedAccountService.

Local Open Scope job_scope.

(** Whether the database accepts a user document on [save()]. *)
Variable userSaveOk : UserDoc -> bool.

(** [user.save()]: the stored document of the same [_id] is replaced. *)
Definition saveUser (u : UserDoc) : Job UserStore unit :=
  fun store =>
    if userSaveOk u
    then (Returned tt,
          map (fun v => if String.eqb (user_id v) (user_id u) then u else v) store)
    else (Thrown "ValidationError", store).

(** [addConnectedAccount(userId, platform, accountData)]: the lookup
    compares the stored ids with the account id as it was passed, the
    array stores the account as the schema casts it, and the call returns
    the account information it built, without the tokens. *)
Definition addConnectedAccount (userId plat : string) (accountData : AccountData)
  : Job UserStore ConnectedAccount :=
  tryCatch
    (store <- getStore ;;
     match findUser userId store with
     | None => throw "User not found"
     | Some user =>
         let existingAccountIndex :=
           findIndex (sameAccount plat (data_accountId accountData))
             (user_connectedAccounts user) in
         let accountInfo :=
           {| acc_platform := plat;
              acc_accountId := data_accountId accountData;
              acc_username := data_username accountData;
              acc_isActive := true |} in
         let connectedAccounts :=
           match existingAccountIndex with
           | Some i =>
               updateAt i (fun _ => castAccount accountInfo)
                 (user_connectedAccounts user)
           | None => user_connectedAccounts user ++ [castAccount accountInfo]
           end in
         saveUser {| user_id := user_id user;
                     user_connectedAccounts := connectedAccounts |} ;;;
         ret accountInfo
     end)
    (fun error => throw error).

(** [getConnectedAccounts(userId, platform)] *)
Definition getConnectedAccounts (userId : string) (platform : option string)
  : Job UserStore (list ConnectedAccount) :=
  tryCatch
    (store <- getStore ;;
     match findUser userId store with
     | None => throw "User not found"
     | Some user =>
         let accounts := filter acc_isActive (user_connectedAccounts user) in
         let accounts :=
           match platform with
           | Some (String c rest) =>
               filter (fun account => String.eqb (acc_platform account) (String c rest))
                 accounts
           | _ => accounts
           end in
         ret accounts
     end)
    (fun error => throw error).

(** [removeConnectedAccount(userId, platform, accountId)] *)
Definition removeConnectedAccount (userId plat accountId : string)
  : Job UserStore unit :=
  tryCatch
    (store <- getStore ;;
     match findUser userId store with
     | None => throw "User not found"
     | Some user =>
         match findIndex (sameAccount plat accountId) (user_connectedAccounts user) with
         | None => throw "Connected account not found"
         | Some accountIndex =>
             saveUser {| user_id := user_id user;
                         user_connectedAccounts :=
                           updateAt accountIndex deactivated
                             (user_connectedAccounts user) |}
         end
     end)
    (fun error => throw error).

End ConnectedAccountService.

(** A call of the account service that writes. *)
Inductive AccountCall : Type :=
| AddAccount (userId plat : string) (accountData : AccountData)
| RemoveAccount (userId plat accountId : string).

Definition accountCall (userSaveOk : UserDoc -> bool) (store : UserStore)
    (c : AccountCall) : UserStore :=
  match c with
  | AddAccount userId plat accountData =>
      storeAfter (addConnectedAccount userSaveOk userId plat accountData store)
  | RemoveAccount userId plat accountId =>
      storeAfter (removeConnectedAccount userSaveOk userId plat accountId store)
  end.

(** User ids are unique, and no user has two accounts of one platform
    with the same account id. *)
Definition usersOk (store : UserStore) : Prop :=
  NoDup (map user_id store)
  /\ forall u, In u store -> NoDup (map accountKey (user_connectedAccounts u)).

(** [u'] is user [u] with the accounts it had, in their places, and
    possibly more after them. *)
Definition accountsKept (u u' : UserDoc) : Prop :=
  user_id u' = user_id u
  /\ exists more,
       map accountKey (user_connectedAccounts u')
       = map accountKey (user_connectedAccounts u) ++ more.

(** One write of the account service to the accounts of a user: an
    entry is replaced by one of the same key, or an entry with a new key
    is appended. *)
Definition accountsStep (l l' : list ConnectedAccount) : Prop :=
  (exists i a f,
      nth_error l i = Some a /\ accountKey (f a) = accountKey a
      /\ l' = updateAt i f l)
  \/ (exists info,
        ~ In (accountKey info) (map accountKey l) /\ l' = l ++ [info]).

(** The account information [addConnectedAccount] builds and returns. *)
Definition accountInfoOf (plat : string) (accountData : AccountData)
  : ConnectedAccount :=
  {| acc_platform := plat;
     acc_accountId := data_accountId accountData;
     acc_username := data_username accountData;
     acc_isActive := true |}.

(** The user document [addConnectedAccount] saves. *)
Definition withAccount (user : UserDoc) (plat : string) (accountData : AccountData)
  : UserDoc :=
  {| user_id := user_id user;
     user_connectedAccounts :=
       match findIndex (sameAccount plat (data_accountId accountData))
               (user_connectedAccounts user) with
       | Some i => updateAt i (fun _ => castAccount (accountInfoOf plat accountData))
                     (user_connectedAccounts user)
       | None =>
           user_connectedAccounts user ++ [castAccount (accountInfoOf plat accountData)]
       end |}.

(** The account id of an [addConnectedAccount] call has no white space
    around it. *)
Definition idTrimmed (c : AccountCall) : Prop :=
  match c with
  | AddAccount _ _ accountData =>
      trim (data_accountId accountData) = data_accountId accountData
  | RemoveAccount _ _ _ => True
  end.

(** The collection after [u] was saved. *)
Definition savedUser (u : UserDoc) (store : UserStore) : UserStore :=
  map (fun v => if String.eqb (user_id v) (user_id u) then u else v) store.

(* ================================================================== *)
(** * Properties *)
(* ================================================================== *)

(** ** Numbers *)

Lemma gtb_ofZ_mono (x y : jsnum) (c : Z) :
  JsNum.leb x y = true ->
  JsNum.gtb x (JsNum.ofZ c) = true ->
  JsNum.gtb y (JsNum.ofZ c) = true.
Proof.
  destruct x as [a | | |], y as [b | | |]; simpl; try discriminate; auto.
  rewrite negb_involutive.
  intros Hab Hac.
  apply negb_true_iff in Hac.
  apply negb_true_iff.
  destruct (Qle_bool b (inject_Z c)) eqn:Hbc; [ | reflexivity ].
  apply Qle_bool_iff in Hab, Hbc.
  assert (Hle : Qle_bool a (inject_Z c) = true)
    by (apply Qle_bool_iff; eapply Qle_trans; eassumption).
  congruence.
Qed.

Lemma optGt_mono (x y : jsnum) (c : Z) :
  JsNum.leb x y = true ->
  optGt (Some x) c = true -> optGt (Some y) c = true.
Proof. unfold optGt. apply gtb_ofZ_mono. Qed.

(** ** The relevance scorer *)

Lemma calculateRelevanceScore_boosts (data : RawTrend) :
  calculateRelevanceScore data =
  50 + boost (metricsField raw_engagementRate (raw_metrics data)) 5 2 20 10
     + boost (metricsField raw_growth (raw_metrics data)) 1000 100 15 10
     + boost (metricsField raw_views (raw_metrics data)) 1000000 100000 15 10.
Proof.
  unfold calculateRelevanceScore, boost.
  destruct (optGt (metricsField raw_engagementRate (raw_metrics data)) 5),
    (optGt (metricsField raw_engagementRate (raw_metrics data)) 2),
    (optGt (metricsField raw_growth (raw_metrics data)) 1000),
    (optGt (metricsField raw_growth (raw_metrics data)) 100),
    (optGt (metricsField raw_views (raw_metrics data)) 1000000),
    (optGt (metricsField raw_views (raw_metrics data)) 100000); lia.
Qed.

Lemma boost_range (x : option jsnum) (high low big small : Z) :
  0 <= small <= big -> 0 <= boost x high low big small <= big.
Proof.
  intros H. unfold boost.
  destruct (optGt x high), (optGt x low); lia.
Qed.

Lemma boost_mono (x y : jsnum) (high low big small : Z) :
  0 <= small <= big ->
  JsNum.leb x y = true ->
  boost (Some x) high low big small <= boost (Some y) high low big small.
Proof.
  intros Hb Hxy. unfold boost.
  destruct (optGt (Some x) high) eqn:Hxh.
  - rewrite (optGt_mono x y high Hxy Hxh). lia.
  - destruct (optGt (Some x) low) eqn:Hxl.
    + rewrite (optGt_mono x y low Hxy Hxl).
      destruct (optGt (Some y) high); lia.
    + destruct (optGt (Some y) high), (optGt (Some y) low); lia.
Qed.

(** C7. For every raw item, whatever its metrics object holds (the object
    or any field may be missing, any number may be zero, infinite or
    [NaN]), [calculateRelevanceScore] returns an integer between 0 and
    100. *)
Theorem calculateRelevanceScore_in_0_100 (data : RawTrend) :
  0 <= calculateRelevanceScore data <= 100.
Proof.
  rewrite calculateRelevanceScore_boosts.
  pose proof (boost_range (metricsField raw_engagementRate (raw_metrics data))
                5 2 20 10 ltac:(lia)).
  pose proof (boost_range (metricsField raw_growth (raw_metrics data))
                1000 100 15 10 ltac:(lia)).
  pose proof (boost_range (metricsField raw_views (raw_metrics data))
                1000000 100000 15 10 ltac:(lia)).
  lia.
Qed.

(** C8. The scorer is monotone in each of [engagementRate], [growth] and
    [views]: raising one of them from [x] to [y] ([x <= y] as numbers),
    every other field of the item and of its metrics being the same,
    does not lower the score. *)
Theorem calculateRelevanceScore_monotone
    (data : RawTrend) (m : RawMetrics) (x y : jsnum) :
  JsNum.leb x y = true ->
  calculateRelevanceScore (withMetrics data (setEngagementRate m x))
    <= calculateRelevanceScore (withMetrics data (setEngagementRate m y))
  /\ calculateRelevanceScore (withMetrics data (setGrowth m x))
    <= calculateRelevanceScore (withMetrics data (setGrowth m y))
  /\ calculateRelevanceScore (withMetrics data (setViews m x))
    <= calculateRelevanceScore (withMetrics data (setViews m y)).
Proof.
  intros Hxy.
  rewrite !calculateRelevanceScore_boosts.
  unfold withMetrics, setEngagementRate, setGrowth, setViews.
  cbn [raw_metrics metricsField raw_engagementRate raw_growth raw_views].
  pose proof (boost_mono x y 5 2 20 10 ltac:(lia) Hxy).
  pose proof (boost_mono x y 1000 100 15 10 ltac:(lia) Hxy).
  pose proof (boost_mono x y 1000000 100000 15 10 ltac:(lia) Hxy).
  repeat split; lia.
Qed.

Lemma calculateRelevanceScore_monotone_witness :
  calculateRelevanceScore
    (withMetrics scenarioItem (setGrowth scenarioMetrics (JsNum.ofZ 50)))
  <= calculateRelevanceScore
    (withMetrics scenarioItem (setGrowth scenarioMetrics (JsNum.ofZ 5000))).
Proof.
  apply (calculateRelevanceScore_monotone scenarioItem scenarioMetrics
           (JsNum.ofZ 50) (JsNum.ofZ 5000)).
  reflexivity.
Defined.

(** ** The engagement rate *)

Lemma truthy_positive (v : Q) : (0 < v)%Q -> JsNum.truthy (JsNum.Fin v) = true.
Proof.
  intros Hv. simpl. apply negb_true_iff.
  destruct (Qeq_bool v 0) eqn:E; [ | reflexivity ].
  apply Qeq_bool_iff in E. rewrite E in Hv.
  exfalso. exact (Qlt_irrefl 0 Hv).
Qed.

Lemma ratio_percent_bounds (total v : Q) :
  (0 < v)%Q -> (0 <= total)%Q -> (total <= v)%Q ->
  (0 <= total / v * 100)%Q /\ (total / v * 100 <= 100)%Q.
Proof.
  intros Hv H0 H1.
  assert (Hlo : (0 <= total / v)%Q).
  { apply Qle_shift_div_l; [ exact Hv | ]. rewrite Qmult_0_l. exact H0. }
  assert (Hhi : (total / v <= 1)%Q).
  { apply Qle_shift_div_r; [ exact Hv | ]. rewrite Qmult_1_l. exact H1. }
  split; lra.
Qed.

(** C10, as stated, fails when the interactions outnumber the views: one
    view and five likes give an engagement rate of 500. *)
Lemma calculateEngagementRate_exceeds_100 :
  JsNum.same (calculateEngagementRate (Some overLikedMetrics)) (JsNum.ofZ 500)
  /\ JsNum.leb (calculateEngagementRate (Some overLikedMetrics)) (JsNum.ofZ 100)
     = false.
Proof. split; vm_compute; reflexivity. Qed.

(** C10, amended. When the metrics object or its [views] is missing, or
    [views] is zero (or [NaN]), the engagement rate is 0 and nothing is
    divided.  Otherwise, for finite values, it is
    [(likes + comments + shares) / views * 100], missing counts taken as
    0, and nothing clamps it.  So it lies between 0 and 100 when [views]
    is positive and [likes], [comments] and [shares] are whole numbers,
    none negative, whose sum is at most [views] and at most [2^53] (up to
    where sums of whole numbers are exact in doubles). *)
Theorem calculateEngagementRate_guarded_and_bounded (m : RawMetrics) :
  calculateEngagementRate None = JsNum.ofZ 0
  /\ (raw_views m = None -> calculateEngagementRate (Some m) = JsNum.ofZ 0)
  /\ (forall v, raw_views m = Some v -> JsNum.truthy v = false ->
        calculateEngagementRate (Some m) = JsNum.ofZ 0)
  /\ (forall v l c s : Q,
        raw_views m = Some (JsNum.Fin v) -> ~ (v == 0)%Q ->
        orNum (raw_likes m) (JsNum.ofZ 0) = JsNum.Fin l ->
        orNum (raw_comments m) (JsNum.ofZ 0) = JsNum.Fin c ->
        orNum (raw_shares m) (JsNum.ofZ 0) = JsNum.Fin s ->
        calculateEngagementRate (Some m)
        = JsNum.Fin ((l + c + s) / v * inject_Z 100))
  /\ (forall (v : Q) (l c s : Z),
        raw_views m = Some (JsNum.Fin v) ->
        orNum (raw_likes m) (JsNum.ofZ 0) = JsNum.ofZ l ->
        orNum (raw_comments m) (JsNum.ofZ 0) = JsNum.ofZ c ->
        orNum (raw_shares m) (JsNum.ofZ 0) = JsNum.ofZ s ->
        (0 < v)%Q -> 0 <= l -> 0 <= c -> 0 <= s ->
        (inject_Z (l + c + s) <= v)%Q -> l + c + s <= 2 ^ 53 ->
        exists r : Q,
          calculateEngagementRate (Some m) = JsNum.Fin r
          /\ (r == inject_Z (l + c + s) / v * inject_Z 100)%Q
          /\ (0 <= r)%Q /\ (r <= 100)%Q).
Proof.
  assert (Hformula : forall v l c s : Q,
             raw_views m = Some (JsNum.Fin v) -> ~ (v == 0)%Q ->
             orNum (raw_likes m) (JsNum.ofZ 0) = JsNum.Fin l ->
             orNum (raw_comments m) (JsNum.ofZ 0) = JsNum.Fin c ->
             orNum (raw_shares m) (JsNum.ofZ 0) = JsNum.Fin s ->
             calculateEngagementRate (Some m)
             = JsNum.Fin ((l + c + s) / v * inject_Z 100)).
  { intros v l c s Hv Hnz Hl Hc Hs. unfold calculateEngagementRate.
    assert (Hq : Qeq_bool v 0 = false).
    { destruct (Qeq_bool v 0) eqn:E; [ | reflexivity ].
      apply Qeq_bool_iff in E. contradiction. }
    rewrite Hv, Hl, Hc, Hs. cbn [JsNum.truthy]. rewrite Hq.
    cbn [negb JsNum.add]. unfold JsNum.div. rewrite Hq. reflexivity. }
  split; [ reflexivity | ].
  split; [ intros Hv; unfold calculateEngagementRate; rewrite Hv; reflexivity | ].
  split.
  { intros v Hv Hf. unfold calculateEngagementRate. rewrite Hv, Hf. reflexivity. }
  split; [ exact Hformula | ].
  intros v l c s Hv Hl Hc Hs Hpos Hl0 Hc0 Hs0 Hsum _.
  exists ((inject_Z l + inject_Z c + inject_Z s) / v * inject_Z 100)%Q.
  assert (Hz : (inject_Z l + inject_Z c + inject_Z s == inject_Z (l + c + s))%Q)
    by (rewrite !inject_Z_plus; reflexivity).
  split.
  { apply Hformula; try assumption. intros E. rewrite E in Hpos.
    exact (Qlt_irrefl 0 Hpos). }
  split; [ rewrite Hz; reflexivity | ].
  rewrite Hz.
  apply (ratio_percent_bounds (inject_Z (l + c + s)) v Hpos); [ | exact Hsum ].
  change 0%Q with (inject_Z 0). rewrite <- Zle_Qle. lia.
Qed.

Lemma calculateEngagementRate_guarded_and_bounded_witness :
  exists r : Q,
    calculateEngagementRate (Some scenarioMetrics) = JsNum.Fin r
    /\ (r == inject_Z (60000 + 3000 + 2000) / inject_Z 1200000 * inject_Z 100)%Q
    /\ (0 <= r)%Q /\ (r <= 100)%Q.
Proof.
  destruct (calculateEngagementRate_guarded_and_bounded scenarioMetrics)
    as [_ [_ [_ [_ H]]]].
  apply (H (inject_Z 1200000) 60000 3000 2000);
    try reflexivity; try lia; unfold Qlt, Qle; simpl; lia.
Defined.

(** ** The normalization scenario *)

(** C2. On the item with [views = 1_200_000], [likes = 60_000],
    [comments = 3_000], [shares = 2_000], [growth = 1_500], normalization
    derives the engagement rate [65000 / 1200000 * 100 = 65/12], which is
    5.42 to two decimals; but it scores the raw item, whose metrics carry
    no [engagementRate], so the engagement boost is not applied and the
    relevance score is [50 + 0 + 15 + 15 = 80], not 100.  Scored on
    metrics that carry the derived rate, the same item gets 100. *)
Theorem normalize_scenario_scores_80
    (toLowerCase : string -> string) (now : Z) (p : Platform) :
  let normalized := normalizeTrendData toLowerCase now p scenarioItem in
  JsNum.same (engagementRate (td_metrics normalized)) (JsNum.Fin (65 # 12))
  /\ ((542 # 100) - (1 # 200) <= (65 # 12))%Q
  /\ ((65 # 12) < (542 # 100) + (1 # 200))%Q
  /\ td_relevanceScore normalized = JsNum.ofZ 80
  /\ calculateRelevanceScore scenarioItem = 80
  /\ calculateRelevanceScore
       (withMetrics scenarioItem
          (setEngagementRate scenarioMetrics
             (calculateEngagementRate (Some scenarioMetrics)))) = 100.
Proof.
  cbv zeta.
  split; [ vm_compute; reflexivity | ].
  split; [ vm_compute; discriminate | ].
  split; [ vm_compute; reflexivity | ].
  split; [ reflexivity | ].
  split; reflexivity.
Qed.

(** ** The niche classifier *)

Lemma startsWith_spec (p s : string) :
  startsWith p s = true <-> exists after : string, s = (p ++ after)%string.
Proof.
  revert s. induction p as [ | a p IH ]; intros s; simpl.
  - split; [ intros _; exists s; reflexivity | reflexivity ].
  - destruct s as [ | b s ].
    + split; [ discriminate | intros [after H]; discriminate ].
    + rewrite andb_true_iff, Ascii.eqb_eq, IH. split.
      * intros [-> [after ->]]. exists after. reflexivity.
      * intros [after H]. injection H as -> ->. split; [ reflexivity | ].
        exists after. reflexivity.
Qed.

Lemma includes_spec (keyword text : string) :
  includes keyword text = true <-> occursIn keyword text.
Proof.
  unfold occursIn. induction text as [ | b text IH ].
  - simpl. rewrite orb_false_r, startsWith_spec. split.
    + intros [after H]. exists EmptyString, after. exact H.
    + intros [before [after H]]. destruct before as [ | c before ].
      * exists after. exact H.
      * discriminate.
  - cbn [includes]. rewrite orb_true_iff, startsWith_spec, IH. split.
    + intros [[after H] | [before [after H]]].
      * exists EmptyString, after. exact H.
      * exists (String b before), after. simpl. rewrite H. reflexivity.
    + intros [before [after H]]. destruct before as [ | c before ].
      * left. exists after. exact H.
      * right. simpl in H. injection H as _ H. exists before, after. exact H.
Qed.

Lemma filter_nil_iff {A : Type} (f : A -> bool) (l : list A) :
  filter f l = [] <-> forall x, In x l -> f x = false.
Proof.
  induction l as [ | a l IH ]; simpl.
  - split; [ intros _ x [] | reflexivity ].
  - destruct (f a) eqn:E.
    + split; [ discriminate | ].
      intros H. specialize (H a (or_introl eq_refl)). congruence.
    + rewrite IH. split.
      * intros H x [<- | Hx]; [ exact E | exact (H x Hx) ].
      * intros H x Hx. apply H. right. exact Hx.
Qed.





(** ** Growth buckets *)

Lemma daysDiff_le (d k : Z) :
  Qle_bool (inject_Z d / inject_Z Analytics.msPerDay) (inject_Z k) = true
  <-> d <= k * Analytics.msPerDay.
Proof.
  rewrite Qle_bool_iff.
  change (inject_Z Analytics.msPerDay) with (86400000 # 1)%Q.
  unfold Qle, Qdiv, Qmult, Qinv. simpl. unfold Analytics.msPerDay. lia.
Qed.

Lemma daysDiff_leb (d k : Z) :
  Qle_bool (inject_Z d / inject_Z Analytics.msPerDay) (inject_Z k)
  = (d <=? k * Analytics.msPerDay).
Proof.
  apply eq_true_iff_eq. rewrite daysDiff_le, Z.leb_le. reflexivity.
Qed.

Lemma latest_spec (l : list Analytics.doc) :
  match Analytics.latest l with
  | Some best =>
      In best l
      /\ forall q, In q l -> Analytics.timestamp q <= Analytics.timestamp best
  | None => l = []
  end.
Proof.
  induction l as [ | d l IH ]; simpl; [ reflexivity | ].
  destruct (Analytics.latest l) as [best | ].
  - destruct IH as [Hin Hmax].
    destruct (Analytics.timestamp d <? Analytics.timestamp best) eqn:E.
    + apply Z.ltb_lt in E. split; [ right; exact Hin | ].
      intros q [<- | Hq]; [ lia | exact (Hmax q Hq) ].
    + apply Z.ltb_ge in E. split; [ left; reflexivity | ].
      intros q [<- | Hq]; [ lia | specialize (Hmax q Hq); lia ].
  - subst l. split; [ left; reflexivity | ].
    intros q [<- | []]. lia.
Qed.

Lemma withGrowthRates_bucket (store : Analytics.Store) (this prior : Analytics.doc) :
  Analytics.findPrevious store this = Some prior ->
  Analytics.timestamp prior < Analytics.timestamp this ->
  bucketAssigned prior this (Analytics.withGrowthRates store this).
Proof.
  intros Hfind Hlt. unfold bucketAssigned, Analytics.withGrowthRates.
  rewrite Hfind. cbv zeta.
  change 1%Q with (inject_Z 1). change 7%Q with (inject_Z 7).
  change 30%Q with (inject_Z 30).
  rewrite !daysDiff_leb.
  destruct (Z.leb_spec (Analytics.timestamp this - Analytics.timestamp prior)
              (1 * Analytics.msPerDay));
  destruct (Z.leb_spec (Analytics.timestamp this - Analytics.timestamp prior)
              (7 * Analytics.msPerDay));
  destruct (Z.leb_spec (Analytics.timestamp this - Analytics.timestamp prior)
              (30 * Analytics.msPerDay));
  repeat split; intros; try reflexivity; exfalso; lia.
Qed.

(** C4, as stated, fails when the only earlier record of the media is
    inactive: the query skips it, and a record taken twelve hours later
    with 500 more views keeps [dailyGrowth = 0]. *)
Lemma inactive_prior_assigns_no_bucket : ~ bucketsFromAnyPrior.
Proof.
  intros claim.
  destruct (claim [mediaRecord 1 100 0 false] (mediaRecord 2 600 (hours 12) true))
    as [prior [Hin [_ [_ [Hdaily _]]]]].
  { exists (mediaRecord 1 100 0 false).
    split; [ left; reflexivity | ]. split; [ reflexivity | reflexivity ]. }
  destruct Hin as [<- | []].
  assert (H : hours 12 - 0 <= Analytics.msPerDay) by (vm_compute; discriminate).
  specialize (Hdaily H). vm_compute in Hdaily. discriminate Hdaily.
Qed.

(** C4, amended. For every analytics record whose media has an earlier
    active record, growth computation diffs the views against the latest
    such record and assigns the delta to exactly one bucket by the
    elapsed time: [dailyGrowth] if at most one day, else [weeklyGrowth] if
    at most seven days, else [monthlyGrowth] if at most thirty days, and
    to none beyond; the other buckets and every other field keep their
    values. *)
Theorem calculateGrowthRates_first_matching_bucket
    (store : Analytics.Store) (this : Analytics.doc) :
  (exists q, In q store /\ priorOf this q /\ Analytics.isActive q = true) ->
  exists prior,
    In prior store /\ priorOf this prior /\ Analytics.isActive prior = true
    /\ (forall q, In q store -> priorOf this q -> Analytics.isActive q = true ->
          Analytics.timestamp q <= Analytics.timestamp prior)
    /\ bucketAssigned prior this (fst (Analytics.calculateGrowthRates store this)).
Proof.
  intros [q [Hq [[Hsame Hearlier] Hact]]].
  pose proof (latest_spec
    (filter (fun d => Analytics.sameMedia d this
                      && (Analytics.timestamp d <? Analytics.timestamp this)
                      && Analytics.isActive d) store)) as Hspec.
  destruct (Analytics.findPrevious store this) as [prior | ] eqn:Hfind;
    unfold Analytics.findPrevious in Hfind; rewrite Hfind in Hspec.
  - destruct Hspec as [Hin Hmax].
    apply filter_In in Hin. destruct Hin as [Hin Hcond].
    apply andb_true_iff in Hcond. destruct Hcond as [Hcond Hpa].
    apply andb_true_iff in Hcond. destruct Hcond as [Hps Hpt].
    apply Z.ltb_lt in Hpt.
    exists prior. split; [ exact Hin | ].
    split; [ split; assumption | ]. split; [ exact Hpa | ].
    split.
    + intros r Hr [Hrs Hrt] Hra. apply Hmax. apply filter_In.
      split; [ exact Hr | ].
      rewrite Hrs, Hra. apply Z.ltb_lt in Hrt. rewrite Hrt. reflexivity.
    + cbn [fst Analytics.calculateGrowthRates].
      apply withGrowthRates_bucket; assumption.
  - exfalso.
    assert (Hmem : In q (filter (fun d => Analytics.sameMedia d this
                      && (Analytics.timestamp d <? Analytics.timestamp this)
                      && Analytics.isActive d) store)).
    { apply filter_In. split; [ exact Hq | ].
      rewrite Hsame, Hact. apply Z.ltb_lt in Hearlier. rewrite Hearlier.
      reflexivity. }
    rewrite Hspec in Hmem. exact Hmem.
Qed.

Lemma calculateGrowthRates_first_matching_bucket_witness :
  exists prior,
    In prior [mediaRecord 1 100 0 true]
    /\ priorOf (mediaRecord 2 600 (hours 96) true) prior
    /\ Analytics.isActive prior = true
    /\ (forall q, In q [mediaRecord 1 100 0 true] ->
          priorOf (mediaRecord 2 600 (hours 96) true) q ->
          Analytics.isActive q = true ->
          Analytics.timestamp q <= Analytics.timestamp prior)
    /\ bucketAssigned prior (mediaRecord 2 600 (hours 96) true)
         (fst (Analytics.calculateGrowthRates [mediaRecord 1 100 0 true]
                 (mediaRecord 2 600 (hours 96) true))).
Proof.
  apply (calculateGrowthRates_first_matching_bucket
           [mediaRecord 1 100 0 true] (mediaRecord 2 600 (hours 96) true)).
  exists (mediaRecord 1 100 0 true).
  split; [ left; reflexivity | ].
  split; [ split; reflexivity | reflexivity ].
Defined.

(** The three gaps of the growth scenario: twelve hours apart only
    [dailyGrowth] is set, four days apart only [weeklyGrowth], forty-five
    days apart nothing. *)
Example growth_buckets_12h_4d_45d :
  let first := mediaRecord 1 100 0 true in
  Analytics.performance
    (fst (Analytics.calculateGrowthRates [first] (mediaRecord 2 600 (hours 12) true)))
  = {| Analytics.dailyGrowth := 500; Analytics.weeklyGrowth := 0;
       Analytics.monthlyGrowth := 0 |}
  /\ Analytics.performance
    (fst (Analytics.calculateGrowthRates [first] (mediaRecord 2 600 (hours 96) true)))
  = {| Analytics.dailyGrowth := 0; Analytics.weeklyGrowth := 500;
       Analytics.monthlyGrowth := 0 |}
  /\ Analytics.performance
    (fst (Analytics.calculateGrowthRates [first]
            (mediaRecord 2 600 (hours (45 * 24)) true)))
  = {| Analytics.dailyGrowth := 0; Analytics.weeklyGrowth := 0;
       Analytics.monthlyGrowth := 0 |}.
Proof. repeat split; vm_compute; reflexivity. Qed.

(** ** Document ids *)

Lemma freshId_above (store : TrendStore) (t : Trend) :
  In t store -> (docId t < freshId store)%nat.
Proof.
  unfold freshId. induction store as [ | d l IH ]; simpl; [ intros [] | ].
  intros [<- | Hin]; [ lia | ]. specialize (IH Hin). lia.
Qed.

Lemma freshId_unused (store : TrendStore) : ~ In (freshId store) (map docId store).
Proof.
  intros H. apply in_map_iff in H. destruct H as [t [Hid Hin]].
  pose proof (freshId_above store t Hin). lia.
Qed.

(** ** Ingestion of the same platform item twice *)

(** C1. The key that [normalizeTrendData] builds ends with the instant of
    normalization, so the lookup of [storeTrends] does not find the record
    of an earlier refresh: the post [abc], ingested at instant 1000 and
    again, with other metrics, at instant 2000, is stored twice, and the
    record of the first ingestion keeps the first metrics. *)
Theorem reingestion_stores_second_record (youtubeApiKey : bool) :
  let refresh now items :=
    fetchAndStoreTrends asciiToLowerCase trendSchemaValid (instagramOnly items)
      youtubeApiKey now None in
  let store1 := storeAfter (refresh 1000 [postFirstSeen] []) in
  let store2 := storeAfter (refresh 2000 [postSeenAgain] store1) in
  map trendId store1 = ["instagram_abc_1000"%string]
  /\ map trendId store2 = ["instagram_abc_1000"; "instagram_abc_2000"]%string
  /\ map (fun t => views (metrics t)) store2 = [JsNum.ofZ 1000; JsNum.ofZ 9000]
  /\ map createdAt store2 = [1000; 2000].
Proof. cbv zeta. destruct youtubeApiKey; repeat split; vm_compute; reflexivity. Qed.

Lemma find_trendId_absent (key : string) (store : TrendStore) :
  ~ In key (map trendId store) ->
  find (fun t => String.eqb (trendId t) key) store = None.
Proof.
  induction store as [ | d l IH ]; simpl; [ reflexivity | ].
  intros H. destruct (String.eqb_spec (trendId d) key) as [E | E].
  - exfalso. apply H. left. exact E.
  - apply IH. intros Hin. apply H. right. exact Hin.
Qed.

Lemma find_app_absent {A : Type} (f : A -> bool) (l1 l2 : list A) :
  find f l1 = None -> find f (l1 ++ l2) = find f l2.
Proof.
  induction l1 as [ | a l1 IH ]; simpl; [ reflexivity | ].
  destruct (f a); [ discriminate | exact IH ].
Qed.

Lemma replaceDoc_last (store : TrendStore) (old doc : Trend) :
  ~ In (docId old) (map docId store) -> docId doc = docId old ->
  replaceDoc doc (store ++ [old]) = store ++ [doc].
Proof.
  intros Hnotin Hid. unfold replaceDoc. rewrite map_app. simpl.
  rewrite Hid, Nat.eqb_refl. f_equal.
  rewrite <- (map_id store) at 2. apply map_ext_in. intros t Ht.
  destruct (Nat.eqb_spec (docId t) (docId old)) as [E | E]; [ | reflexivity ].
  exfalso. apply Hnotin. rewrite <- E. apply in_map. exact Ht.
Qed.

(** What [storeTrends] does when the key does repeat: a trend stored under
    a key the collection did not hold, then a second trend of the same
    [trendId], leave one document for the key; it carries the second
    data, and the id, [isActive], [expiresAt] and [createdAt] of the
    first save. *)
Lemma storeTrends_same_trendId_updates
    (saveOk : Trend -> bool) (now1 now2 : Z) (td1 td2 : TrendData)
    (store : TrendStore) :
  (forall doc, saveOk doc = true) ->
  ~ In (td_trendId td1) (map trendId store) ->
  td_trendId td2 = td_trendId td1 ->
  storeAfter
    (storeTrends saveOk now2 [td2]
       (storeAfter (storeTrends saveOk now1 [td1] store)))
  = store ++ [assignTrendData (newTrend now1 (freshId store) td1) td2].
Proof.
  intros Hok Hnew Hkey.
  assert (H1 : storeAfter (storeTrends saveOk now1 [td1] store)
               = store ++ [newTrend now1 (freshId store) td1]).
  { unfold storeTrends, tryCatch, storeEach, bind, findOneByTrendId, getStore,
      saveNew, ret, storeAfter.
    rewrite (find_trendId_absent _ _ Hnew), Hok. reflexivity. }
  rewrite H1.
  unfold storeTrends, tryCatch, storeEach, bind, findOneByTrendId, getStore,
    saveExisting, ret, storeAfter.
  rewrite Hkey, find_app_absent by (apply find_trendId_absent; exact Hnew).
  cbn [find trendId newTrend]. rewrite String.eqb_refl, Hok. cbn [snd].
  apply replaceDoc_last; [ apply freshId_unused | reflexivity ].
Qed.

(** ** Weekly cleanup *)

(** C5. Of a group of documents of one media, the cleanup keeps the first
    of the [docs] array, which lists the group in scan order: with two
    records of the media stored one after the other, the one created
    first survives and the one created last is deleted. *)
Theorem performWeeklyCleanup_keeps_first_scanned :
  let older := mediaRecord 1 100 (hours 1) true in
  let newer := mediaRecord 2 600 (hours 13) true in
  Analytics.createdAt older < Analytics.createdAt newer
  /\ Analytics.duplicateGroups [older; newer]
     = [(("u1", "instagram", "m1")%string, [1; 2]%nat)]
  /\ Analytics.performWeeklyCleanup (hours 24) [older; newer] = [older].
Proof. cbv zeta. repeat split; vm_compute; reflexivity. Qed.

(** The same for any two retained documents of one media: the one
    scanned first is kept, whatever the creation stamps are. *)
Lemma performWeeklyCleanup_pair (now : Z) (a b : Analytics.doc) :
  Analytics.sameMedia a b = true ->
  Analytics.docId a <> Analytics.docId b ->
  Analytics.isActive a = true -> Analytics.isActive b = true ->
  Analytics.performWeeklyCleanup now [a; b] = [a].
Proof.
  intros Hsame Hids Ha Hb.
  unfold Analytics.performWeeklyCleanup. cbn [filter].
  rewrite Ha, Hb, !andb_false_r. cbn [negb].
  unfold Analytics.duplicateGroups, Analytics.groupDocs.
  cbn [fold_left Analytics.pushGroup].
  assert (Hkey : Analytics.keyEqb (Analytics.keyOf a) (Analytics.keyOf b) = true)
    by exact Hsame.
  rewrite Hkey. cbn [filter snd List.length app Nat.ltb Nat.leb fold_left tl].
  unfold Analytics.deleteByIds. cbn [filter existsb].
  rewrite Nat.eqb_refl. cbn [orb negb].
  destruct (Nat.eqb_spec (Analytics.docId a) (Analytics.docId b));
    [ contradiction | reflexivity ].
Qed.

(** Which record survives depends on the scan order only: were the
    newer record scanned first, it would be the one kept. *)
Example performWeeklyCleanup_follows_scan_order :
  let older := mediaRecord 1 100 (hours 1) true in
  let newer := mediaRecord 2 600 (hours 13) true in
  Analytics.performWeeklyCleanup (hours 24) [newer; older] = [newer].
Proof. vm_compute. reflexivity. Qed.

(** ** Periodic re-scoring *)

Lemma rescore_docId (now : Z) (t : Trend) : docId (fst (rescore now t)) = docId t.
Proof.
  unfold rescore.
  destruct (JsNum.gtb _ _); reflexivity.
Qed.


Lemma leb_not_gtb (a b : jsnum) : JsNum.leb a b = true -> JsNum.gtb a b = false.
Proof.
  destruct a, b; simpl; try discriminate; try reflexivity;
    intros H; apply negb_true_iff in H; exact H.
Qed.



Section Rescoring.

Variable saveOk : Trend -> bool.
Variable now : Z.



End Rescoring.






(** One run of the job an hour after ingestion: the stale score 80 is
    replaced by the recomputed one, the settled score 30 stays. *)
Example rescoring_one_hour_later :
  let store' := storeAfter (updateTrendScores trendSchemaValid oneHour
                              [staleTrend; settledTrend]) in
  resultOf (updateTrendScores trendSchemaValid oneHour [staleTrend; settledTrend])
  = Returned 1%nat
  /\ Forall2 JsNum.same (map relevanceScore store')
       [JsNum.Fin (6239 # 120); JsNum.ofZ 30]
  /\ JsNum.leb (scoreDistance oneHour settledTrend) (JsNum.ofZ 5) = true.
Proof.
  cbv zeta. split; [ vm_compute; reflexivity | ].
  split; [ | vm_compute; reflexivity ].
  repeat constructor; vm_compute; reflexivity.
Qed.

(** ** Failures during a scheduled refresh *)

Lemma docId_injective (store : TrendStore) (x y : Trend) :
  NoDup (map docId store) -> In x store -> In y store ->
  docId x = docId y -> x = y.
Proof.
  induction store as [ | d l IH ]; simpl; [ intros _ [] | ].
  intros Hnd Hx Hy E. inversion Hnd as [ | ? ? Hnotin Hl ]; subst.
  destruct Hx as [-> | Hx], Hy as [-> | Hy]; auto.
  - exfalso. apply Hnotin. rewrite E. apply in_map. exact Hy.
  - exfalso. apply Hnotin. rewrite <- E. apply in_map. exact Hx.
Qed.

Lemma replaceDoc_ids (doc : Trend) (store : TrendStore) :
  map docId (replaceDoc doc store) = map docId store.
Proof.
  unfold replaceDoc. rewrite map_map. apply map_ext. intros t.
  destruct (Nat.eqb_spec (docId t) (docId doc)); congruence.
Qed.


Lemma find_trendId_some (key : string) (store : TrendStore) (t : Trend) :
  find (fun d => String.eqb (trendId d) key) store = Some t ->
  In t store /\ trendId t = key.
Proof.
  intros H. apply find_some in H. destruct H as [Hin Heq].
  apply String.eqb_eq in Heq. split; assumption.
Qed.

Lemma NoDup_snoc {A : Type} (l : list A) (a : A) :
  NoDup l -> ~ In a l -> NoDup (l ++ [a]).
Proof.
  induction l as [ | b l IH ]; simpl; intros Hnd Hnotin.
  - constructor; [ intros [] | constructor ].
  - inversion Hnd as [ | ? ? Hb Hl ]; subst. constructor.
    + intros H. apply in_app_or in H. destruct H as [H | [H | []]].
      * contradiction.
      * apply Hnotin. left. symmetry. exact H.
    + apply IH; [ exact Hl | ]. intros H. apply Hnotin. right. exact H.
Qed.

Lemma storeAfter_rethrow {S A : Type} (c : Job S A) (s : S) :
  storeAfter (tryCatch c (fun error => throw error) s) = storeAfter (c s).
Proof.
  unfold tryCatch, throw, storeAfter. destruct (c s) as [[a | e] s']; reflexivity.
Qed.

Lemma storeTrends_store (saveOk : Trend -> bool) (now : Z)
    (trends : list TrendData) (store : TrendStore) :
  storeAfter (storeTrends saveOk now trends store)
  = storeAfter (storeEach saveOk now trends [] store).
Proof.
  unfold storeTrends, tryCatch, throw, storeAfter.
  destruct (storeEach saveOk now trends [] store) as [[stored | e] store'];
    reflexivity.
Qed.

Lemma find_trendId_none (key : string) (store : TrendStore) :
  find (fun t => String.eqb (trendId t) key) store = None ->
  ~ In key (map trendId store).
Proof.
  intros Hfind Hin. apply in_map_iff in Hin. destruct Hin as [t [Ht Hin]].
  pose proof (find_none _ _ Hfind t Hin) as H. simpl in H.
  rewrite Ht, String.eqb_refl in H. discriminate.
Qed.

(** Any property of the collection that survives an update in place of
    a found document and the insertion of a document under a new key
    survives the loop of [storeTrends], returned or thrown. *)
Lemma storeEach_preserves (saveOk : Trend -> bool) (now : Z)
    (Inv : TrendStore -> Prop) :
  (forall store existing td,
      Inv store -> In existing store -> trendId existing = td_trendId td ->
      Inv (replaceDoc (assignTrendData existing td) store)) ->
  (forall store td,
      Inv store -> ~ In (td_trendId td) (map trendId store) ->
      Inv (store ++ [newTrend now (freshId store) td])) ->
  forall (trends : list TrendData) (acc : list Trend) (store : TrendStore),
    Inv store -> Inv (storeAfter (storeEach saveOk now trends acc store)).
Proof.
  intros Hupd Hnew. induction trends as [ | td rest IH ]; intros acc store HI.
  - exact HI.
  - cbn [storeEach]. unfold bind at 1. unfold findOneByTrendId.
    destruct (find (fun t => String.eqb (trendId t) (td_trendId td)) store)
      as [existing | ] eqn:Hfind.
    + apply find_trendId_some in Hfind. destruct Hfind as [Hin Hkey].
      unfold bind at 1. unfold saveExisting.
      destruct (saveOk (assignTrendData existing td)).
      * apply IH. apply Hupd; assumption.
      * exact HI.
    + apply find_trendId_none in Hfind.
      unfold bind at 1. unfold getStore. unfold bind at 1. unfold saveNew.
      destruct (saveOk (newTrend now (freshId store) td)).
      * apply IH. apply Hnew; assumption.
      * exact HI.
Qed.

Lemma replaceDoc_trendIds (doc old : Trend) (store : TrendStore) :
  NoDup (map docId store) -> In old store ->
  docId doc = docId old -> trendId doc = trendId old ->
  map trendId (replaceDoc doc store) = map trendId store.
Proof.
  intros Hnd Hin Hid Hkey. unfold replaceDoc. rewrite map_map.
  apply map_ext_in. intros x Hx. rewrite Hid.
  destruct (Nat.eqb_spec (docId x) (docId old)) as [E | E]; [ | reflexivity ].
  rewrite (docId_injective store x old Hnd Hx Hin E). exact Hkey.
Qed.





Lemma fetchAndStoreTrends_unfold
    (toLowerCase : string -> string) (saveOk : Trend -> bool)
    (source : Platform -> option string -> outcome (list RawTrend))
    (youtubeApiKey : bool)
    (now : Z) (filter : option string) (store : TrendStore) :
  fetchAndStoreTrends toLowerCase saveOk source youtubeApiKey now filter store
  = storeTrends saveOk now
      (fulfilled (fetchPlatformTrends toLowerCase source youtubeApiKey now instagram filter)
       ++ fulfilled (fetchPlatformTrends toLowerCase source youtubeApiKey now tiktok filter)
       ++ fulfilled (fetchPlatformTrends toLowerCase source youtubeApiKey now youtube filter))
      store.
Proof.
  unfold fetchAndStoreTrends, tryCatch, bind, ret, throw. cbv zeta.
  destruct (storeTrends saveOk now _ store) as [[stored | e] store']; reflexivity.
Qed.

Section Refresh.

Variable toLowerCase : string -> string.
Variable saveOk : Trend -> bool.
Variable source : Platform -> option string -> outcome (list RawTrend).
Variable youtubeApiKey : bool.







End Refresh.




(** The niche job against [flakyPlatforms] and the validation of the
    schema: instagram is down for every niche; the refresh of the first
    niche, fitness, throws because tiktok reports an item without a title;
    the job goes on, finds nothing for beauty and stores the cooking
    lesson that tiktok reports for food. *)
Example niche_job_goes_on_after_a_failure :
  resultOf (fetchAndStoreTrends asciiToLowerCase trendSchemaValid flakyPlatforms true
              1000 (Some "fitness"%string) [])
  = Thrown storeFailure
  /\ map trendId
       (storeAfter
          (fetchNicheTrends asciiToLowerCase trendSchemaValid flakyPlatforms true
             1000 []))
     = ["tiktok_item_3000"%string].
Proof. split; vm_compute; reflexivity. Qed.

(** With an API key the YouTube fetcher drops what does not match the
    niche: asked for travel, it stores nothing of a cooking lesson that
    the API reports; without a key the lesson is stored, as it is with a
    key when food is asked for. *)
Example youtube_fetcher_filters_by_niche :
  let lessons : Platform -> option string -> outcome (list RawTrend) :=
    onlyPlatform (fun _ _ => Returned [cookingLesson]) youtube in
  map trendId
    (storeAfter
       (fetchAndStoreTrends asciiToLowerCase acceptAll lessons true 1000
          (Some "travel"%string) []))
  = []
  /\ map trendId
       (storeAfter
          (fetchAndStoreTrends asciiToLowerCase acceptAll lessons false 1000
             (Some "travel"%string) []))
     = ["youtube_item_1000"%string]
  /\ map trendId
       (storeAfter
          (fetchAndStoreTrends asciiToLowerCase acceptAll lessons true 1000
             (Some "food"%string) []))
     = ["youtube_item_1000"%string].
Proof. cbv zeta. repeat split; vm_compute; reflexivity. Qed.

(* ================================================================== *)
(** * Further properties *)
(* ================================================================== *)

(** ** The time-decayed trend score *)

Lemma jsmax_fin (a b : Q) :
  JsNum.max (JsNum.Fin a) (JsNum.Fin b) = JsNum.Fin (if Qle_bool a b then b else a).
Proof. unfold JsNum.max, JsNum.gtb. destruct (Qle_bool a b); reflexivity. Qed.

Lemma jsmin_fin (a b : Q) :
  JsNum.min (JsNum.Fin a) (JsNum.Fin b) = JsNum.Fin (if Qle_bool a b then a else b).
Proof. unfold JsNum.min, JsNum.gtb. destruct (Qle_bool a b); reflexivity. Qed.

Lemma jsdiv_ofZ (a : Q) (z : Z) :
  z <> 0 -> JsNum.div (JsNum.Fin a) (JsNum.ofZ z) = JsNum.Fin (a / inject_Z z).
Proof.
  intros Hz. unfold JsNum.div, JsNum.ofZ.
  destruct (Qeq_bool (inject_Z z) 0) eqn:E; [ | reflexivity ].
  apply Qeq_bool_iff in E. unfold Qeq in E. simpl in E. lia.
Qed.

(** The trend score of a document with finite metrics, term by term. *)
Lemma calculateTrendScore_fin (now : Z) (t : Trend) (e g : Q) :
  engagementRate (metrics t) = JsNum.Fin e ->
  growth (metrics t) = JsNum.Fin g ->
  calculateTrendScore now t
  = JsNum.Fin (recencyPart now t * (3 # 10)
               + cappedAt100 (e * inject_Z 10) * (4 # 10)
               + cappedAt100 (g / inject_Z 1000) * (3 # 10)).
Proof.
  intros He Hg. unfold calculateTrendScore. rewrite He, Hg. cbv zeta.
  change (JsNum.div (JsNum.ofZ (now - createdAt t)) (JsNum.ofZ (1000 * 60 * 60)))
    with (JsNum.Fin (inject_Z (now - createdAt t) / inject_Z (1000 * 60 * 60))).
  rewrite !jsdiv_ofZ by lia.
  change (JsNum.mul (JsNum.Fin ?a) (JsNum.ofZ ?z))
    with (JsNum.Fin (a * inject_Z z)).
  change (JsNum.sub (JsNum.ofZ 100) (JsNum.Fin ?x))
    with (JsNum.Fin (inject_Z 100 + - x)).
  unfold JsNum.ofZ. rewrite jsmax_fin, !jsmin_fin.
  reflexivity.
Qed.

Lemma cappedAt100_bounds (x : Q) :
  (0 <= x)%Q -> (0 <= cappedAt100 x)%Q /\ (cappedAt100 x <= 100)%Q.
Proof.
  intros Hx. unfold cappedAt100.
  destruct (Qle_bool (inject_Z 100) x) eqn:E.
  - split; [ unfold Qle; simpl; lia | apply Qle_refl ].
  - split; [ exact Hx | ].
    destruct (Qlt_le_dec x (inject_Z 100)) as [H | H].
    + apply Qlt_le_weak. exact H.
    + apply Qle_bool_iff in H. congruence.
Qed.

Lemma ageInDays_scaled (a : Z) :
  (inject_Z a / inject_Z (1000 * 60 * 60) / inject_Z 24 * inject_Z 10
   == inject_Z a * (1 # 8640000))%Q.
Proof.
  change (inject_Z (1000 * 60 * 60)) with (3600000 # 1)%Q.
  change (inject_Z 24) with (24 # 1)%Q. change (inject_Z 10) with (10 # 1)%Q.
  field.
Qed.

Lemma recencyPart_bounds (now : Z) (t : Trend) :
  createdAt t <= now ->
  (0 <= recencyPart now t)%Q /\ (recencyPart now t <= 100)%Q.
Proof.
  intros Hage. unfold recencyPart. cbv zeta.
  match goal with |- context [Qle_bool ?a ?y] => destruct (Qle_bool a y) eqn:E end.
  - apply Qle_bool_iff in E. split; [ exact E | ].
    rewrite ageInDays_scaled.
    assert (H : (0 <= inject_Z (now - createdAt t))%Q)
      by (change 0%Q with (inject_Z 0); rewrite <- Zle_Qle; lia).
    lra.
  - split; unfold Qle; simpl; lia.
Qed.

Lemma recencyPart_decreasing (now1 now2 : Z) (t : Trend) :
  now1 <= now2 -> (recencyPart now2 t <= recencyPart now1 t)%Q.
Proof.
  intros Hle. unfold recencyPart. cbv zeta.
  assert (H : (inject_Z (now1 - createdAt t) <= inject_Z (now2 - createdAt t))%Q)
    by (rewrite <- Zle_Qle; lia).
  pose proof (ageInDays_scaled (now1 - createdAt t)) as E1.
  pose proof (ageInDays_scaled (now2 - createdAt t)) as E2.
  repeat match goal with
         | |- context [Qle_bool ?a ?y] =>
             let E := fresh "B" in destruct (Qle_bool a y) eqn:E
         end;
    try (apply Qle_bool_iff in B); try (apply Qle_bool_iff in B0);
    change (inject_Z 100) with 100%Q in *; change (inject_Z 0) with 0%Q in *;
    try lra.
  exfalso.
  assert (Hy : Qle_bool 0 (100 + - (inject_Z (now1 - createdAt t)
                  / inject_Z (1000 * 60 * 60) / inject_Z 24 * inject_Z 10)) = true)
    by (apply Qle_bool_iff; lra).
  congruence.
Qed.

Lemma recencyPart_after_ten_days (now : Z) (t : Trend) :
  tenDays <= now - createdAt t -> (recencyPart now t == 0)%Q.
Proof.
  intros Hage. unfold recencyPart. cbv zeta.
  pose proof (ageInDays_scaled (now - createdAt t)) as E.
  assert (H : (inject_Z tenDays <= inject_Z (now - createdAt t))%Q)
    by (rewrite <- Zle_Qle; exact Hage).
  change (inject_Z tenDays) with (864000000 # 1)%Q in H.
  match goal with
  | |- context [Qle_bool ?a ?y] => destruct (Qle_bool a y) eqn:B
  end; [ | reflexivity ].
  apply Qle_bool_iff in B.
  change (inject_Z 100) with 100%Q in *; change (inject_Z 0) with 0%Q in *.
  lra.
Qed.

(** X1. A document created no later than [now], with a finite non-negative
    engagement rate and growth, gets a trend score between 0 and 100: a
    score the schema of [relevanceScore] accepts. *)
Theorem calculateTrendScore_in_0_100 (now : Z) (t : Trend) (e g : Q) :
  createdAt t <= now ->
  engagementRate (metrics t) = JsNum.Fin e -> (0 <= e)%Q ->
  growth (metrics t) = JsNum.Fin g -> (0 <= g)%Q ->
  JsNum.leb (JsNum.ofZ 0) (calculateTrendScore now t) = true
  /\ JsNum.leb (calculateTrendScore now t) (JsNum.ofZ 100) = true.
Proof.
  intros Hage He He0 Hg Hg0.
  rewrite (calculateTrendScore_fin now t e g He Hg).
  destruct (recencyPart_bounds now t Hage) as [Hr0 Hr1].
  destruct (cappedAt100_bounds (e * inject_Z 10)) as [Ha0 Ha1].
  { change (inject_Z 10) with 10%Q. lra. }
  destruct (cappedAt100_bounds (g / inject_Z 1000)) as [Hb0 Hb1].
  { apply Qle_shift_div_l; [ reflexivity | lra ]. }
  unfold JsNum.leb, JsNum.gtb, JsNum.ofZ. rewrite !negb_involutive.
  change (inject_Z 100) with 100%Q; change (inject_Z 0) with 0%Q.
  split; apply Qle_bool_iff; lra.
Qed.

Lemma calculateTrendScore_in_0_100_witness :
  JsNum.leb (JsNum.ofZ 0) (calculateTrendScore oneHour staleTrend) = true
  /\ JsNum.leb (calculateTrendScore oneHour staleTrend) (JsNum.ofZ 100) = true.
Proof.
  refine (calculateTrendScore_in_0_100 oneHour staleTrend _ _ _ eq_refl _ eq_refl _);
    vm_compute; discriminate.
Defined.

(** X2. The trend score of a document with finite metrics never rises as time
    passes, and from ten days after creation on the recency term is gone:
    the score is 0.4 times the capped engagement term plus 0.3 times the
    capped growth term. *)
Theorem calculateTrendScore_decays (now1 now2 : Z) (t : Trend) (e g : Q) :
  engagementRate (metrics t) = JsNum.Fin e ->
  growth (metrics t) = JsNum.Fin g ->
  now1 <= now2 ->
  JsNum.leb (calculateTrendScore now2 t) (calculateTrendScore now1 t) = true
  /\ (tenDays <= now2 - createdAt t ->
      JsNum.same (calculateTrendScore now2 t)
        (JsNum.Fin (cappedAt100 (e * inject_Z 10) * (4 # 10)
                    + cappedAt100 (g / inject_Z 1000) * (3 # 10)))).
Proof.
  intros He Hg Hle.
  rewrite !(calculateTrendScore_fin _ t e g He Hg).
  split.
  - pose proof (recencyPart_decreasing now1 now2 t Hle).
    unfold JsNum.leb, JsNum.gtb. rewrite negb_involutive.
    apply Qle_bool_iff. lra.
  - intros Hold. pose proof (recencyPart_after_ten_days now2 t Hold) as H.
    unfold JsNum.same. rewrite H. ring.
Qed.

Lemma calculateTrendScore_decays_witness :
  JsNum.leb (calculateTrendScore (tenDays + oneHour) staleTrend)
            (calculateTrendScore oneHour staleTrend) = true.
Proof.
  refine (proj1 (calculateTrendScore_decays oneHour (tenDays + oneHour) staleTrend
                   _ _ eq_refl eq_refl _)).
  vm_compute. discriminate.
Defined.

(** ** Invariants of the trend collection *)

Lemma replaceDoc_Forall (P : Trend -> Prop) (doc : Trend) (store : TrendStore) :
  P doc -> Forall P store -> Forall P (replaceDoc doc store).
Proof.
  intros Hdoc Hall. unfold replaceDoc. apply Forall_map.
  apply Forall_impl with (P := P); [ | exact Hall ].
  intros x Hx. destruct (Nat.eqb (docId x) (docId doc)); assumption.
Qed.

Lemma storeEach_keeps_trendStoreOk (saveOk : Trend -> bool) (now : Z)
    (trends : list TrendData) (acc : list Trend) (store : TrendStore) :
  trendStoreOk store ->
  trendStoreOk (storeAfter (storeEach saveOk now trends acc store)).
Proof.
  revert trends acc store. apply (storeEach_preserves saveOk now trendStoreOk).
  - intros s existing td [Hids [Hkeys Hall]] Hin Hkey.
    split; [ rewrite replaceDoc_ids; exact Hids | ]. split.
    + rewrite (replaceDoc_trendIds _ existing); auto.
    + apply replaceDoc_Forall; [ | exact Hall ].
      rewrite Forall_forall in Hall. exact (Hall existing Hin).
  - intros s td [Hids [Hkeys Hall]] Hnew.
    split;
      [ rewrite map_app; apply NoDup_snoc; [ exact Hids | apply freshId_unused ] | ].
    split; [ rewrite map_app; apply NoDup_snoc; [ exact Hkeys | exact Hnew ] | ].
    apply Forall_app. split; [ exact Hall | ].
    constructor; [ | constructor ]. split; reflexivity.
Qed.

Lemma Forall2_map_right {A : Type} (R : A -> A -> Prop) (f : A -> A)
    (l l' : list A) :
  Forall2 R l l' ->
  (forall a b, In a l -> R a b -> R a (f b)) ->
  Forall2 R l (map f l').
Proof.
  intros H. induction H as [ | a b l l' Hab Hrest IH ]; intros Hf; simpl.
  - constructor.
  - constructor; [ apply Hf; [ left; reflexivity | exact Hab ] | ].
    apply IH. intros x y Hx. apply Hf. right. exact Hx.
Qed.

Lemma keptOrRescored_docId (now : Z) (t t' : Trend) :
  keptOrRescored now t t' -> docId t' = docId t.
Proof. intros [-> | [_ ->]]; [ reflexivity | apply rescore_docId ]. Qed.

(** The re-scoring loop, whatever saves are refused, leaves every
    document as it was or re-scored. *)
Lemma rescoreEach_keptOrRescored (saveOk : Trend -> bool) (now : Z)
    (store0 : TrendStore) :
  NoDup (map docId store0) ->
  forall (seen : list Trend) (count : nat) (store : TrendStore),
    (forall t, In t seen -> In t store0 /\ activeUnexpired now t = true) ->
    Forall2 (keptOrRescored now) store0 store ->
    Forall2 (keptOrRescored now) store0
      (storeAfter (rescoreEach saveOk now seen count store)).
Proof.
  intros Hnd. induction seen as [ | d seen IH ]; intros count store Hseen HR.
  - exact HR.
  - cbn [rescoreEach].
    destruct (rescore now d) as [d' changed] eqn:Hd.
    assert (Hseen' : forall t, In t seen ->
                               In t store0 /\ activeUnexpired now t = true)
      by (intros t Ht; apply Hseen; right; exact Ht).
    destruct changed; [ | apply IH; assumption ].
    unfold bind at 1. unfold saveExisting.
    destruct (saveOk d'); [ | exact HR ].
    apply IH; [ exact Hseen' | ].
    unfold replaceDoc. apply Forall2_map_right; [ exact HR | ].
    intros a b Ha Hab.
    destruct (Nat.eqb_spec (docId b) (docId d')) as [E | E]; [ | exact Hab ].
    destruct (Hseen d (or_introl eq_refl)) as [Hd0 Hsel].
    assert (a = d).
    { apply (docId_injective store0); auto.
      rewrite <- (keptOrRescored_docId now a b Hab), E.
      rewrite <- (rescore_docId now d), Hd. reflexivity. }
    subst a. right. split; [ exact Hsel | ]. rewrite Hd. reflexivity.
Qed.

Lemma Forall2_refl_on {A : Type} (R : A -> A -> Prop) (l : list A) :
  (forall a, R a a) -> Forall2 R l l.
Proof. intros H. induction l; constructor; auto. Qed.

Lemma updateTrendScores_keptOrRescored
    (saveOk : Trend -> bool) (now : Z) (store : TrendStore) :
  NoDup (map docId store) ->
  Forall2 (keptOrRescored now) store
    (storeAfter (updateTrendScores saveOk now store)).
Proof.
  intros Hnd.
  assert (H : storeAfter (updateTrendScores saveOk now store)
              = storeAfter (rescoreEach saveOk now
                              (filter (activeUnexpired now) store) 0%nat store)).
  { unfold updateTrendScores, tryCatch, bind, getStore, throw, storeAfter.
    destruct (rescoreEach saveOk now _ 0%nat store) as [[n | e] s]; reflexivity. }
  rewrite H. apply rescoreEach_keptOrRescored; [ exact Hnd | | ].
  - intros t Ht. apply filter_In in Ht. exact Ht.
  - apply Forall2_refl_on. intros a. left. reflexivity.
Qed.



Lemma storeAfter_bind_ret {S A : Type} (c : Job S A) (s : S) :
  storeAfter (bind c (fun a => ret a) s) = storeAfter (c s).
Proof.
  unfold bind, ret, storeAfter. destruct (c s) as [[a | e] s']; reflexivity.
Qed.

Lemma storeAfter_scheduleJob {A : Type} (task : Job TrendStore A) (s : TrendStore) :
  storeAfter (scheduleJob task s) = storeAfter (task s).
Proof.
  unfold scheduleJob, tryCatch, bind, ret, storeAfter.
  destruct (task s) as [[a | e] s']; reflexivity.
Qed.

Section TrendStoreInvariant.

Variable toLowerCase : string -> string.
Variable saveOk : Trend -> bool.

Lemma storeTrends_keeps_trendStoreOk (now : Z) (trends : list TrendData)
    (store : TrendStore) :
  trendStoreOk store -> trendStoreOk (storeAfter (storeTrends saveOk now trends store)).
Proof.
  rewrite storeTrends_store. apply storeEach_keeps_trendStoreOk.
Qed.

Lemma fetchAndStoreTrends_keeps_trendStoreOk
    (source : Platform -> option string -> outcome (list RawTrend))
    (youtubeApiKey : bool)
    (now : Z) (filter : option string) (store : TrendStore) :
  trendStoreOk store ->
  trendStoreOk
    (storeAfter (fetchAndStoreTrends toLowerCase saveOk source youtubeApiKey now filter store)).
Proof.
  rewrite fetchAndStoreTrends_unfold. apply storeTrends_keeps_trendStoreOk.
Qed.

Lemma fetchEachNiche_keeps_trendStoreOk
    (source : Platform -> option string -> outcome (list RawTrend))
    (youtubeApiKey : bool)
    (niches : list string) :
  forall (now : Z) (acc : list Trend) (store : TrendStore),
    trendStoreOk store ->
    trendStoreOk
      (storeAfter (fetchEachNiche toLowerCase saveOk source youtubeApiKey now niches acc store)).
Proof.
  induction niches as [ | n rest IH ]; intros now acc store Hok; [ exact Hok | ].
  cbn [fetchEachNiche].
  pose proof (fetchAndStoreTrends_keeps_trendStoreOk source youtubeApiKey now (Some n) store Hok)
    as Hstep.
  destruct (fetchAndStoreTrends toLowerCase saveOk source youtubeApiKey now (Some n) store)
    as [[nicheTrends | e] store1]; apply IH; exact Hstep.
Qed.

Lemma keptOrRescored_fields (now : Z) (t t' : Trend) :
  keptOrRescored now t t' ->
  docId t' = docId t /\ trendId t' = trendId t /\ isActive t' = isActive t
  /\ expiresAt t' = expiresAt t /\ createdAt t' = createdAt t.
Proof.
  intros [-> | [_ ->]]; [ repeat split | ].
  unfold rescore. destruct (JsNum.gtb _ _); repeat split.
Qed.

Lemma Forall2_map_eq {A B : Type} (R : A -> A -> Prop) (f : A -> B)
    (l l' : list A) :
  Forall2 R l l' -> (forall a b, R a b -> f b = f a) -> map f l' = map f l.
Proof.
  intros H Hf. induction H as [ | a b l l' Hab _ IH ]; simpl;
    [ reflexivity | ].
  rewrite (Hf a b Hab), IH. reflexivity.
Qed.

Lemma updateTrendScores_keeps_trendStoreOk (now : Z) (store : TrendStore) :
  trendStoreOk store ->
  trendStoreOk (storeAfter (updateTrendScores saveOk now store)).
Proof.
  intros [Hids [Hkeys Hall]].
  pose proof (updateTrendScores_keptOrRescored saveOk now store Hids) as HR.
  split; [ | split ].
  - rewrite (Forall2_map_eq _ docId _ _ HR); [ exact Hids | ].
    intros a b Hab. apply (keptOrRescored_fields now a b Hab).
  - rewrite (Forall2_map_eq _ trendId _ _ HR); [ exact Hkeys | ].
    intros a b Hab. apply (keptOrRescored_fields now a b Hab).
  - clear Hids Hkeys. induction HR as [ | a b l l' Hab _ IH ]; [ constructor | ].
    inversion Hall as [ | ? ? Ha Hl ]; subst.
    constructor; [ | apply IH; exact Hl ].
    destruct (keptOrRescored_fields now a b Hab) as [_ [_ [H1 [H2 H3]]]].
    destruct Ha as [Hact Hexp]. split; congruence.
Qed.

Lemma cleanupExpiredTrends_store (now : Z) (store : TrendStore) :
  storeAfter (cleanupExpiredTrends now None store)
  = filter (fun t => negb (expiredOrStale now t)) store.
Proof. reflexivity. Qed.

Lemma cleanupExpiredTrends_refused (now : Z) (error : string) (store : TrendStore) :
  cleanupExpiredTrends now (Some error) store = (Thrown error, store).
Proof. reflexivity. Qed.

Lemma filtered_keys_NoDup {K D : Type} (key : D -> K) (keep : D -> bool)
    (docs : list D) (Hnd : NoDup (map key docs)) :
  NoDup (map key (filter keep docs)).
Proof.
  induction docs as [ | d docs IH ]; [ constructor | ].
  inversion Hnd as [ | ? ? Hnotin Hrest ]; subst.
  cbn [filter]. destruct (keep d); [ | exact (IH Hrest) ].
  cbn [map]. constructor; [ | exact (IH Hrest) ].
  intros Hin. apply Hnotin.
  apply in_map_iff in Hin. destruct Hin as [y [Hy Hyin]].
  apply filter_In in Hyin. rewrite <- Hy. apply in_map. exact (proj1 Hyin).
Qed.

Lemma cleanupExpiredTrends_keeps_trendStoreOk (now : Z) (refusal : option string)
    (store : TrendStore) :
  trendStoreOk store ->
  trendStoreOk (storeAfter (cleanupExpiredTrends now refusal store)).
Proof.
  intros Hok. destruct refusal as [error | ];
    [ rewrite cleanupExpiredTrends_refused; exact Hok | ].
  destruct Hok as [Hids [Hkeys Hall]]. rewrite cleanupExpiredTrends_store.
  split; [ apply filtered_keys_NoDup; exact Hids | ].
  split; [ apply filtered_keys_NoDup; exact Hkeys | ].
  apply Forall_forall. intros t Ht. apply filter_In in Ht.
  rewrite Forall_forall in Hall. apply Hall. exact (proj1 Ht).
Qed.

Lemma triggerTrendFetch_keeps_trendStoreOk
    (source : Platform -> option string -> outcome (list RawTrend))
    (youtubeApiKey : bool)
    (now : Z) (platformArg filter : option string) (store : TrendStore) :
  trendStoreOk store ->
  trendStoreOk
    (storeAfter
       (triggerTrendFetch toLowerCase saveOk source youtubeApiKey now platformArg filter store)).
Proof.
  intros Hok. unfold triggerTrendFetch. rewrite storeAfter_rethrow.
  destruct platformArg as [[ | c rest] | ];
    try (rewrite storeAfter_bind_ret;
         apply fetchAndStoreTrends_keeps_trendStoreOk; exact Hok).
  destruct (platformOfName (toLowerCase (String c rest))) as [p | ];
    [ | exact Hok ].
  destruct (fetchPlatformTrends toLowerCase source youtubeApiKey now p filter) as [trends | e];
    [ | exact Hok ].
  rewrite storeAfter_bind_ret. apply storeTrends_keeps_trendStoreOk. exact Hok.
Qed.

Lemma runTrendJob_keeps_trendStoreOk (job : TrendJob) (store : TrendStore) :
  trendStoreOk store -> trendStoreOk (runTrendJob toLowerCase saveOk job store).
Proof.
  intros Hok. destruct job; cbn [runTrendJob];
    rewrite ?storeAfter_scheduleJob.
  - unfold fetchAllTrends. rewrite storeAfter_rethrow, storeAfter_bind_ret.
    apply fetchAndStoreTrends_keeps_trendStoreOk. exact Hok.
  - unfold fetchNicheTrends. rewrite storeAfter_rethrow.
    apply fetchEachNiche_keeps_trendStoreOk. exact Hok.
  - apply updateTrendScores_keeps_trendStoreOk. exact Hok.
  - apply cleanupExpiredTrends_keeps_trendStoreOk. exact Hok.
  - apply triggerTrendFetch_keeps_trendStoreOk. exact Hok.
Qed.

Lemma runTrendJobs_keeps_trendStoreOk (jobs : list TrendJob) :
  forall store, trendStoreOk store ->
                trendStoreOk (runTrendJobs toLowerCase saveOk jobs store).
Proof.
  induction jobs as [ | job rest IH ]; intros store Hok; [ exact Hok | ].
  apply IH. apply runTrendJob_keeps_trendStoreOk. exact Hok.
Qed.

End TrendStoreInvariant.

Lemma freshlyExpiring_lifetime (now : Z) (t : Trend) :
  freshlyExpiring t -> expiredOrStale now t = (createdAt t + sevenDays <? now).
Proof.
  intros [Hact Hexp]. unfold expiredOrStale. rewrite Hact, Hexp. cbn [negb].
  rewrite orb_false_r.
  destruct (Z.ltb_spec (createdAt t + sevenDays) now) as [H | H];
    [ reflexivity | ].
  cbn [orb]. apply Z.ltb_ge. unfold fourteenDays, sevenDays in *. lia.
Qed.

(** X4. Starting from an empty collection, after any sequence of runs of the
    four scheduled jobs and of the manual trigger, whatever the platforms
    answer and whatever saves the database refuses: no two documents share
    an id or a [trendId], every document is active and expires seven days
    after its creation; so the cleanup deletes a document exactly when it
    is more than seven days old, and its [isActive] and fourteen-day
    clauses never decide. *)
Theorem trend_jobs_keep_collection_consistent
    (toLowerCase : string -> string) (saveOk : Trend -> bool)
    (jobs : list TrendJob) :
  let store := runTrendJobs toLowerCase saveOk jobs [] in
  NoDup (map docId store)
  /\ NoDup (map trendId store)
  /\ (forall t, In t store ->
        isActive t = true /\ expiresAt t = createdAt t + sevenDays)
  /\ (forall now t, In t store ->
        expiredOrStale now t = (createdAt t + sevenDays <? now)).
Proof.
  cbv zeta.
  destruct (runTrendJobs_keeps_trendStoreOk toLowerCase saveOk jobs [])
    as [Hids [Hkeys Hall]].
  { split; [ constructor | ]. split; constructor. }
  rewrite Forall_forall in Hall.
  split; [ exact Hids | ]. split; [ exact Hkeys | ].
  split; [ exact Hall | ].
  intros now t Ht. apply freshlyExpiring_lifetime. apply Hall. exact Ht.
Qed.

(** ** Cleanup of expired trends *)

Lemma filter_split_length {A : Type} (p : A -> bool) (l : list A) :
  (List.length (filter p l) + List.length (filter (fun a => negb (p a)) l)
   = List.length l)%nat.
Proof.
  induction l as [ | a l IH ]; simpl; [ reflexivity | ].
  destruct (p a); simpl; lia.
Qed.

Lemma filter_idempotent {A : Type} (p : A -> bool) (l : list A) :
  filter p (filter p l) = filter p l.
Proof.
  induction l as [ | a l IH ]; simpl; [ reflexivity | ].
  destruct (p a) eqn:E; simpl; [ rewrite E, IH | ]; auto.
Qed.

Lemma filter_none {A : Type} (p : A -> bool) (l : list A) :
  filter p (filter (fun a => negb (p a)) l) = [].
Proof.
  induction l as [ | a l IH ]; simpl; [ reflexivity | ].
  destruct (p a) eqn:E; simpl; [ | rewrite E ]; auto.
Qed.

Lemma expiredOrStale_false (now : Z) (t : Trend) :
  expiredOrStale now t = false
  <-> isActive t = true /\ now <= expiresAt t /\ now - fourteenDays <= createdAt t.
Proof.
  unfold expiredOrStale. rewrite !orb_false_iff, negb_false_iff, !Z.ltb_ge.
  tauto.
Qed.

(** X5. When the database carries out the [deleteMany], the cleanup
    returns the number of documents it deleted and keeps, in their order,
    exactly the documents that are active, expire at [now] or later and
    were created at most fourteen days before [now]; run again at the same
    instant it deletes nothing; a survivor is picked by the re-scoring
    query of the same instant unless it expires exactly at [now].  When
    the database refuses the [deleteMany], the cleanup throws the error
    of the database as it is and deletes nothing, and the scheduled job
    around it returns all the same. *)
Theorem cleanupExpiredTrends_survivors (now : Z) (store : TrendStore) :
  let kept := storeAfter (cleanupExpiredTrends now None store) in
  (exists deleted,
      resultOf (cleanupExpiredTrends now None store) = Returned deleted
      /\ (deleted + List.length kept = List.length store)%nat)
  /\ (forall t, In t kept <->
        In t store /\ isActive t = true /\ now <= expiresAt t
        /\ now - fourteenDays <= createdAt t)
  /\ cleanupExpiredTrends now None kept = (Returned 0%nat, kept)
  /\ (forall t, In t kept -> activeUnexpired now t = negb (expiresAt t =? now))
  /\ (forall error,
        cleanupExpiredTrends now (Some error) store = (Thrown error, store)
        /\ scheduleJob (cleanupExpiredTrends now (Some error)) store
           = (Returned tt, store)).
Proof.
  cbv zeta. rewrite cleanupExpiredTrends_store.
  assert (Hmem : forall t,
             In t (filter (fun t => negb (expiredOrStale now t)) store) <->
             In t store /\ isActive t = true /\ now <= expiresAt t
             /\ now - fourteenDays <= createdAt t).
  { intros t. rewrite filter_In, negb_true_iff, expiredOrStale_false.
    reflexivity. }
  split; [ | split; [ exact Hmem | split; [ | split ] ] ].
  - exists (List.length (filter (expiredOrStale now) store)).
    split; [ reflexivity | apply filter_split_length ].
  - unfold cleanupExpiredTrends, deleteManyTrends, tryCatch.
    rewrite filter_none, filter_idempotent. reflexivity.
  - intros t Ht. apply Hmem in Ht. destruct Ht as [_ [Hact [Hexp _]]].
    unfold activeUnexpired. rewrite Hact. cbn [andb].
    destruct (Z.eqb_spec (expiresAt t) now) as [E | E]; cbn [negb].
    + apply Z.ltb_ge. lia.
    + apply Z.ltb_lt. lia.
  - intros error. split; reflexivity.
Qed.

(** ** What [storeTrends] returns, throws and leaves alone *)

Lemma replaceDoc_keeps_other (doc old t : Trend) (store : TrendStore) :
  NoDup (map docId store) -> In old store -> docId doc = docId old ->
  In t store -> t <> old -> In t (replaceDoc doc store).
Proof.
  intros Hnd Hold Hid Ht Hne. unfold replaceDoc. apply in_map_iff.
  exists t. split; [ | exact Ht ]. rewrite Hid.
  destruct (Nat.eqb_spec (docId t) (docId old)) as [E | E]; [ | reflexivity ].
  exfalso. apply Hne. exact (docId_injective store t old Hnd Ht Hold E).
Qed.

Lemma storeEach_step (saveOk : Trend -> bool) (now : Z) (td : TrendData)
    (rest : list TrendData) (acc : list Trend) (store : TrendStore) :
  storeEach saveOk now (td :: rest) acc store
  = match find (fun t => String.eqb (trendId t) (td_trendId td)) store with
    | Some existing =>
        let updated := assignTrendData existing td in
        if saveOk updated
        then storeEach saveOk now rest (acc ++ [updated]) (replaceDoc updated store)
        else (Thrown "ValidationError"%string, store)
    | None =>
        let created := newTrend now (freshId store) td in
        if saveOk created
        then storeEach saveOk now rest (acc ++ [created]) (store ++ [created])
        else (Thrown "ValidationError"%string, store)
    end.
Proof.
  cbn [storeEach]. unfold bind, findOneByTrendId, getStore, saveExisting, saveNew.
  destruct (find (fun t => String.eqb (trendId t) (td_trendId td)) store)
    as [existing | ]; cbv zeta.
  - destruct (saveOk (assignTrendData existing td)); reflexivity.
  - destruct (saveOk (newTrend now (freshId store) td)); reflexivity.
Qed.

Lemma storeEach_outcome (saveOk : Trend -> bool) (now : Z)
    (trends : list TrendData) :
  forall (acc : list Trend) (store : TrendStore),
    NoDup (map docId store) ->
    let run := storeEach saveOk now trends acc store in
    (forall key, In key (map trendId store) ->
                 In key (map trendId (storeAfter run)))
    /\ (forall t, In t store -> ~ In (trendId t) (map td_trendId trends) ->
                  In t (storeAfter run))
    /\ match resultOf run with
       | Returned stored =>
           (exists docs, stored = acc ++ docs /\ Forall2 carries trends docs)
           /\ forall td, In td trends ->
                         In (td_trendId td) (map trendId (storeAfter run))
       | Thrown e => exists doc, saveOk doc = false
       end.
Proof.
  induction trends as [ | td rest IH ]; intros acc store Hnd; cbv zeta.
  - cbn [storeEach]. unfold ret, storeAfter, resultOf. cbn [fst snd].
    split; [ auto | ]. split; [ auto | ].
    split; [ exists []; split; [ symmetry; apply app_nil_r | constructor ] | ].
    intros td [].
  - rewrite storeEach_step.
    destruct (find (fun t => String.eqb (trendId t) (td_trendId td)) store)
      as [existing | ] eqn:Hfind; cbv zeta.
    + apply find_trendId_some in Hfind. destruct Hfind as [Hin Hkey].
      set (updated := assignTrendData existing td).
      destruct (saveOk updated) eqn:Hsave.
      * assert (Hnd1 : NoDup (map docId (replaceDoc updated store)))
          by (rewrite replaceDoc_ids; exact Hnd).
        assert (Hkeys1 : map trendId (replaceDoc updated store) = map trendId store)
          by (apply (replaceDoc_trendIds updated existing); auto).
        destruct (IH (acc ++ [updated]) (replaceDoc updated store) Hnd1)
          as [Hkeep [Hframe Hres]].
        split; [ intros key Hk; apply Hkeep; rewrite Hkeys1; exact Hk | ].
        split.
        { intros t Ht Hnot. apply Hframe.
          - apply (replaceDoc_keeps_other updated existing); auto.
            intros ->. apply Hnot. left. symmetry. exact Hkey.
          - intros H. apply Hnot. right. exact H. }
        destruct (resultOf (storeEach saveOk now rest (acc ++ [updated])
                              (replaceDoc updated store))) as [stored | e];
          [ | exact Hres ].
        destruct Hres as [[docs [Hstored Hcarry]] Hall].
        split.
        { exists (updated :: docs). split.
          - rewrite Hstored, <- app_assoc. reflexivity.
          - constructor; [ | exact Hcarry ].
            unfold carries, updated. repeat split. }
        intros td' [<- | Hin']; [ | apply Hall; exact Hin' ].
        apply Hkeep. rewrite Hkeys1, <- Hkey. apply in_map. exact Hin.
      * unfold storeAfter, resultOf. cbn [fst snd].
        split; [ auto | ]. split; [ auto | ]. exists updated. exact Hsave.
    + apply find_trendId_none in Hfind.
      set (created := newTrend now (freshId store) td).
      destruct (saveOk created) eqn:Hsave.
      * assert (Hnd1 : NoDup (map docId (store ++ [created])))
          by (rewrite map_app; apply NoDup_snoc;
              [ exact Hnd | apply freshId_unused ]).
        destruct (IH (acc ++ [created]) (store ++ [created]) Hnd1)
          as [Hkeep [Hframe Hres]].
        split.
        { intros key Hk. apply Hkeep. rewrite map_app. apply in_or_app.
          left. exact Hk. }
        split.
        { intros t Ht Hnot. apply Hframe.
          - apply in_or_app. left. exact Ht.
          - intros H. apply Hnot. right. exact H. }
        destruct (resultOf (storeEach saveOk now rest (acc ++ [created])
                              (store ++ [created]))) as [stored | e];
          [ | exact Hres ].
        destruct Hres as [[docs [Hstored Hcarry]] Hall].
        split.
        { exists (created :: docs). split.
          - rewrite Hstored, <- app_assoc. reflexivity.
          - constructor; [ unfold carries, created; repeat split | exact Hcarry ]. }
        intros td' [<- | Hin']; [ | apply Hall; exact Hin' ].
        apply Hkeep. rewrite map_app. apply in_or_app. right. left. reflexivity.
      * unfold storeAfter, resultOf. cbn [fst snd].
        split; [ auto | ]. split; [ auto | ]. exists created. exact Hsave.
Qed.

Lemma storeTrends_unfold (saveOk : Trend -> bool) (now : Z)
    (trends : list TrendData) (store : TrendStore) :
  storeTrends saveOk now trends store
  = match storeEach saveOk now trends [] store with
    | (Returned stored, store') => (Returned stored, store')
    | (Thrown _, store') => (Thrown storeFailure, store')
    end.
Proof. reflexivity. Qed.



(** X7. [storeTrends], returned or thrown, removes no key from the collection
    and leaves every document whose [trendId] is not among the keys of the
    batch exactly as it was. *)
Theorem storeTrends_keeps_other_documents
    (saveOk : Trend -> bool) (now : Z) (trends : list TrendData)
    (store : TrendStore) :
  NoDup (map docId store) ->
  let store' := storeAfter (storeTrends saveOk now trends store) in
  (forall key, In key (map trendId store) -> In key (map trendId store'))
  /\ (forall t, In t store -> ~ In (trendId t) (map td_trendId trends) ->
                In t store').
Proof.
  intros Hnd. cbv zeta. rewrite storeTrends_store.
  destruct (storeEach_outcome saveOk now trends [] store Hnd) as [Hk [Hf _]].
  split; assumption.
Qed.

Lemma storeTrends_keeps_other_documents_witness :
  In staleTrend
     (storeAfter
        (storeTrends acceptAll 2000
           [normalizeTrendData asciiToLowerCase 2000 tiktok postSeenAgain]
           [staleTrend])).
Proof.
  apply (storeTrends_keeps_other_documents acceptAll 2000
           [normalizeTrendData asciiToLowerCase 2000 tiktok postSeenAgain]
           [staleTrend]).
  - constructor; [ intros [] | constructor ].
  - left. reflexivity.
  - vm_compute. intros [H | []]. discriminate H.
Defined.

(** ** The manual trigger *)

Lemma rethrow_bind_ret {S A : Type} (c : Job S A) (s : S) :
  tryCatch (bind c (fun a => ret a)) (fun error => throw error) s = c s.
Proof.
  unfold tryCatch, bind, ret, throw. destruct (c s) as [[a | e] s']; reflexivity.
Qed.

(** X8. A manual refresh of one named platform (any letter case [toLowerCase]
    maps to the platform's name): when the request to the platform fails,
    the fetch error reaches the caller and nothing is written; an
    unknown platform name is refused before anything is fetched; and when
    the platform answers, the refresh is the scheduled refresh of all
    platforms with the other two reporting nothing: the same
    normalize-and-store path. *)
Theorem triggerTrendFetch_single_platform
    (toLowerCase : string -> string) (saveOk : Trend -> bool)
    (source : Platform -> option string -> outcome (list RawTrend))
    (youtubeApiKey : bool)
    (now : Z) (filter : option string) (store : TrendStore)
    (c : ascii) (rest : string) :
  let name := String c rest in
  (forall p e,
      platformOfName (toLowerCase name) = Some p ->
      source p filter = Thrown e ->
      triggerTrendFetch toLowerCase saveOk source youtubeApiKey now (Some name)
        filter store
      = (Thrown ("Failed to fetch " ++ platformLabel p ++ " trends")%string, store))
  /\ (platformOfName (toLowerCase name) = None ->
      triggerTrendFetch toLowerCase saveOk source youtubeApiKey now (Some name)
        filter store
      = (Thrown ("Unsupported platform: " ++ name)%string, store))
  /\ (forall p items,
      platformOfName (toLowerCase name) = Some p ->
      source p filter = Returned items ->
      triggerTrendFetch toLowerCase saveOk source youtubeApiKey now (Some name)
        filter store
      = fetchAndStoreTrends toLowerCase saveOk (onlyPlatform source p) youtubeApiKey
          now filter store).
Proof.
  cbv zeta. split; [ | split ].
  - intros p e Hp Hfail. unfold triggerTrendFetch, tryCatch.
    rewrite Hp. unfold fetchPlatformTrends. rewrite Hfail. reflexivity.
  - intros Hp. unfold triggerTrendFetch, tryCatch. rewrite Hp. reflexivity.
  - intros p items Hp Hitems. unfold triggerTrendFetch.
    rewrite fetchAndStoreTrends_unfold.
    unfold tryCatch at 1. rewrite Hp.
    assert (Hfetch : exists trends,
               fetchPlatformTrends toLowerCase source youtubeApiKey now p filter
               = Returned trends
               /\ forall q,
                    fulfilled (fetchPlatformTrends toLowerCase (onlyPlatform source p)
                                 youtubeApiKey now q filter)
                    = if platformEqb q p then trends else []).
    { unfold fetchPlatformTrends, onlyPlatform. rewrite Hitems. eexists.
      split; [ reflexivity | ].
      intros q. destruct q, p; cbn [platformEqb]; rewrite ?Hitems; cbv zeta;
        cbn [fulfilled map List.filter filtersByNiche]; try reflexivity;
        destruct youtubeApiKey; reflexivity. }
    destruct Hfetch as [trends [-> Hq]]. rewrite !Hq.
    change (match
               bind (storeTrends saveOk now trends) (fun stored => ret stored) store
             with
             | (Returned a, s') => (Returned a, s')
             | (Thrown e, s') => throw e s'
             end)
      with (tryCatch
              (bind (storeTrends saveOk now trends) (fun stored => ret stored))
              (fun error => throw error) store).
    rewrite rethrow_bind_ret.
    destruct p; cbn [platformEqb app]; rewrite ?app_nil_r; reflexivity.
Qed.

Lemma triggerTrendFetch_single_platform_witness :
  triggerTrendFetch asciiToLowerCase acceptAll instagramDown false 1000
    (Some "Instagram"%string) None []
  = (Thrown "Failed to fetch Instagram trends"%string, [])
  /\ triggerTrendFetch asciiToLowerCase acceptAll instagramDown false 1000
       (Some "TikTok"%string) None []
     = fetchAndStoreTrends asciiToLowerCase acceptAll
         (onlyPlatform instagramDown tiktok) false 1000 None [].
Proof.
  destruct (triggerTrendFetch_single_platform asciiToLowerCase acceptAll
              instagramDown false 1000 None [] "I"%char "nstagram"%string)
    as [Hfail _].
  destruct (triggerTrendFetch_single_platform asciiToLowerCase acceptAll
              instagramDown false 1000 None [] "T"%char "ikTok"%string)
    as [_ [_ Hok]].
  split.
  - exact (Hfail instagram "API Error"%string eq_refl eq_refl).
  - exact (Hok tiktok [postFirstSeen] eq_refl eq_refl).
Defined.

(** ** The classifier, niche by niche *)


(** ** Normalized trends and the schema *)

Lemma ofZ_between_0_100 (z : Z) :
  0 <= z <= 100 ->
  JsNum.leb (JsNum.ofZ 0) (JsNum.ofZ z) = true
  /\ JsNum.leb (JsNum.ofZ z) (JsNum.ofZ 100) = true.
Proof.
  intros Hz. unfold JsNum.leb, JsNum.gtb, JsNum.ofZ. rewrite !negb_involutive.
  split; apply Qle_bool_iff; rewrite <- Zle_Qle; lia.
Qed.

Lemma relevanceScore_range (data : RawTrend) :
  0 <= calculateRelevanceScore data <= 100.
Proof.
  rewrite calculateRelevanceScore_boosts.
  pose proof (boost_range (metricsField raw_engagementRate (raw_metrics data))
                5 2 20 10 ltac:(lia)).
  pose proof (boost_range (metricsField raw_growth (raw_metrics data))
                1000 100 15 10 ltac:(lia)).
  pose proof (boost_range (metricsField raw_views (raw_metrics data))
                1000000 100000 15 10 ltac:(lia)).
  lia.
Qed.

Lemma trendId_not_empty (toLowerCase : string -> string) (now : Z)
    (p : Platform) (raw : RawTrend) :
  String.eqb (td_trendId (normalizeTrendData toLowerCase now p raw)) EmptyString
  = false.
Proof. destruct p; reflexivity. Qed.

Lemma orNum_casts (x : option jsnum) (d : jsnum) :
  castsToNumber d = true -> castsToNumber (orNum x d) = true.
Proof.
  intros Hd. destruct x as [[q | | | ] | ]; cbn [orNum JsNum.truthy];
    try exact Hd; try reflexivity.
  destruct (negb (Qeq_bool q 0)); [ reflexivity | exact Hd ].
Qed.

Lemma finite_engagementRate (metrics : option RawMetrics) :
  (forall m, metrics = Some m ->
     finiteIfPresent (raw_views m) /\ finiteIfPresent (raw_likes m)
     /\ finiteIfPresent (raw_comments m) /\ finiteIfPresent (raw_shares m)) ->
  JsNum.isNaN (calculateEngagementRate metrics) = false.
Proof.
  intros Hfin. destruct metrics as [m | ]; [ | reflexivity ].
  destruct (Hfin m eq_refl) as [Hv [Hl [Hc Hs]]].
  unfold calculateEngagementRate.
  destruct (raw_views m) as [[v | | | ] | ]; try destruct Hv; try reflexivity.
  destruct (JsNum.truthy (JsNum.Fin v)) eqn:Ht; [ | reflexivity ].
  cbn [negb]. cbn [JsNum.truthy] in Ht. apply negb_true_iff in Ht.
  destruct (raw_likes m) as [[l | | | ] | ]; try destruct Hl;
    destruct (raw_comments m) as [[c | | | ] | ]; try destruct Hc;
    destruct (raw_shares m) as [[sh | | | ] | ]; try destruct Hs;
    cbn [orNum JsNum.truthy];
    repeat match goal with
           | |- context [negb (Qeq_bool ?q 0)] => destruct (negb (Qeq_bool q 0))
           end;
    cbn [JsNum.add JsNum.ofZ JsNum.div]; rewrite Ht; reflexivity.
Qed.

(** X10. A raw item without a preset [relevanceScore] normalizes to a
    document the trend schema accepts if and only if it has a non-empty
    title and its derived engagement rate is a number: [views], [uses],
    [growth], [duration] and the relevance score never stand in the way,
    but an engagement rate [NaN] does not cast.  The rate is a number
    whenever the [views], [likes], [comments] and [shares] that are
    present are finite. *)
Theorem normalized_trend_valid_iff_titled_and_rated
    (toLowerCase : string -> string) (now : Z) (p : Platform) (id : nat)
    (raw : RawTrend) :
  raw_relevanceScore raw = None ->
  (trendSchemaValid (newTrend now id (normalizeTrendData toLowerCase now p raw))
   = true
   <-> (exists c rest, raw_title raw = Some (String c rest))
       /\ JsNum.isNaN (calculateEngagementRate (raw_metrics raw)) = false)
  /\ ((forall m, raw_metrics raw = Some m ->
         finiteIfPresent (raw_views m) /\ finiteIfPresent (raw_likes m)
         /\ finiteIfPresent (raw_comments m) /\ finiteIfPresent (raw_shares m)) ->
      JsNum.isNaN (calculateEngagementRate (raw_metrics raw)) = false).
Proof.
  intros Hscore. split; [ | apply finite_engagementRate ].
  unfold trendSchemaValid.
  cbn [trendId title relevanceScore metrics metadata newTrend].
  rewrite trendId_not_empty.
  unfold normalizeTrendData.
  cbn [td_title td_relevanceScore td_metrics td_metadata views uses growth
       engagementRate duration].
  rewrite Hscore.
  rewrite !(orNum_casts _ (JsNum.ofZ 0) eq_refl).
  cbn [orNum negb andb].
  destruct (ofZ_between_0_100 _ (relevanceScore_range raw)) as [H0 H100].
  rewrite H0, H100, !andb_true_r. unfold castsToNumber.
  destruct (JsNum.isNaN (calculateEngagementRate (raw_metrics raw)));
    cbn [negb]; rewrite ?andb_true_r, ?andb_false_r;
    destruct (raw_title raw) as [[ | c rest] | ]; cbn [orStr String.eqb negb].
  - split; [ discriminate | intros [_ H]; discriminate H ].
  - split; [ discriminate | intros [_ H]; discriminate H ].
  - split; [ discriminate | intros [_ H]; discriminate H ].
  - split; [ discriminate | intros [[c [rest H]] _]; discriminate H ].
  - split; [ intros _; split; [ exists c, rest; reflexivity | reflexivity ]
           | reflexivity ].
  - split; [ discriminate | intros [[c [rest H]] _]; discriminate H ].
Qed.

Lemma normalized_trend_valid_iff_titled_and_rated_witness :
  trendSchemaValid
    (newTrend 1000 1 (normalizeTrendData asciiToLowerCase 1000 tiktok postFirstSeen))
  = true
  <-> (exists c rest, raw_title postFirstSeen = Some (String c rest))
      /\ JsNum.isNaN (calculateEngagementRate (raw_metrics postFirstSeen)) = false.
Proof.
  exact (proj1 (normalized_trend_valid_iff_titled_and_rated asciiToLowerCase 1000
                  tiktok 1%nat postFirstSeen eq_refl)).
Defined.

(** A titled item whose [views] and [likes] are both infinite: the
    derived rate is [NaN], and the schema refuses the document. *)
Example unbounded_counts_refused :
  let raw := bareItem "clip" "Endless" unboundedMetrics in
  calculateEngagementRate (raw_metrics raw) = JsNum.NaN
  /\ trendSchemaValid
       (newTrend 1000 1 (normalizeTrendData asciiToLowerCase 1000 tiktok raw))
     = false.
Proof. split; vm_compute; reflexivity. Qed.

Lemma untitled_refused (doc : Trend) :
  title doc = EmptyString -> trendSchemaValid doc = false.
Proof.
  intros H. unfold trendSchemaValid. rewrite H. cbn [String.eqb negb].
  rewrite andb_false_r. reflexivity.
Qed.

(** X11. Under the validation of the trend schema, a batch that holds a trend
    with an empty title (what normalization makes of an item without
    one) is never stored to the end: [storeTrends] throws the store
    failure. *)
Theorem storeTrends_fails_on_untitled
    (now : Z) (trends : list TrendData) (td : TrendData) (store : TrendStore) :
  In td trends -> td_title td = EmptyString ->
  resultOf (storeTrends trendSchemaValid now trends store) = Thrown storeFailure.
Proof.
  intros Hin Htitle.
  assert (H : forall acc s,
            exists s', storeEach trendSchemaValid now trends acc s
                       = (Thrown "ValidationError"%string, s')).
  { induction trends as [ | a rest IH ]; [ destruct Hin | ].
    intros acc s. rewrite storeEach_step.
    destruct (find (fun t => String.eqb (trendId t) (td_trendId a)) s)
      as [existing | ]; cbv zeta.
    - destruct (trendSchemaValid (assignTrendData existing a)) eqn:Hv;
        [ | exists s; reflexivity ].
      destruct Hin as [-> | Hin]; [ | apply IH; exact Hin ].
      rewrite untitled_refused in Hv by exact Htitle. discriminate Hv.
    - destruct (trendSchemaValid (newTrend now (freshId s) a)) eqn:Hv;
        [ | exists s; reflexivity ].
      destruct Hin as [-> | Hin]; [ | apply IH; exact Hin ].
      rewrite untitled_refused in Hv by exact Htitle. discriminate Hv. }
  destruct (H [] store) as [s' Hrun].
  rewrite storeTrends_unfold, Hrun. reflexivity.
Qed.

Lemma storeTrends_fails_on_untitled_witness :
  resultOf
    (storeTrends trendSchemaValid 1000
       [normalizeTrendData asciiToLowerCase 1000 tiktok postFirstSeen;
        normalizeTrendData asciiToLowerCase 1000 tiktok untitledItem]
       [])
  = Thrown storeFailure.
Proof.
  apply (storeTrends_fails_on_untitled 1000 _
           (normalizeTrendData asciiToLowerCase 1000 tiktok untitledItem)).
  - right. left. reflexivity.
  - reflexivity.
Defined.

(** ** Niche filters *)

Lemma append_empty_r (s : string) : (s ++ EmptyString)%string = s.
Proof. induction s as [ | c s IH ]; simpl; [ | rewrite IH ]; reflexivity. Qed.

Lemma includes_refl (s : string) : includes s s = true.
Proof.
  apply includes_spec. exists EmptyString, EmptyString.
  simpl. rewrite append_empty_r. reflexivity.
Qed.

(** X12. Without a niche filter (none, or the empty string) every trend
    matches.  With one, a trend that carries one of the requested niches
    matches, whereas a trend without any niche, and any trend against an
    empty array of niches, does not. *)
Theorem matchesNiche_cases
    (toLowerCase : string -> string) (trend : TrendData) (arg : NicheArg) :
  matchesNiche toLowerCase trend None = true
  /\ matchesNiche toLowerCase trend (Some (OneNiche EmptyString)) = true
  /\ matchesNiche toLowerCase trend (Some (ManyNiches [])) = false
  /\ (td_niche trend = [] -> noNicheFilter (Some arg) = false ->
      matchesNiche toLowerCase trend (Some arg) = false)
  /\ (forall n, In n (td_niche trend) -> In n (nicheList arg) ->
      matchesNiche toLowerCase trend (Some arg) = true).
Proof.
  split; [ reflexivity | ]. split; [ reflexivity | ].
  split.
  { unfold matchesNiche. cbn [noNicheFilter nicheList].
    induction (td_niche trend) as [ | a l IH ]; [ reflexivity | exact IH ]. }
  split.
  { intros Hnone Hfilter. unfold matchesNiche. rewrite Hfilter, Hnone.
    reflexivity. }
  intros n Hn Harg. unfold matchesNiche.
  destruct (noNicheFilter (Some arg)); [ reflexivity | ].
  apply existsb_exists. exists n. split; [ exact Hn | ].
  apply existsb_exists. exists n. split; [ exact Harg | apply includes_refl ].
Qed.

Lemma matchesNiche_cases_witness :
  matchesNiche asciiToLowerCase
    (normalizeTrendData asciiToLowerCase 0 tiktok cookingLesson)
    (Some (ManyNiches ["travel"; "food"]%string)) = true.
Proof.
  destruct (matchesNiche_cases asciiToLowerCase
              (normalizeTrendData asciiToLowerCase 0 tiktok cookingLesson)
              (ManyNiches ["travel"; "food"]%string)) as [_ [_ [_ [_ H]]]].
  apply (H "food"%string).
  - vm_compute. right. left. reflexivity.
  - right. left. reflexivity.
Defined.

(** ** Hashtags *)

Lemma append_assoc_string (a b c : string) :
  ((a ++ b) ++ c)%string = (a ++ (b ++ c))%string.
Proof. induction a as [ | x a IH ]; simpl; [ | rewrite IH ]; reflexivity. Qed.

Lemma allWordChars_app (a b : string) :
  allWordChars (a ++ b) = allWordChars a && allWordChars b.
Proof.
  induction a as [ | x a IH ]; simpl; [ reflexivity | ].
  rewrite IH, andb_assoc. reflexivity.
Qed.

Lemma closeTag_tags (w : string) :
  allWordChars w = true -> Forall isTag (closeTag (Some w)).
Proof.
  intros Hw. destruct w as [ | c w ]; simpl; constructor; [ | constructor ].
  split; [ discriminate | exact Hw ].
Qed.

Lemma scanHashtags_tags (text : string) :
  forall pending,
    (forall w, pending = Some w -> allWordChars w = true) ->
    Forall isTag (scanHashtags text pending).
Proof.
  induction text as [ | c rest IH ]; intros pending Hp; cbn [scanHashtags].
  - destruct pending as [w | ]; [ apply closeTag_tags; auto | constructor ].
  - assert (Hnext : Forall isTag
              (scanHashtags rest (if isHash c then Some EmptyString else None))).
    { apply IH. intros w Hw. destruct (isHash c); [ | discriminate ].
      injection Hw as <-. reflexivity. }
    destruct pending as [w | ]; [ | exact Hnext ].
    destruct (isWordChar c) eqn:Hc.
    + apply IH. intros w' Hw'. injection Hw' as <-.
      rewrite allWordChars_app, (Hp w eq_refl). simpl. rewrite Hc. reflexivity.
    + apply Forall_app. split; [ apply closeTag_tags; auto | exact Hnext ].
Qed.

Lemma scanHashtags_word (w rest acc : string) :
  allWordChars w = true ->
  scanHashtags (w ++ rest) (Some acc) = scanHashtags rest (Some (acc ++ w)%string).
Proof.
  revert acc. induction w as [ | c w IH ]; intros acc Hw; simpl.
  - rewrite append_empty_r. reflexivity.
  - simpl in Hw. apply andb_true_iff in Hw. destruct Hw as [Hc Hw].
    rewrite Hc, IH by exact Hw. rewrite append_assoc_string. reflexivity.
Qed.

Lemma scanHashtags_roundtrip (tags : list string) :
  Forall isTag tags ->
  forall t, isTag t ->
    scanHashtags (hashtagText tags) (Some t) = t :: tags.
Proof.
  induction 1 as [ | a l [Ha Hw] _ IH ]; intros t [Ht Htw]; cbn [hashtagText].
  - destruct t; [ contradiction | reflexivity ].
  - change (" #" ++ a ++ hashtagText l)%string
      with (String " "%char (String "#"%char (a ++ hashtagText l)%string)).
    cbn [scanHashtags isWordChar isHash].
    change (isWordChar " "%char) with false. cbn iota.
    change (isHash " "%char) with false. cbn iota.
    change (isHash "#"%char) with true. cbn iota.
    rewrite scanHashtags_word by exact Hw. cbn [append].
    rewrite IH by (split; assumption).
    destruct t; [ contradiction | reflexivity ].
Qed.

(** X13. Every hashtag extracted from a text is a non-empty run of letters,
    digits and underscores (so none holds a [#] or a blank); a missing or
    empty text has none; and tags written out one after the other as
    [ #tag] are read back exactly, in order. *)
Theorem extractHashtags_tags_and_roundtrip (text : option string)
    (tags : list string) :
  Forall isTag (extractHashtags text)
  /\ extractHashtags None = []
  /\ extractHashtags (Some EmptyString) = []
  /\ (Forall isTag tags -> extractHashtags (Some (hashtagText tags)) = tags).
Proof.
  split.
  { destruct text as [[ | c t] | ]; try constructor.
    apply scanHashtags_tags. discriminate. }
  split; [ reflexivity | ]. split; [ reflexivity | ].
  intros Htags. destruct Htags as [ | a l Ha Hl ]; [ reflexivity | ].
  cbn [hashtagText].
  change (" #" ++ a ++ hashtagText l)%string
    with (String " "%char (String "#"%char (a ++ hashtagText l)%string)).
  cbn [extractHashtags scanHashtags].
  change (isHash " "%char) with false. cbn iota.
  change (isHash "#"%char) with true. cbn iota.
  rewrite scanHashtags_word by exact (proj2 Ha). cbn [append].
  apply scanHashtags_roundtrip; assumption.
Qed.

Lemma extractHashtags_tags_and_roundtrip_witness :
  extractHashtags (Some (hashtagText ["fitness"; "gym_2024"]%string))
  = ["fitness"; "gym_2024"]%string.
Proof.
  destruct (extractHashtags_tags_and_roundtrip None ["fitness"; "gym_2024"]%string)
    as [_ [_ [_ H]]].
  apply H. repeat constructor; discriminate.
Defined.

(** ** Sorted, limited queries *)

Section SortingFacts.

Variable A : Type.
Variable before : A -> A -> bool.
Hypothesis before_total : forall a b, before a b = true \/ before b a = true.

Lemma In_insertSorted (x a : A) (l : list A) :
  In x (insertSorted before a l) <-> x = a \/ In x l.
Proof.
  induction l as [ | b l IH ]; simpl; [ intuition | ].
  destruct (before a b); simpl; [ intuition | ].
  rewrite IH. intuition.
Qed.

Lemma In_sortBy (x : A) (l : list A) : In x (sortBy before l) <-> In x l.
Proof.
  induction l as [ | a l IH ]; simpl; [ reflexivity | ].
  rewrite In_insertSorted, IH. intuition.
Qed.

Lemma length_insertSorted (a : A) (l : list A) :
  List.length (insertSorted before a l) = S (List.length l).
Proof.
  induction l as [ | b l IH ]; simpl; [ reflexivity | ].
  destruct (before a b); simpl; [ | rewrite IH ]; reflexivity.
Qed.

Lemma length_sortBy (l : list A) : List.length (sortBy before l) = List.length l.
Proof.
  induction l as [ | a l IH ]; simpl; [ reflexivity | ].
  rewrite length_insertSorted, IH. reflexivity.
Qed.

Lemma HdRel_insertSorted (x a : A) (l : list A) :
  before x a = true ->
  HdRel (fun u v => before u v = true) x l ->
  HdRel (fun u v => before u v = true) x (insertSorted before a l).
Proof.
  intros Hxa Hl. destruct l as [ | b l ]; simpl; [ constructor; exact Hxa | ].
  destruct (before a b); constructor; [ exact Hxa | ].
  inversion Hl; assumption.
Qed.

Lemma Sorted_insertSorted (a : A) (l : list A) :
  Sorted (fun u v => before u v = true) l ->
  Sorted (fun u v => before u v = true) (insertSorted before a l).
Proof.
  induction 1 as [ | b l Hl IH Hb ]; simpl.
  - constructor; constructor.
  - destruct (before a b) eqn:E.
    + constructor; [ constructor; assumption | constructor; exact E ].
    + constructor; [ exact IH | ].
      apply HdRel_insertSorted; [ | exact Hb ].
      destruct (before_total a b) as [H | H]; [ congruence | exact H ].
Qed.

Lemma Sorted_sortBy (l : list A) :
  Sorted (fun u v => before u v = true) (sortBy before l).
Proof.
  induction l as [ | a l IH ]; simpl; [ constructor | ].
  apply Sorted_insertSorted. exact IH.
Qed.

End SortingFacts.

Lemma Sorted_firstn {A : Type} (R : A -> A -> Prop) (n : nat) (l : list A) :
  Sorted R l -> Sorted R (firstn n l).
Proof.
  revert l. induction n as [ | n IH ]; intros l H; [ constructor | ].
  destruct l as [ | a l ]; [ constructor | ].
  inversion H as [ | ? ? Hl Ha ]; subst. simpl. constructor; [ apply IH; exact Hl | ].
  destruct l as [ | b l ]; [ destruct n; constructor | ].
  destruct n; [ constructor | ]. simpl. constructor. inversion Ha; assumption.
Qed.

Lemma Sorted_weaken {A : Type} (R R' : A -> A -> Prop) (l : list A) :
  (forall a b, R a b -> R' a b) -> Sorted R l -> Sorted R' l.
Proof.
  intros HR. induction 1 as [ | a l Hl IH Ha ]; constructor; [ exact IH | ].
  destruct Ha; constructor; auto.
Qed.

Lemma Sorted_limitTo {A : Type} (R : A -> A -> Prop) (n : nat) (l : list A) :
  Sorted R l -> Sorted R (limitTo n l).
Proof.
  destruct n; [ auto | ]. apply Sorted_firstn.
Qed.

Lemma firstn_In {A : Type} (n : nat) (l : list A) (x : A) :
  In x (firstn n l) -> In x l.
Proof.
  revert l. induction n as [ | n IH ]; intros l; simpl; [ intros [] | ].
  destruct l as [ | a l ]; simpl; [ intros [] | ].
  intros [H | H]; [ left; exact H | right; apply IH; exact H ].
Qed.

Lemma In_limitTo {A : Type} (n : nat) (l : list A) (x : A) :
  In x (limitTo n l) -> In x l.
Proof. destruct n; [ auto | apply firstn_In ]. Qed.

Lemma limitTo_length {A : Type} (n : nat) (l : list A) :
  (0 < n)%nat -> (List.length (limitTo n l) <= n)%nat.
Proof.
  intros Hn. destruct n; [ lia | ]. unfold limitTo. rewrite length_firstn. lia.
Qed.

Lemma limitTo_all {A : Type} (n : nat) (l : list A) :
  n = 0%nat \/ (List.length l <= n)%nat -> limitTo n l = l.
Proof.
  intros [-> | H]; [ reflexivity | ].
  destruct n; [ reflexivity | ]. apply firstn_all2. exact H.
Qed.

Lemma sortLeb_total (a b : jsnum) : sortLeb a b = true \/ sortLeb b a = true.
Proof.
  destruct a as [x | | | ], b as [y | | | ]; simpl; auto.
  destruct (Qlt_le_dec y x) as [H | H].
  - right. apply Qle_bool_iff. apply Qlt_le_weak. exact H.
  - left. apply Qle_bool_iff. exact H.
Qed.

Lemma descending_total (first second : Trend -> jsnum) (t u : Trend) :
  descending first second t u = true \/ descending first second u t = true.
Proof.
  unfold descending.
  destruct (sortLeb (first t) (first u)) eqn:E1,
           (sortLeb (first u) (first t)) eqn:E2; cbn [negb orb andb]; auto.
  apply or_comm, sortLeb_total.
Qed.

Lemma descending_first (first second : Trend -> jsnum) (t u : Trend) :
  descending first second t u = true -> sortLeb (first u) (first t) = true.
Proof.
  unfold descending. intros H. apply orb_true_iff in H.
  destruct H as [H | H].
  - apply negb_true_iff in H.
    destruct (sortLeb_total (first t) (first u)); congruence.
  - apply andb_true_iff in H. exact (proj1 H).
Qed.

Lemma platformEqb_eq (p q : Platform) : platformEqb p q = true <-> p = q.
Proof. destruct p, q; simpl; split; congruence. Qed.

(** X14. The query by niche and platform returns only stored documents of the
    platform that are active, not expired and carry a requested niche,
    highest [relevanceScore] first; at most [limit] of them when the limit
    is positive, and all of them when the limit is 0 or not reached. *)
Theorem findByNicheAndPlatform_results
    (now : Z) (arg : NicheArg) (p : Platform) (limit : nat) (store : TrendStore) :
  let matching t :=
    In t store /\ platform t = p /\ isActive t = true /\ now < expiresAt t
    /\ exists n, In n (niche t) /\ In n (nicheList arg) in
  let found := findByNicheAndPlatform now arg p limit store in
  (forall t, In t found -> matching t)
  /\ Sorted (fun t u => sortLeb (relevanceScore u) (relevanceScore t) = true) found
  /\ ((0 < limit)%nat -> (List.length found <= limit)%nat)
  /\ (limit = 0%nat -> forall t, matching t -> In t found)
  /\ ((List.length store <= limit)%nat -> forall t, matching t -> In t found).
Proof.
  cbv zeta. unfold findByNicheAndPlatform.
  set (query := fun t : Trend =>
         platformEqb (platform t) p
         && existsb (fun n => existsb (String.eqb n) (nicheList arg)) (niche t)
         && isActive t && (now <? expiresAt t)).
  set (order := descending relevanceScore (fun t => growth (metrics t))).
  assert (Hq : forall t, In t (sortBy order (filter query store)) <->
             In t store /\ platform t = p /\ isActive t = true
             /\ now < expiresAt t
             /\ exists n, In n (niche t) /\ In n (nicheList arg)).
  { intros t. rewrite In_sortBy, filter_In. unfold query.
    rewrite !andb_true_iff, platformEqb_eq, Z.ltb_lt, existsb_exists.
    split.
    - intros [Hin [[[Hp [n [Hn Hex]]] Ha] He]].
      apply existsb_exists in Hex. destruct Hex as [m [Hm Heq]].
      apply String.eqb_eq in Heq. subst m.
      repeat split; auto. exists n. split; assumption.
    - intros [Hin [Hp [Ha [He [n [Hn Hm]]]]]].
      repeat split; auto. exists n. split; [ exact Hn | ].
      apply existsb_exists. exists n. split; [ exact Hm | apply String.eqb_refl ]. }
  split; [ intros t Ht; apply Hq; apply In_limitTo in Ht; exact Ht | ].
  split.
  { apply Sorted_limitTo.
    apply Sorted_weaken with (R := fun u v => order u v = true).
    - intros a b. apply descending_first.
    - apply Sorted_sortBy. apply descending_total. }
  split; [ apply limitTo_length | ].
  split.
  - intros -> t Ht. apply Hq. exact Ht.
  - intros Hlen t Ht. rewrite limitTo_all; [ apply Hq; exact Ht | ].
    right. rewrite length_sortBy.
    pose proof (filter_length_le query store). lia.
Qed.

(** X15. The trending query returns only stored documents of the requested
    platforms that are active, not expired and have a positive growth,
    highest growth first, at most [limit] of them when the limit is
    positive.  A document whose metrics come from an item that reported no
    growth (as the items built from the YouTube API answer) is never
    returned. *)
Theorem findTrending_results
    (toLowerCase : string -> string)
    (now : Z) (platforms : list Platform) (limit : nat) (store : TrendStore) :
  let found := findTrending now platforms limit store in
  (forall t, In t found ->
     In t store /\ In (platform t) platforms /\ isActive t = true
     /\ now < expiresAt t
     /\ JsNum.gtb (growth (metrics t)) (JsNum.ofZ 0) = true)
  /\ Sorted (fun t u => sortLeb (growth (metrics u)) (growth (metrics t)) = true)
       found
  /\ ((0 < limit)%nat -> (List.length found <= limit)%nat)
  /\ (forall t raw normalizedAt p,
        metricsField raw_growth (raw_metrics raw) = None ->
        metrics t = td_metrics (normalizeTrendData toLowerCase normalizedAt p raw) ->
        ~ In t found).
Proof.
  cbv zeta. unfold findTrending.
  set (query := fun t : Trend =>
         existsb (platformEqb (platform t)) platforms
         && isActive t && (now <? expiresAt t)
         && JsNum.gtb (growth (metrics t)) (JsNum.ofZ 0)).
  set (order := descending (fun t => growth (metrics t)) relevanceScore).
  assert (Hq : forall t, In t (limitTo limit (sortBy order (filter query store))) ->
             In t store /\ In (platform t) platforms /\ isActive t = true
             /\ now < expiresAt t
             /\ JsNum.gtb (growth (metrics t)) (JsNum.ofZ 0) = true).
  { intros t Ht. apply In_limitTo in Ht. rewrite In_sortBy, filter_In in Ht.
    unfold query in Ht. rewrite !andb_true_iff, Z.ltb_lt in Ht.
    destruct Ht as [Hin [[[Hp Ha] He] Hg]].
    apply existsb_exists in Hp. destruct Hp as [q [Hq Heq]].
    apply platformEqb_eq in Heq. subst q. repeat split; assumption. }
  split; [ exact Hq | ].
  split.
  { apply Sorted_limitTo.
    apply Sorted_weaken with (R := fun u v => order u v = true).
    - intros a b. apply (descending_first (fun t => growth (metrics t))).
    - apply Sorted_sortBy. apply descending_total. }
  split; [ apply limitTo_length | ].
  intros t raw normalizedAt p Hnone Hm Hin.
  destruct (Hq t Hin) as [_ [_ [_ [_ Hg]]]].
  rewrite Hm in Hg. unfold normalizeTrendData in Hg. cbn [td_metrics growth] in Hg.
  rewrite Hnone in Hg. cbn [orNum] in Hg. discriminate Hg.
Qed.

(** ** The weekly cleanup, in general *)

Lemma keyEqb_eq (a b : Analytics.groupKey) :
  Analytics.keyEqb a b = true <-> a = b.
Proof.
  destruct a as [[u1 p1] m1], b as [[u2 p2] m2]. unfold Analytics.keyEqb.
  rewrite !andb_true_iff, !String.eqb_eq. split.
  - intros [[-> ->] ->]. reflexivity.
  - intros H. injection H as -> -> ->. auto.
Qed.

Lemma keyEqb_refl (a : Analytics.groupKey) : Analytics.keyEqb a a = true.
Proof. apply keyEqb_eq. reflexivity. Qed.

Lemma keyEqb_neq (a b : Analytics.groupKey) :
  Analytics.keyEqb a b = false <-> a <> b.
Proof.
  rewrite <- keyEqb_eq. destruct (Analytics.keyEqb a b); split; congruence.
Qed.

Lemma lookupIds_pushGroup (k k' : Analytics.groupKey) (id : nat)
    (groups : list (Analytics.groupKey * list nat)) :
  lookupIds k' (Analytics.pushGroup k id groups)
  = if Analytics.keyEqb k k' then lookupIds k groups ++ [id]
    else lookupIds k' groups.
Proof.
  unfold lookupIds. induction groups as [ | [k0 ids] rest IH ].
  - simpl. destruct (Analytics.keyEqb k k'); reflexivity.
  - cbn [Analytics.pushGroup].
    destruct (Analytics.keyEqb k0 k) eqn:E0.
    + apply keyEqb_eq in E0. subst k0. cbn [find fst snd].
      rewrite keyEqb_refl. destruct (Analytics.keyEqb k k'); reflexivity.
    + cbn [find fst snd]. rewrite E0.
      destruct (Analytics.keyEqb k0 k') eqn:E1.
      * apply keyEqb_eq in E1. subst k'. rewrite (proj2 (keyEqb_neq k k0)).
        { reflexivity. }
        apply keyEqb_neq in E0. congruence.
      * exact IH.
Qed.

Lemma pushGroup_keys (k k' : Analytics.groupKey) (id : nat)
    (groups : list (Analytics.groupKey * list nat)) :
  In k' (map fst (Analytics.pushGroup k id groups))
  <-> k' = k \/ In k' (map fst groups).
Proof.
  induction groups as [ | [k0 ids] rest IH ]; cbn [Analytics.pushGroup].
  - simpl. intuition.
  - destruct (Analytics.keyEqb k0 k) eqn:E0.
    + apply keyEqb_eq in E0. subst k0. simpl. intuition.
    + cbn [map fst In]. rewrite IH. intuition.
Qed.

Lemma pushGroup_NoDup (k : Analytics.groupKey) (id : nat)
    (groups : list (Analytics.groupKey * list nat)) :
  NoDup (map fst groups) -> NoDup (map fst (Analytics.pushGroup k id groups)).
Proof.
  induction groups as [ | [k0 ids] rest IH ]; cbn [Analytics.pushGroup]; intros H.
  - simpl. constructor; [ intros [] | constructor ].
  - inversion H as [ | ? ? Hnotin Hrest ]; subst.
    destruct (Analytics.keyEqb k0 k) eqn:E0; [ exact H | ].
    cbn [map fst]. constructor; [ | apply IH; exact Hrest ].
    rewrite pushGroup_keys. intros [-> | Hin]; [ | contradiction ].
    rewrite keyEqb_refl in E0. discriminate.
Qed.

Lemma groups_fold (store : Analytics.Store) :
  forall groups,
    NoDup (map fst groups) ->
    let groups' :=
      fold_left
        (fun g d => Analytics.pushGroup (Analytics.keyOf d) (Analytics.docId d) g)
        store groups in
    NoDup (map fst groups')
    /\ forall k, lookupIds k groups' = lookupIds k groups ++ idsOfKey k store.
Proof.
  induction store as [ | d store IH ]; intros groups Hnd; cbv zeta.
  - split; [ exact Hnd | ]. intros k. unfold idsOfKey. simpl.
    rewrite app_nil_r. reflexivity.
  - cbn [fold_left].
    destruct (IH (Analytics.pushGroup (Analytics.keyOf d) (Analytics.docId d) groups)
                 (pushGroup_NoDup _ _ _ Hnd)) as [Hnd' Hlook].
    split; [ exact Hnd' | ]. intros k. rewrite Hlook, lookupIds_pushGroup.
    unfold idsOfKey. cbn [filter].
    destruct (Analytics.keyEqb (Analytics.keyOf d) k) eqn:E.
    + apply keyEqb_eq in E. subst k. cbn [map]. rewrite <- app_assoc. reflexivity.
    + reflexivity.
Qed.

Lemma lookupIds_member (k : Analytics.groupKey) (ids : list nat)
    (groups : list (Analytics.groupKey * list nat)) :
  NoDup (map fst groups) -> In (k, ids) groups -> lookupIds k groups = ids.
Proof.
  unfold lookupIds. induction groups as [ | [k0 ids0] rest IH ]; [ intros _ [] | ].
  cbn [map fst find snd]. intros Hnd Hin.
  inversion Hnd as [ | ? ? Hnotin Hrest ]; subst.
  destruct Hin as [Heq | Hin].
  - injection Heq as -> ->. rewrite keyEqb_refl. reflexivity.
  - destruct (Analytics.keyEqb k0 k) eqn:E; [ | apply IH; assumption ].
    apply keyEqb_eq in E. subst k0. exfalso. apply Hnotin.
    apply in_map_iff. exists (k, ids). split; [ reflexivity | exact Hin ].
Qed.

Lemma lookupIds_found (k : Analytics.groupKey)
    (groups : list (Analytics.groupKey * list nat)) :
  lookupIds k groups <> [] -> In (k, lookupIds k groups) groups.
Proof.
  unfold lookupIds. intros H.
  destruct (find (fun g => Analytics.keyEqb (fst g) k) groups) as [[k0 ids] | ] eqn:E;
    [ | contradiction ].
  apply find_some in E. destruct E as [Hin Hk]. simpl in Hk.
  apply keyEqb_eq in Hk. subst k0. exact Hin.
Qed.

(** The groups of the pipeline are the documents of each key, in scan
    order. *)
Lemma groupDocs_spec (store : Analytics.Store) :
  NoDup (map fst (Analytics.groupDocs store))
  /\ forall k, lookupIds k (Analytics.groupDocs store) = idsOfKey k store.
Proof.
  unfold Analytics.groupDocs.
  destruct (groups_fold store [] (NoDup_nil _)) as [Hnd Hlook].
  split; [ exact Hnd | ]. intros k. rewrite Hlook. reflexivity.
Qed.

Lemma deleteByIds_nil (store : Analytics.Store) :
  Analytics.deleteByIds [] store = store.
Proof.
  unfold Analytics.deleteByIds.
  induction store as [ | d l IH ]; simpl; [ reflexivity | ].
  f_equal. exact IH.
Qed.

Lemma deleteByIds_app (ids1 ids2 : list nat) (store : Analytics.Store) :
  Analytics.deleteByIds ids2 (Analytics.deleteByIds ids1 store)
  = Analytics.deleteByIds (ids1 ++ ids2) store.
Proof.
  unfold Analytics.deleteByIds.
  induction store as [ | d l IH ]; simpl; [ reflexivity | ].
  rewrite existsb_app.
  destruct (existsb (Nat.eqb (Analytics.docId d)) ids1); simpl; [ exact IH | ].
  destruct (existsb (Nat.eqb (Analytics.docId d)) ids2); simpl;
    rewrite IH; reflexivity.
Qed.

Lemma deleteByIds_fold (groups : list (Analytics.groupKey * list nat)) :
  forall store,
    fold_left
      (fun st (duplicate : Analytics.groupKey * list nat) =>
         Analytics.deleteByIds (tl (snd duplicate)) st)
      groups store
    = Analytics.deleteByIds (concat (map (fun g => tl (snd g)) groups)) store.
Proof.
  induction groups as [ | g rest IH ]; intros store; cbn [fold_left map concat].
  - symmetry. apply deleteByIds_nil.
  - rewrite IH. apply deleteByIds_app.
Qed.

Lemma doomed_iff (store : Analytics.Store) (id : nat) :
  In id (concat (map (fun g => tl (snd g)) (Analytics.duplicateGroups store)))
  <-> exists k, In id (tl (idsOfKey k store)).
Proof.
  destruct (groupDocs_spec store) as [Hnd Hlook].
  rewrite in_concat. split.
  - intros [ids [Hids Hid]]. apply in_map_iff in Hids.
    destruct Hids as [[k ids0] [Htl Hg]]. simpl in Htl. subst ids.
    unfold Analytics.duplicateGroups in Hg. apply filter_In in Hg.
    destruct Hg as [Hg _]. exists k.
    rewrite <- Hlook, (lookupIds_member k ids0 _ Hnd Hg). exact Hid.
  - intros [k Hid]. exists (tl (idsOfKey k store)). split; [ | exact Hid ].
    apply in_map_iff. exists (k, idsOfKey k store). split; [ reflexivity | ].
    unfold Analytics.duplicateGroups. apply filter_In. split.
    + rewrite <- Hlook. apply lookupIds_found. rewrite Hlook.
      intros E. rewrite E in Hid. exact Hid.
    + simpl. destruct (idsOfKey k store) as [ | a [ | b l ]];
        [ destruct Hid | destruct Hid | reflexivity ].
Qed.

Lemma performWeeklyCleanup_unfold (now : Z) (store : Analytics.Store) :
  Analytics.performWeeklyCleanup now store
  = Analytics.deleteByIds
      (concat (map (fun g => tl (snd g))
                 (Analytics.duplicateGroups (retained now store))))
      (retained now store).
Proof.
  unfold Analytics.performWeeklyCleanup. cbv zeta. fold (retained now store).
  apply deleteByIds_fold.
Qed.

Lemma idsOfKey_owner (store : Analytics.Store) (d : Analytics.doc)
    (k : Analytics.groupKey) :
  NoDup (map Analytics.docId store) -> In d store ->
  In (Analytics.docId d) (idsOfKey k store) -> k = Analytics.keyOf d.
Proof.
  intros Hnd Hd Hin. unfold idsOfKey in Hin. apply in_map_iff in Hin.
  destruct Hin as [x [Hid Hx]]. apply filter_In in Hx. destruct Hx as [Hx Hk].
  apply keyEqb_eq in Hk. subst k. f_equal.
  clear - Hnd Hd Hx Hid.
  induction store as [ | a l IH ]; [ destruct Hd | ].
  simpl in Hnd. inversion Hnd as [ | ? ? Hnotin Hl ]; subst.
  destruct Hd as [-> | Hd], Hx as [-> | Hx]; auto.
  - exfalso. apply Hnotin. rewrite <- Hid. apply in_map. exact Hx.
  - exfalso. apply Hnotin. rewrite Hid. apply in_map. exact Hd.
Qed.

Lemma find_is_head_of_filter {A : Type} (p : A -> bool) (l : list A) :
  find p l = hd_error (filter p l).
Proof.
  induction l as [ | a l IH ]; simpl; [ reflexivity | ].
  destruct (p a); [ reflexivity | exact IH ].
Qed.

Lemma first_iff_not_in_tail (store : Analytics.Store) (d : Analytics.doc) :
  NoDup (map Analytics.docId store) -> In d store ->
  (firstOfMedia store d = Some d
   <-> ~ In (Analytics.docId d) (tl (idsOfKey (Analytics.keyOf d) store))).
Proof.
  intros Hnd Hd. unfold firstOfMedia, idsOfKey.
  rewrite find_is_head_of_filter.
  set (p := fun x => Analytics.keyEqb (Analytics.keyOf x) (Analytics.keyOf d)).
  assert (HdF : In d (filter p store))
    by (apply filter_In; split; [ exact Hd | apply keyEqb_refl ]).
  pose proof (filtered_keys_NoDup Analytics.docId p store Hnd) as HndF.
  destruct (filter p store) as [ | h T ]; [ destruct HdF | ].
  cbn [hd_error map tl] in *. inversion HndF as [ | ? ? Hh HT ]; subst.
  split.
  - intros E. injection E as ->. exact Hh.
  - intros Hnot. destruct HdF as [-> | HdT]; [ reflexivity | ].
    exfalso. apply Hnot. apply in_map. exact HdT.
Qed.

Lemma existsb_eqb_In (id : nat) (ids : list nat) :
  existsb (Nat.eqb id) ids = true <-> In id ids.
Proof.
  rewrite existsb_exists. split.
  - intros [x [Hx E]]. apply Nat.eqb_eq in E. subst x. exact Hx.
  - intros H. exists id. split; [ exact H | apply Nat.eqb_refl ].
Qed.

Lemma cleanup_member (now : Z) (store : Analytics.Store) (d : Analytics.doc) :
  NoDup (map Analytics.docId store) ->
  (In d (Analytics.performWeeklyCleanup now store)
   <-> In d (retained now store) /\ firstOfMedia (retained now store) d = Some d).
Proof.
  intros Hnd.
  assert (HndR : NoDup (map Analytics.docId (retained now store)))
    by (apply filtered_keys_NoDup; exact Hnd).
  rewrite performWeeklyCleanup_unfold. unfold Analytics.deleteByIds.
  rewrite filter_In, negb_true_iff.
  split; intros [Hin H]; (split; [ exact Hin | ]).
  - apply first_iff_not_in_tail; [ exact HndR | exact Hin | ].
    intros Htail.
    assert (Hd : existsb (Nat.eqb (Analytics.docId d))
                   (concat (map (fun g => tl (snd g))
                      (Analytics.duplicateGroups (retained now store)))) = true).
    { apply existsb_eqb_In. apply doomed_iff.
      exists (Analytics.keyOf d). exact Htail. }
    congruence.
  - destruct (existsb _ _) eqn:E; [ | reflexivity ].
    apply existsb_eqb_In in E. apply doomed_iff in E. destruct E as [k Hk].
    assert (k = Analytics.keyOf d).
    { apply (idsOfKey_owner (retained now store)); auto.
      destruct (idsOfKey k (retained now store)); [ destruct Hk | ].
      right. exact Hk. }
    subst k. exfalso.
    apply (first_iff_not_in_tail (retained now store) d HndR Hin); assumption.
Qed.

(** X16. After the weekly cleanup of a collection with unique document ids, a
    document is left exactly when the first deletion retained it (it is
    active or at most ninety days old) and it is the first retained
    document of its media in scan order.  So no two documents of one media
    are left, every media that had a retained document keeps one, and
    growth computation on a document that is left finds no earlier record
    to diff against and changes nothing. *)
Theorem performWeeklyCleanup_leaves_first_of_each_media
    (now : Z) (store : Analytics.Store) :
  NoDup (map Analytics.docId store) ->
  let kept := Analytics.performWeeklyCleanup now store in
  (forall d, In d kept <->
     In d (retained now store) /\ firstOfMedia (retained now store) d = Some d)
  /\ (forall d1 d2, In d1 kept -> In d2 kept ->
        Analytics.keyOf d1 = Analytics.keyOf d2 -> d1 = d2)
  /\ (forall d, In d (retained now store) ->
        exists d', In d' kept /\ Analytics.keyOf d' = Analytics.keyOf d)
  /\ (forall d, In d kept ->
        Analytics.findPrevious kept d = None
        /\ fst (Analytics.calculateGrowthRates kept d) = d).
Proof.
  intros Hnd. cbv zeta.
  pose proof (fun d => cleanup_member now store d Hnd) as Hmem.
  assert (Hone : forall d1 d2,
             In d1 (Analytics.performWeeklyCleanup now store) ->
             In d2 (Analytics.performWeeklyCleanup now store) ->
             Analytics.keyOf d1 = Analytics.keyOf d2 -> d1 = d2).
  { intros d1 d2 H1 H2 Hk. apply Hmem in H1, H2.
    destruct H1 as [_ H1], H2 as [_ H2]. unfold firstOfMedia in H1, H2.
    rewrite Hk in H1. congruence. }
  split; [ exact Hmem | ]. split; [ exact Hone | ]. split.
  - intros d Hd.
    destruct (firstOfMedia (retained now store) d) as [d' | ] eqn:E.
    + unfold firstOfMedia in E. pose proof (find_some _ _ E) as [Hin Hk].
      apply keyEqb_eq in Hk. exists d'. split; [ | exact Hk ].
      apply Hmem. split; [ exact Hin | ]. unfold firstOfMedia. rewrite Hk.
      exact E.
    + unfold firstOfMedia in E. pose proof (find_none _ _ E d Hd) as H.
      cbv beta in H. rewrite keyEqb_refl in H. discriminate H.
  - intros d Hd.
    assert (Hnone : Analytics.findPrevious
                      (Analytics.performWeeklyCleanup now store) d = None).
    { unfold Analytics.findPrevious.
      match goal with |- Analytics.latest ?l = None =>
        assert (Hnil : l = []); [ | rewrite Hnil; reflexivity ] end.
      apply filter_nil_iff. intros x Hx.
      destruct (Analytics.sameMedia x d) eqn:Hs; [ | reflexivity ].
      assert (x = d) by (apply Hone; auto; apply keyEqb_eq; exact Hs).
      subst x. rewrite Z.ltb_irrefl. reflexivity. }
    split; [ exact Hnone | ].
    unfold Analytics.calculateGrowthRates, Analytics.withGrowthRates.
    cbn [fst]. rewrite Hnone. reflexivity.
Qed.

Lemma performWeeklyCleanup_leaves_first_of_each_media_witness :
  NoDup (map Analytics.docId
           [mediaRecord 1 100 (hours 1) true; mediaRecord 2 600 (hours 13) true])
  /\ forall d1 d2,
       In d1 (Analytics.performWeeklyCleanup (hours 24)
                [mediaRecord 1 100 (hours 1) true; mediaRecord 2 600 (hours 13) true]) ->
       In d2 (Analytics.performWeeklyCleanup (hours 24)
                [mediaRecord 1 100 (hours 1) true; mediaRecord 2 600 (hours 13) true]) ->
       Analytics.keyOf d1 = Analytics.keyOf d2 -> d1 = d2.
Proof.
  assert (Hids : NoDup (map Analytics.docId
                          [mediaRecord 1 100 (hours 1) true;
                           mediaRecord 2 600 (hours 13) true])).
  { constructor; [ simpl; intros [H | []]; discriminate H | ].
    constructor; [ intros [] | constructor ]. }
  split; [ exact Hids | ].
  exact (proj1 (proj2 (performWeeklyCleanup_leaves_first_of_each_media (hours 24)
            [mediaRecord 1 100 (hours 1) true; mediaRecord 2 600 (hours 13) true]
            Hids))).
Defined.

(** ** Storing fetched analytics *)

Lemma analytics_docId_injective (store : Analytics.Store) (x y : Analytics.doc) :
  NoDup (map Analytics.docId store) -> In x store -> In y store ->
  Analytics.docId x = Analytics.docId y -> x = y.
Proof.
  induction store as [ | d l IH ]; simpl; [ intros _ [] | ].
  intros Hnd Hx Hy E. inversion Hnd as [ | ? ? Hnotin Hl ]; subst.
  destruct Hx as [-> | Hx], Hy as [-> | Hy]; auto.
  - exfalso. apply Hnotin. rewrite E. apply in_map. exact Hy.
  - exfalso. apply Hnotin. rewrite <- E. apply in_map. exact Hx.
Qed.

Lemma sameMedia_fields (a b : Analytics.doc) :
  Analytics.sameMedia a b = true
  <-> Analytics.userId a = Analytics.userId b
      /\ Analytics.platform a = Analytics.platform b
      /\ Analytics.mediaId a = Analytics.mediaId b.
Proof.
  unfold Analytics.sameMedia. rewrite !andb_true_iff, !String.eqb_eq. tauto.
Qed.

Lemma findPrevious_none_single (store : Analytics.Store) (d : Analytics.doc) :
  oneActivePerMedia store -> In d store -> Analytics.isActive d = true ->
  Analytics.findPrevious store d = None.
Proof.
  intros [_ Hone] Hd Hact. unfold Analytics.findPrevious.
  match goal with |- Analytics.latest ?l = None =>
    assert (Hnil : l = []); [ | rewrite Hnil; reflexivity ] end.
  apply filter_nil_iff. intros x Hx.
  destruct (Analytics.sameMedia x d) eqn:Hs; [ | reflexivity ].
  destruct (Analytics.isActive x) eqn:Hax; [ | apply andb_false_r ].
  rewrite (Hone x d Hx Hd Hax Hact Hs), Z.ltb_irrefl. reflexivity.
Qed.

Lemma withGrowthRates_single (store : Analytics.Store) (d : Analytics.doc) :
  oneActivePerMedia store -> In d store -> Analytics.isActive d = true ->
  Analytics.withGrowthRates store d = d.
Proof.
  intros Hok Hd Hact. unfold Analytics.withGrowthRates.
  rewrite (findPrevious_none_single store d Hok Hd Hact). reflexivity.
Qed.

Lemma save_existing (d' e : Analytics.doc) (store : Analytics.Store) :
  In e store -> Analytics.docId d' = Analytics.docId e ->
  Analytics.save d' store
  = map (fun x => if Nat.eqb (Analytics.docId x) (Analytics.docId d') then d' else x)
        store.
Proof.
  intros He Hid. unfold Analytics.save.
  assert (H : existsb (fun x => Nat.eqb (Analytics.docId x) (Analytics.docId d'))
                      store = true).
  { apply existsb_exists. exists e. split; [ exact He | ].
    rewrite Hid. apply Nat.eqb_refl. }
  rewrite H. reflexivity.
Qed.

Lemma freshAnalyticsId_unused (store : Analytics.Store) :
  ~ In (freshAnalyticsId store) (map Analytics.docId store).
Proof.
  assert (H : forall d, In d store ->
                        (Analytics.docId d < freshAnalyticsId store)%nat).
  { unfold freshAnalyticsId. induction store as [ | a l IH ]; simpl;
      [ intros d [] | ].
    intros d [<- | Hd]; [ lia | ]. specialize (IH d Hd). lia. }
  intros Hin. apply in_map_iff in Hin. destruct Hin as [d [Hid Hd]].
  specialize (H d Hd). lia.
Qed.

Lemma save_new (n : Analytics.doc) (store : Analytics.Store) :
  ~ In (Analytics.docId n) (map Analytics.docId store) ->
  Analytics.save n store = store ++ [n].
Proof.
  intros Hnew. unfold Analytics.save.
  destruct (existsb (fun x => Nat.eqb (Analytics.docId x) (Analytics.docId n)) store)
    eqn:E; [ | reflexivity ].
  exfalso. apply Hnew. apply existsb_exists in E. destruct E as [x [Hx Hid]].
  apply Nat.eqb_eq in Hid. rewrite <- Hid. apply in_map. exact Hx.
Qed.

Section AnalyticsStoringFacts.

Variable before : Analytics.Store.

Lemma growthUntouched_same (d' e : Analytics.doc) :
  sameButMetrics d' e -> growthUntouched before e -> growthUntouched before d'.
Proof.
  intros [Hid [_ [_ [_ [_ Hperf]]]]] [[d [Hd [Hde Hp]]] | Hz].
  - left. exists d. split; [ exact Hd | ]. split; congruence.
  - right. congruence.
Qed.

Lemma save_replace_inv (store : Analytics.Store) (d' e : Analytics.doc) :
  syncInv before store -> In e store -> sameButMetrics d' e ->
  syncInv before (Analytics.save d' store) /\ In d' (Analytics.save d' store).
Proof.
  intros [[Hnd Hone] Hall] He Hsame.
  pose proof Hsame as [Hid [Hu [Hp [Hm [Hact Hperf]]]]].
  rewrite (save_existing d' e store He Hid).
  set (f := fun x => if Nat.eqb (Analytics.docId x) (Analytics.docId d')
                     then d' else x).
  assert (Hf : forall x, In x store ->
             sameButMetrics (f x) x).
  { intros x Hx. unfold f. rewrite Hid.
    destruct (Nat.eqb_spec (Analytics.docId x) (Analytics.docId e)) as [E | E].
    - rewrite (analytics_docId_injective store x e Hnd Hx He E). exact Hsame.
    - repeat split. }
  assert (Hfinj : forall x y, In x store -> In y store -> x = y -> f x = f y)
    by (intros; congruence).
  split; [ split; [ split | ] | ].
  - rewrite map_map. rewrite (map_ext_in _ Analytics.docId); [ exact Hnd | ].
    intros x Hx. apply (Hf x Hx).
  - intros d1 d2 H1 H2 Ha1 Ha2 Hs.
    apply in_map_iff in H1, H2.
    destruct H1 as [o1 [<- Ho1]], H2 as [o2 [<- Ho2]].
    destruct (Hf o1 Ho1) as [_ [Hu1 [Hp1 [Hm1 [Hac1 _]]]]].
    destruct (Hf o2 Ho2) as [_ [Hu2 [Hp2 [Hm2 [Hac2 _]]]]].
    apply Hfinj; auto. apply Hone; auto; try congruence.
    apply sameMedia_fields in Hs. apply sameMedia_fields.
    destruct Hs as [A [B C]]. repeat split; congruence.
  - apply Forall_forall. intros x Hx. apply in_map_iff in Hx.
    destruct Hx as [o [<- Ho]].
    apply (growthUntouched_same (f o) o (Hf o Ho)).
    rewrite Forall_forall in Hall. exact (Hall o Ho).
  - apply in_map_iff. exists e. split; [ | exact He ].
    unfold f. rewrite Hid, Nat.eqb_refl. reflexivity.
Qed.

Lemma save_new_inv (store : Analytics.Store) (n : Analytics.doc) :
  syncInv before store ->
  Analytics.docId n = freshAnalyticsId store ->
  Analytics.isActive n = true ->
  Analytics.performance n = zeroGrowth ->
  (forall d, In d store -> Analytics.isActive d = true ->
             Analytics.sameMedia d n = false) ->
  syncInv before (Analytics.save n store) /\ In n (Analytics.save n store).
Proof.
  intros [[Hnd Hone] Hall] Hid Hact Hperf Hnone.
  assert (Hnew : ~ In (Analytics.docId n) (map Analytics.docId store))
    by (rewrite Hid; apply freshAnalyticsId_unused).
  rewrite (save_new n store Hnew).
  split; [ | apply in_or_app; right; left; reflexivity ].
  split; [ split | ].
  - rewrite map_app. apply NoDup_snoc; assumption.
  - intros d1 d2 H1 H2 Ha1 Ha2 Hs.
    apply in_app_or in H1, H2.
    destruct H1 as [H1 | [<- | []]], H2 as [H2 | [<- | []]].
    + apply Hone; assumption.
    + rewrite (Hnone d1 H1 Ha1) in Hs. discriminate Hs.
    + assert (Hs' : Analytics.sameMedia d2 n = true).
      { apply sameMedia_fields in Hs. apply sameMedia_fields.
        destruct Hs as [A [B C]]. repeat split; congruence. }
      rewrite (Hnone d2 H2 Ha2) in Hs'. discriminate Hs'.
    + reflexivity.
  - apply Forall_app. split; [ exact Hall | ].
    constructor; [ right; exact Hperf | constructor ].
Qed.

Variable accept : Analytics.doc -> bool.

Lemma growthRatesJob_inv (store : Analytics.Store) (d : Analytics.doc) :
  syncInv before store -> In d store -> Analytics.isActive d = true ->
  syncInv before (storeAfter (growthRatesJob accept d store))
  /\ match resultOf (growthRatesJob accept d store) with
     | Returned final => final = d
     | Thrown _ => True
     end.
Proof.
  intros Hinv Hd Hact. unfold growthRatesJob. cbv zeta.
  rewrite (withGrowthRates_single store d (proj1 Hinv) Hd Hact).
  unfold bind, saveAnalytics, ret, storeAfter, resultOf.
  destruct (accept d); cbn [fst snd]; [ | split; [ exact Hinv | exact I ] ].
  split; [ | reflexivity ].
  apply (save_replace_inv store d d Hinv Hd). repeat split.
Qed.

Lemma findByMediaId_some (store : Analytics.Store) (user plat media : string)
    (e : Analytics.doc) :
  findByMediaId store user plat media = Some e ->
  In e store /\ Analytics.isActive e = true.
Proof.
  unfold findByMediaId. intros H.
  match type of H with Analytics.latest ?l = _ =>
    pose proof (latest_spec l) as Hs; rewrite H in Hs end.
  destruct Hs as [Hin _]. apply filter_In in Hin. destruct Hin as [Hin Hc].
  apply andb_true_iff in Hc. split; [ exact Hin | exact (proj2 Hc) ].
Qed.

Lemma findByMediaId_none (store : Analytics.Store) (user plat media : string) :
  findByMediaId store user plat media = None ->
  forall d, In d store -> Analytics.isActive d = true ->
            Analytics.userId d = user -> Analytics.platform d = plat ->
            Analytics.mediaId d = media -> False.
Proof.
  unfold findByMediaId. intros H d Hd Hact Hu Hp Hm.
  match type of H with Analytics.latest ?l = _ =>
    pose proof (latest_spec l) as Hs; rewrite H in Hs end.
  pose proof (proj1 (filter_nil_iff _ _) Hs d Hd) as Hc. cbv beta in Hc.
  rewrite Hu, Hp, Hm, Hact, !String.eqb_refl in Hc. discriminate Hc.
Qed.

Lemma storeEachAnalytics_inv (now : Z) (user plat : string)
    (items : list AnalyticsItem) :
  forall (acc : list Analytics.doc) (store : Analytics.Store),
    syncInv before store ->
    syncInv before (storeAfter (storeEachAnalytics accept now user plat items acc store)).
Proof.
  induction items as [ | data rest IH ]; intros acc store Hinv; [ exact Hinv | ].
  cbn [storeEachAnalytics]. unfold bind at 1. unfold getStore.
  destruct (findByMediaId store user plat (item_mediaId data)) as [e | ] eqn:Hfind.
  - destruct (findByMediaId_some _ _ _ _ _ Hfind) as [He Hact].
    set (d1 := setMetrics e (item_metrics data)).
    unfold bind at 1. unfold updateMetrics. cbv zeta. fold d1.
    unfold bind at 1. unfold saveAnalytics at 1.
    destruct (accept d1); [ | exact Hinv ].
    unfold ret at 1.
    destruct (save_replace_inv store d1 e Hinv He) as [Hinv1 Hd1];
      [ repeat split | ].
    pose proof (growthRatesJob_inv (Analytics.save d1 store) d1 Hinv1 Hd1 Hact)
      as [Hinv2 Hres].
    unfold bind at 1. unfold storeAfter, resultOf in Hinv2, Hres.
    destruct (growthRatesJob accept d1 (Analytics.save d1 store))
      as [[final | err] store2]; cbn [fst snd] in Hinv2, Hres.
    + apply IH. exact Hinv2.
    + exact Hinv2.
  - set (n := newAnalytics now (freshAnalyticsId store) user plat data).
    unfold bind at 1. unfold saveAnalytics at 1.
    destruct (accept n); [ | exact Hinv ].
    destruct (save_new_inv store n Hinv eq_refl eq_refl eq_refl) as [Hinv1 Hn].
    { intros d Hd Hact.
      destruct (Analytics.sameMedia d n) eqn:Hs; [ | reflexivity ].
      exfalso. apply sameMedia_fields in Hs. destruct Hs as [A [B C]].
      exact (findByMediaId_none _ _ _ _ Hfind d Hd Hact A B C). }
    pose proof (growthRatesJob_inv (Analytics.save n store) n Hinv1 Hn eq_refl)
      as [Hinv2 Hres].
    unfold bind at 1. unfold storeAfter, resultOf in Hinv2, Hres.
    destruct (growthRatesJob accept n (Analytics.save n store))
      as [[final | err] store2]; cbn [fst snd] in Hinv2, Hres.
    + apply IH. exact Hinv2.
    + exact Hinv2.
Qed.

End AnalyticsStoringFacts.

(** X17. On a collection with unique ids and at most one active document per
    media, [storeAnalyticsData], returned or thrown and whatever saves are
    refused, keeps both properties, and it never computes a growth: every
    document it leaves has the growth buckets it had before, and a
    document it created has the zero defaults, because the one active
    document of a media has no earlier record to diff against. *)
Theorem storeAnalyticsData_never_sets_growth
    (accept : Analytics.doc -> bool) (now : Z) (user plat : string)
    (items : list AnalyticsItem) (store : Analytics.Store) :
  oneActivePerMedia store ->
  let store' := storeAfter (storeAnalyticsData accept now user plat items store) in
  oneActivePerMedia store'
  /\ forall d', In d' store' -> growthUntouched store d'.
Proof.
  intros Hok. cbv zeta. unfold storeAnalyticsData. rewrite storeAfter_rethrow.
  destruct (storeEachAnalytics_inv store accept now user plat items [] store)
    as [Hok' Hall].
  - split; [ exact Hok | ]. apply Forall_forall. intros d Hd.
    left. exists d. repeat split. exact Hd.
  - split; [ exact Hok' | ]. apply Forall_forall. exact Hall.
Qed.

Lemma storeAnalyticsData_never_sets_growth_witness :
  oneActivePerMedia
    (storeAfter
       (storeAnalyticsData (fun _ => true) (hours 30) "u1" "instagram"
          [ {| item_mediaId := "m1"; item_timestamp := hours 30;
               item_metrics := {| Analytics.views := 900; Analytics.likes := 9;
                                  Analytics.comments := 0; Analytics.shares := 0 |} |} ]
          [mediaRecord 1 100 0 true])).
Proof.
  refine (proj1 (storeAnalyticsData_never_sets_growth (fun _ => true) (hours 30)
                   "u1" "instagram" _ [mediaRecord 1 100 0 true] _)).
  split.
  - constructor; [ intros [] | constructor ].
  - intros d1 d2 [<- | []] [<- | []] _ _ _. reflexivity.
Defined.

(** The sync of a media that is already stored, eighteen hours after its
    first record: the metrics are replaced in the one document of the
    media and its daily growth stays 0. *)
Example resync_updates_in_place :
  map (fun d => (Analytics.views (Analytics.metrics d),
                 Analytics.dailyGrowth (Analytics.performance d)))
    (storeAfter
       (storeAnalyticsData (fun _ => true) (hours 18) "u1" "instagram"
          [ {| item_mediaId := "m1"; item_timestamp := hours 18;
               item_metrics := {| Analytics.views := 900; Analytics.likes := 9;
                                  Analytics.comments := 0; Analytics.shares := 0 |} |} ]
          [mediaRecord 1 100 0 true]))
  = [(900, 0)].
Proof. vm_compute. reflexivity. Qed.

(** ** Registries of timers *)

Lemma mapGet_In (key : string) (id : nat) (m : list (string * nat)) :
  mapGet key m = Some id -> In (key, id) m.
Proof.
  unfold mapGet. destruct (find (fun e => String.eqb (fst e) key) m)
    as [[k v] | ] eqn:E; [ | discriminate ].
  intros H. injection H as <-. apply find_some in E. destruct E as [Hin Hk].
  simpl in Hk. apply String.eqb_eq in Hk. subst k. exact Hin.
Qed.

Lemma mapGet_None (key : string) (m : list (string * nat)) :
  mapGet key m = None <-> ~ In key (map fst m).
Proof.
  unfold mapGet. induction m as [ | [k v] rest IH ]; simpl.
  - split; [ intros _ [] | reflexivity ].
  - destruct (String.eqb_spec k key) as [E | E].
    + split; [ discriminate | intros H; exfalso; apply H; left; exact E ].
    + rewrite IH. split; [ intros H [H' | H']; auto | intros H H'; apply H; auto ].
Qed.

Lemma mapSet_absent (key : string) (id : nat) (m : list (string * nat)) :
  ~ In key (map fst m) -> mapSet key id m = m ++ [(key, id)].
Proof.
  induction m as [ | [k v] rest IH ]; simpl; intros H; [ reflexivity | ].
  destruct (String.eqb_spec k key) as [E | E].
  - exfalso. apply H. left. exact E.
  - rewrite IH; [ reflexivity | ]. intros H'. apply H. right. exact H'.
Qed.

Lemma mapSet_keys (key : string) (id : nat) (m : list (string * nat)) :
  In key (map fst m) -> map fst (mapSet key id m) = map fst m.
Proof.
  induction m as [ | [k v] rest IH ]; simpl; [ intros [] | ].
  destruct (String.eqb_spec k key) as [E | E]; [ reflexivity | ].
  intros [H | H]; [ contradiction | ]. simpl. rewrite IH by exact H. reflexivity.
Qed.

Lemma mapSet_values (key : string) (new old : nat) (m : list (string * nat)) :
  NoDup (map fst m) -> NoDup (map snd m) -> mapGet key m = Some old ->
  forall id, In id (map snd (mapSet key new m))
             <-> id = new \/ (In id (map snd m) /\ id <> old).
Proof.
  unfold mapGet. induction m as [ | [k v] rest IH ]; simpl;
    [ discriminate | ].
  intros Hk Hv Hget id.
  inversion Hk as [ | ? ? Hknot Hk' ]; subst.
  inversion Hv as [ | ? ? Hvnot Hv' ]; subst.
  destruct (String.eqb_spec k key) as [E | E].
  - injection Hget as ->. simpl. split.
    + intros [H | H]; [ left; auto | right ].
      split; [ right; exact H | intros ->; contradiction ].
    + intros [-> | [[H | H] Hne]]; [ left; reflexivity | congruence | right; exact H ].
  - simpl. rewrite (IH Hk' Hv' Hget id).
    assert (Hold : In old (map snd rest)).
    { destruct (find (fun e => String.eqb (fst e) key) rest) as [[k' v'] | ] eqn:F;
        [ | discriminate ].
      injection Hget as <-. apply find_some in F. destruct F as [F _].
      apply in_map_iff. exists (k', v'). split; [ reflexivity | exact F ]. }
    split.
    + intros [H | [H | [H Hne]]]; auto.
      right. split; [ left; exact H | intros ->; subst; contradiction ].
    + intros [H | [[H | H] Hne]]; auto.
Qed.

Lemma mapSet_values_NoDup (key : string) (new : nat) (m : list (string * nat)) :
  NoDup (map snd m) -> ~ In new (map snd m) ->
  NoDup (map snd (mapSet key new m)).
Proof.
  induction m as [ | [k v] rest IH ]; simpl; intros Hv Hnew.
  - constructor; [ intros [] | constructor ].
  - inversion Hv as [ | ? ? Hvnot Hv' ]; subst.
    destruct (String.eqb k key); simpl.
    + constructor; [ intros H; apply Hnew; right; exact H | exact Hv' ].
    + constructor; [ | apply IH; [ exact Hv' | intros H; apply Hnew; right; exact H ] ].
      intros H. clear IH Hv.
      assert (Hsub : forall x, In x (map snd (mapSet key new rest)) ->
                               x = new \/ In x (map snd rest)).
      { clear. induction rest as [ | [k' v'] r IHr ]; simpl.
        - intros x [H | []]; auto.
        - destruct (String.eqb k' key); simpl.
          + intros x [H | H]; auto.
          + intros x [H | H]; auto. destruct (IHr x H); auto. }
      destruct (Hsub v H) as [-> | H']; [ apply Hnew; left; reflexivity | ].
      contradiction.
Qed.

Lemma stopTimer_ids (id : nat) (ts : list Timer) :
  map timerId (stopTimer id ts) = map timerId ts.
Proof.
  unfold stopTimer. rewrite map_map. apply map_ext. intros t.
  destruct (Nat.eqb (timerId t) id); reflexivity.
Qed.

Lemma stopTimer_In (id : nat) (ts : list Timer) (t' : Timer) :
  In t' (stopTimer id ts) ->
  exists t, In t ts /\ timerId t' = timerId t
            /\ (timerId t = id -> timerLive t' = false)
            /\ (timerId t <> id -> t' = t).
Proof.
  unfold stopTimer. intros H. apply in_map_iff in H. destruct H as [t [<- Ht]].
  exists t. split; [ exact Ht | ].
  destruct (Nat.eqb_spec (timerId t) id) as [E | E]; simpl.
  - split; [ reflexivity | ]. split; [ reflexivity | contradiction ].
  - split; [ reflexivity | ]. split; [ contradiction | reflexivity ].
Qed.

Lemma freshTimerId_unused (ts : list Timer) : ~ In (freshTimerId ts) (map timerId ts).
Proof.
  assert (H : forall t, In t ts -> (timerId t < freshTimerId ts)%nat).
  { unfold freshTimerId. induction ts as [ | a l IH ]; simpl; [ intros t [] | ].
    intros t [<- | Ht]; [ lia | ]. specialize (IH t Ht). lia. }
  intros Hin. apply in_map_iff in Hin. destruct Hin as [t [Hid Ht]].
  specialize (H t Ht). lia.
Qed.

Lemma registryOk_empty : registryOk emptyRegistry.
Proof.
  unfold registryOk, emptyRegistry. simpl.
  split; [ constructor | ]. split; [ constructor | ]. split; [ constructor | ].
  split; [ intros id [] | intros t [] ].
Qed.

(** A new timer stored under a key the map does not hold. *)
Lemma registryOk_startTimerAs_new (key spec : string) (r : Registry) :
  registryOk r -> ~ In key (map fst (entries r)) ->
  registryOk (startTimerAs key spec r).
Proof.
  intros [Hk [Hv [Ht [Hsub Hlive]]]] Hnew.
  pose proof (freshTimerId_unused (timers r)) as Hfresh.
  unfold registryOk, startTimerAs. cbn [entries timers].
  rewrite (mapSet_absent _ _ _ Hnew), !map_app. cbn [map fst snd timerId].
  split; [ apply NoDup_snoc; assumption | ].
  split; [ apply NoDup_snoc; [ exact Hv | intros H; apply Hfresh, Hsub, H ] | ].
  split; [ apply NoDup_snoc; assumption | ].
  split.
  - intros id H. apply in_app_or in H. apply in_or_app.
    destruct H as [H | H]; [ left; apply Hsub; exact H | right; exact H ].
  - intros t H. apply in_app_or in H. destruct H as [H | [<- | []]].
    + rewrite (Hlive t H). split; intros H'.
      * apply in_or_app. left. exact H'.
      * apply in_app_or in H'. destruct H' as [H' | [H' | []]]; [ exact H' | ].
        exfalso. apply Hfresh. rewrite H'. apply in_map. exact H.
    + cbn [timerLive timerId]. split; [ | reflexivity ].
      intros _. apply in_or_app. right. left. reflexivity.
Qed.

(** The timer of a key is stopped and a new one takes its place. *)
Lemma registryOk_restart (key spec : string) (r : Registry) :
  registryOk r -> registryOk (startTimerAs key spec (stopTimerOf key r)).
Proof.
  intros Hok. unfold stopTimerOf.
  destruct (mapGet key (entries r)) as [old | ] eqn:Hget;
    [ | apply registryOk_startTimerAs_new; [ exact Hok | ];
        apply mapGet_None; exact Hget ].
  destruct Hok as [Hk [Hv [Ht [Hsub Hlive]]]].
  pose proof (mapGet_In _ _ _ Hget) as Hentry.
  assert (Hkey : In key (map fst (entries r)))
    by (apply in_map_iff; exists (key, old); split; [ reflexivity | exact Hentry ]).
  assert (Holdid : In old (map snd (entries r)))
    by (apply in_map_iff; exists (key, old); split; [ reflexivity | exact Hentry ]).
  unfold registryOk, startTimerAs. cbn [entries timers].
  set (new := freshTimerId (stopTimer old (timers r))).
  assert (Hfresh : ~ In new (map timerId (timers r))).
  { unfold new. rewrite <- (stopTimer_ids old (timers r)).
    apply freshTimerId_unused. }
  assert (Hnewv : ~ In new (map snd (entries r)))
    by (intros H; apply Hfresh, Hsub, H).
  pose proof (mapSet_values key new old (entries r) Hk Hv Hget) as Hvals.
  rewrite (mapSet_keys _ _ _ Hkey), map_app, stopTimer_ids.
  cbn [map timerId].
  split; [ exact Hk | ].
  split; [ apply mapSet_values_NoDup; assumption | ].
  split; [ apply NoDup_snoc; assumption | ].
  split.
  - intros id H. apply Hvals in H. apply in_or_app.
    destruct H as [-> | [H _]]; [ right; left; reflexivity | left; apply Hsub; exact H ].
  - intros t H. apply in_app_or in H. destruct H as [H | [<- | []]].
    + apply stopTimer_In in H. destruct H as [t0 [Ht0 [Hid [Hstop Hsame]]]].
      rewrite Hid, Hvals.
      destruct (Nat.eq_dec (timerId t0) old) as [E | E].
      * rewrite (Hstop E). split; [ discriminate | ].
        intros [H | [_ H]]; [ | contradiction ].
        exfalso. apply Hfresh. rewrite <- H. apply in_map. exact Ht0.
      * rewrite (Hsame E), (Hlive t0 Ht0). split.
        -- intros H. right. split; assumption.
        -- intros [H | [H _]]; [ | exact H ].
           exfalso. apply Hfresh. rewrite <- H. apply in_map. exact Ht0.
    + cbn [timerLive timerId]. split; [ | reflexivity ].
      intros _. apply Hvals. left. reflexivity.
Qed.

Lemma mapDelete_In (key : string) (m : list (string * nat)) (e : string * nat) :
  In e (mapDelete key m) <-> In e m /\ fst e <> key.
Proof.
  unfold mapDelete. rewrite filter_In, negb_true_iff.
  destruct (String.eqb_spec (fst e) key); split; intros [H1 H2]; split;
    congruence.
Qed.

Lemma entry_unique (m : list (string * nat)) (k : string) (a b : nat) :
  NoDup (map fst m) -> In (k, a) m -> In (k, b) m -> a = b.
Proof.
  induction m as [ | [k0 v0] rest IH ]; simpl; [ intros _ [] | ].
  intros Hnd Ha Hb. inversion Hnd as [ | ? ? Hnot Hrest ]; subst.
  destruct Ha as [Ha | Ha], Hb as [Hb | Hb].
  - congruence.
  - injection Ha as -> ->. exfalso. apply Hnot.
    apply in_map_iff. exists (k, b). split; [ reflexivity | exact Hb ].
  - injection Hb as -> ->. exfalso. apply Hnot.
    apply in_map_iff. exists (k, a). split; [ reflexivity | exact Ha ].
  - apply IH; assumption.
Qed.

Lemma value_unique (m : list (string * nat)) (k1 k2 : string) (v : nat) :
  NoDup (map snd m) -> In (k1, v) m -> In (k2, v) m -> k1 = k2.
Proof.
  induction m as [ | [k0 v0] rest IH ]; simpl; [ intros _ [] | ].
  intros Hnd Ha Hb. inversion Hnd as [ | ? ? Hnot Hrest ]; subst.
  destruct Ha as [Ha | Ha], Hb as [Hb | Hb].
  - congruence.
  - injection Ha as -> ->. exfalso. apply Hnot.
    apply in_map_iff. exists (k2, v). split; [ reflexivity | exact Hb ].
  - injection Hb as -> ->. exfalso. apply Hnot.
    apply in_map_iff. exists (k1, v). split; [ reflexivity | exact Ha ].
  - apply IH; assumption.
Qed.

Lemma registryOk_stopAutoSync (userId : string) (r : Registry) :
  registryOk r -> registryOk (stopAutoSync userId r).
Proof.
  intros Hok. unfold stopAutoSync.
  destruct (mapGet userId (entries r)) as [old | ] eqn:Hget; [ | exact Hok ].
  destruct Hok as [Hk [Hv [Ht [Hsub Hlive]]]].
  pose proof (mapGet_In _ _ _ Hget) as Hentry.
  assert (Hids : forall id, In id (map snd (mapDelete userId (entries r)))
                            <-> In id (map snd (entries r)) /\ id <> old).
  { intros id. rewrite !in_map_iff. split.
    - intros [[k v] [Hid He]]. simpl in Hid. subst v.
      apply mapDelete_In in He. destruct He as [He Hne]. simpl in Hne.
      split; [ exists (k, id); split; [ reflexivity | exact He ] | ].
      intros ->. apply Hne. exact (value_unique _ _ _ _ Hv He Hentry).
    - intros [[[k v] [Hid He]] Hne]. simpl in Hid. subst v.
      exists (k, id). split; [ reflexivity | ].
      apply mapDelete_In. split; [ exact He | ]. simpl. intros ->.
      apply Hne. exact (entry_unique _ _ _ _ Hk He Hentry). }
  unfold registryOk. cbn [entries timers]. rewrite stopTimer_ids.
  split; [ apply filtered_keys_NoDup; exact Hk | ].
  split; [ apply filtered_keys_NoDup; exact Hv | ].
  split; [ exact Ht | ].
  split; [ intros id H; apply Hids in H; apply Hsub; exact (proj1 H) | ].
  intros t H. apply stopTimer_In in H.
  destruct H as [t0 [Ht0 [Hid [Hstop Hsame]]]]. rewrite Hid, Hids.
  destruct (Nat.eq_dec (timerId t0) old) as [E | E].
  - rewrite (Hstop E). split; [ discriminate | intros [_ H]; contradiction ].
  - rewrite (Hsame E), (Hlive t0 Ht0). split; [ intros H; split; assumption | ].
    intros [H _]. exact H.
Qed.

Lemma stopAll_timers (es : list (string * nat)) :
  forall ts t',
    In t' (fold_left (fun ts e => stopTimer (snd e) ts) es ts) ->
    exists t, In t ts /\ timerId t' = timerId t
              /\ (In (timerId t) (map snd es) -> timerLive t' = false)
              /\ (timerLive t' = true -> timerLive t = true).
Proof.
  induction es as [ | e rest IH ]; intros ts t' H; cbn [fold_left] in H.
  - exists t'. repeat split; auto. intros [].
  - apply IH in H. destruct H as [t1 [Ht1 [Hid [Hstop Hlive]]]].
    apply stopTimer_In in Ht1. destruct Ht1 as [t0 [Ht0 [Hid0 [Hstop0 Hsame0]]]].
    exists t0. split; [ exact Ht0 | ]. split; [ congruence | ].
    split.
    + intros [Hin | Hin].
      * destruct (timerLive t') eqn:L; [ | reflexivity ].
        rewrite (Hstop0 (eq_sym Hin)) in Hlive. discriminate (Hlive eq_refl).
      * apply Hstop. rewrite Hid0. exact Hin.
    + intros L. specialize (Hlive L).
      destruct (Nat.eq_dec (timerId t0) (snd e)) as [E | E].
      * rewrite (Hstop0 E) in Hlive. discriminate Hlive.
      * rewrite <- (Hsame0 E). exact Hlive.
Qed.

Lemma stopAll_ids (es : list (string * nat)) :
  forall ts,
    map timerId (fold_left (fun ts e => stopTimer (snd e) ts) es ts)
    = map timerId ts.
Proof.
  induction es as [ | e rest IH ]; intros ts; cbn [fold_left]; [ reflexivity | ].
  rewrite IH. apply stopTimer_ids.
Qed.

Lemma registryOk_stopAllTimers (r : Registry) :
  registryOk r ->
  registryOk (stopAllTimers r) /\ liveTimers (stopAllTimers r) = [].
Proof.
  intros [Hk [Hv [Ht [Hsub Hlive]]]].
  assert (Hdead : forall t', In t' (timers (stopAllTimers r)) ->
                             timerLive t' = false).
  { intros t' H. unfold stopAllTimers in H. cbn [timers] in H.
    apply stopAll_timers in H. destruct H as [t [Ht0 [Hid [Hstop Hl]]]].
    destruct (timerLive t') eqn:L; [ | reflexivity ].
    apply Hstop. apply (Hlive t Ht0). apply Hl. reflexivity. }
  split.
  - unfold registryOk, stopAllTimers. cbn [entries timers map].
    rewrite stopAll_ids.
    split; [ constructor | ]. split; [ constructor | ]. split; [ exact Ht | ].
    split; [ intros id [] | ].
    intros t' H. rewrite (Hdead t' H). split; [ discriminate | intros [] ].
  - unfold liveTimers. apply filter_nil_iff. exact Hdead.
Qed.

(** ** The trend scheduler as a state machine *)

Lemma registerJob_ok (name cronExpression : string) (s : TrendSchedulerState) :
  registryOk (trendJobs s) ->
  registryOk (trendJobs (registerJob name cronExpression s)).
Proof. intros H. apply registryOk_restart. exact H. Qed.

Lemma trendStart_ok (s : TrendSchedulerState) :
  registryOk (trendJobs s) ->
  registryOk (trendJobs (trendStart s)) /\ trendRunning (trendStart s) = true.
Proof.
  intros H. unfold trendStart. destruct (trendRunning s) eqn:E.
  - split; [ exact H | exact E ].
  - cbv zeta. cbn [trendJobs trendRunning]. split; [ | reflexivity ].
    repeat apply registerJob_ok. exact H.
Qed.

Lemma trendStop_ok (s : TrendSchedulerState) :
  registryOk (trendJobs s) -> registryOk (trendJobs (trendStop s)).
Proof.
  intros H. unfold trendStop. destruct (trendRunning s); cbn [negb];
    [ | exact H ].
  cbn [trendJobs]. apply registryOk_stopAllTimers. exact H.
Qed.

Lemma trendCalls_ok (calls : list TrendSchedulerCall) :
  forall s, registryOk (trendJobs s) ->
            registryOk (trendJobs (fold_left trendCall calls s)).
Proof.
  induction calls as [ | c rest IH ]; intros s H; [ exact H | ].
  cbn [fold_left]. apply IH. destruct c; cbn [trendCall].
  - apply trendStart_ok. exact H.
  - apply trendStop_ok. exact H.
  - apply registerJob_ok. exact H.
Qed.

(** X18. After any sequence of [start], [stop] and [scheduleJob] calls on a
    new trend scheduler: job names are unique and a cron task fires
    exactly when it is the one stored under a job name, so a job that is
    scheduled again never leaves its previous task firing.  [start] then
    [stop] leaves no task firing and an empty status; a second [start] in
    a row changes nothing; and [start] on a new scheduler reports the
    four jobs in the order they are scheduled. *)
Theorem trend_scheduler_keeps_one_task_per_job (calls : list TrendSchedulerCall) :
  let s := fold_left trendCall calls newTrendScheduler in
  registryOk (trendJobs s)
  /\ liveTimers (trendJobs (trendStop (trendStart s))) = []
  /\ trendStatus (trendStop (trendStart s)) = (false, [], 0%nat)
  /\ trendStart (trendStart s) = trendStart s
  /\ trendStatus (trendStart newTrendScheduler)
     = (true,
        ["fetchTrends"; "cleanupTrends"; "updateTrendScores"; "fetchNicheTrends"]%string,
        4%nat).
Proof.
  cbv zeta.
  pose proof (trendCalls_ok calls newTrendScheduler registryOk_empty) as Hok.
  destruct (trendStart_ok _ Hok) as [Hok' Hrun].
  split; [ exact Hok | ].
  assert (Hstop : trendStop (trendStart (fold_left trendCall calls newTrendScheduler))
                  = {| trendJobs := stopAllTimers
                         (trendJobs (trendStart
                            (fold_left trendCall calls newTrendScheduler)));
                       trendRunning := false |}).
  { unfold trendStop at 1. rewrite Hrun. reflexivity. }
  rewrite Hstop. cbn [trendJobs].
  split; [ apply registryOk_stopAllTimers; exact Hok' | ].
  split; [ reflexivity | ].
  split; [ | reflexivity ].
  unfold trendStart at 1. rewrite Hrun. reflexivity.
Qed.

(** ** The analytics scheduler as a state machine *)

Lemma stopAndDestroyEach_all (todo : list (string * nat)) :
  forall ts,
    stopAndDestroyEach true todo ts
    = (Returned tt, fold_left (fun ts e => stopTimer (snd e) ts) todo ts).
Proof.
  induction todo as [ | [name id] rest IH ]; intros ts; [ reflexivity | ].
  cbn [stopAndDestroyEach fold_left snd]. apply IH.
Qed.

(** With a [destroy] method on the tasks, [stop()] stops every stored
    task and clears the map. *)
Lemma analyticsStop_with_destroy (s : AnalyticsSchedulerState) :
  analyticsStop true s
  = {| scheduledTasks := stopAllTimers (scheduledTasks s);
       analyticsRunning := false |}.
Proof. unfold analyticsStop. rewrite stopAndDestroyEach_all. reflexivity. Qed.

Lemma analyticsCalls_ok (calls : list AnalyticsSchedulerCall) :
  forall s,
    registryOk (scheduledTasks s) ->
    (analyticsRunning s = false -> entries (scheduledTasks s) = []) ->
    let s' := fold_left (analyticsCall true) calls s in
    registryOk (scheduledTasks s')
    /\ (analyticsRunning s' = false -> entries (scheduledTasks s') = []).
Proof.
  induction calls as [ | c rest IH ]; intros s Hok Hidle; cbv zeta;
    [ split; assumption | ].
  cbn [fold_left]. apply IH; destruct c; cbn [analyticsCall];
    rewrite ?analyticsStop_with_destroy.
  - unfold analyticsStart. destruct (analyticsRunning s) eqn:E; [ exact Hok | ].
    cbv zeta. cbn [scheduledTasks].
    assert (He : entries (scheduledTasks s) = []) by (apply Hidle; reflexivity).
    apply registryOk_startTimerAs_new.
    + apply registryOk_startTimerAs_new.
      * apply registryOk_startTimerAs_new; [ exact Hok | ]. rewrite He. intros [].
      * unfold startTimerAs. cbn [entries]. rewrite He. simpl.
        intros [H | []]. discriminate H.
    + unfold startTimerAs. cbn [entries]. rewrite He. simpl.
      intros [H | [H | []]]; discriminate H.
  - cbn [scheduledTasks]. apply registryOk_stopAllTimers. exact Hok.
  - unfold analyticsStart. destruct (analyticsRunning s) eqn:E;
      [ intros H; congruence | ].
    cbn [analyticsRunning]. discriminate.
  - intros _. reflexivity.
Qed.

(** Without a [destroy] method a started scheduler is in one of two
    states for ever. *)
Lemma analyticsCalls_stuck (calls : list AnalyticsSchedulerCall) :
  let s := fold_left (analyticsCall false) calls newAnalyticsScheduler in
  (In CallAnalyticsStart calls -> s = startedAnalytics \/ s = stuckAnalytics)
  /\ (s = newAnalyticsScheduler \/ s = startedAnalytics \/ s = stuckAnalytics).
Proof.
  cbv zeta. induction calls as [ | c calls IH ] using rev_ind.
  - split; [ intros [] | left; reflexivity ].
  - rewrite fold_left_app. cbn [fold_left]. destruct IH as [IHin IHall].
    set (s := fold_left (analyticsCall false) calls newAnalyticsScheduler) in *.
    destruct c; cbn [analyticsCall].
    + assert (H : analyticsStart s = startedAnalytics
                  \/ analyticsStart s = stuckAnalytics).
      { destruct IHall as [-> | [-> | ->]];
          [ left | left | right ]; reflexivity. }
      split; [ intros _; exact H | right; exact H ].
    + split.
      * intros Hin. apply in_app_or in Hin.
        destruct Hin as [Hin | [Hc | []]]; [ | discriminate Hc ].
        right. destruct (IHin Hin) as [-> | ->]; reflexivity.
      * destruct IHall as [-> | [-> | ->]];
          [ left | right; right | right; right ]; reflexivity.
Qed.

(** X19. The analytics scheduler, on a new scheduler and for any
    sequence of [start] and [stop] calls.  With a cron library whose
    tasks have the [destroy] method that [stop] calls: task names are
    unique and a cron task fires exactly when it is stored; while the
    scheduler is stopped the map is empty, and [stop] leaves no task
    firing.  With a library whose tasks have no [destroy] (the call
    throws, and [stop] only logs that): once [start] was called the
    scheduler reports running with its three tasks after every later
    call, and a [stop] ends only the first task: the aggregation and
    cleanup tasks keep firing.  In both cases [start] on a new scheduler
    reports the three tasks in order and, as no method assigns
    [lastStarted], the status reports it as [null] and an uptime that is
    never positive. *)
Theorem analytics_scheduler_stop_depends_on_destroy
    (calls : list AnalyticsSchedulerCall) (taskHasDestroy : bool) (t1 t2 : Z) :
  let s := fold_left (analyticsCall taskHasDestroy) calls newAnalyticsScheduler in
  (taskHasDestroy = true ->
     registryOk (scheduledTasks s)
     /\ (analyticsRunning s = false -> entries (scheduledTasks s) = [])
     /\ liveTimers (scheduledTasks (analyticsStop taskHasDestroy s)) = [])
  /\ (taskHasDestroy = false -> In CallAnalyticsStart calls ->
      let stopped := analyticsStop taskHasDestroy s in
      analyticsRunning s = true
      /\ (exists uptime,
            analyticsStatus stopped t1 t2
            = (true, ["sync"; "aggregation"; "cleanup"]%string, 3%nat, None, uptime))
      /\ map timerSpec (liveTimers (scheduledTasks stopped))
         = ["0 1 * * *"; "0 2 * * 0"]%string)
  /\ (exists uptime,
        analyticsStatus (analyticsStart newAnalyticsScheduler) t1 t2
        = (true, ["sync"; "aggregation"; "cleanup"]%string, 3%nat, None, uptime))
  /\ (t1 <= t2 -> snd (analyticsStatus s t1 t2) <= 0).
Proof.
  cbv zeta. split; [ | split; [ | split ] ].
  - intros ->.
    destruct (analyticsCalls_ok calls newAnalyticsScheduler registryOk_empty
                (fun _ => eq_refl)) as [Hok Hidle].
    split; [ exact Hok | ]. split; [ exact Hidle | ].
    rewrite analyticsStop_with_destroy. cbn [scheduledTasks].
    apply registryOk_stopAllTimers. exact Hok.
  - intros -> Hin.
    destruct (proj1 (analyticsCalls_stuck calls) Hin) as [-> | ->];
      (split; [ reflexivity | ]; split; [ eexists; reflexivity | reflexivity ]).
  - eexists; reflexivity.
  - intros Hle. unfold analyticsStatus. cbv zeta. cbn [snd].
    destruct (analyticsRunning _); lia.
Qed.

Lemma analytics_scheduler_stop_depends_on_destroy_witness :
  (exists uptime,
      analyticsStatus
        (analyticsStop false
           (fold_left (analyticsCall false) [CallAnalyticsStart; CallAnalyticsStop]
              newAnalyticsScheduler))
        1000 1001
      = (true, ["sync"; "aggregation"; "cleanup"]%string, 3%nat, None, uptime))
  /\ liveTimers
       (scheduledTasks
          (analyticsStop true
             (fold_left (analyticsCall true) [CallAnalyticsStart; CallAnalyticsStop]
                newAnalyticsScheduler)))
     = [].
Proof.
  split.
  - exact (proj1 (proj2 (proj1 (proj2
             (analytics_scheduler_stop_depends_on_destroy
                [CallAnalyticsStart; CallAnalyticsStop] false 1000 1001))
             eq_refl (or_introl eq_refl)))).
  - exact (proj2 (proj2 (proj1
             (analytics_scheduler_stop_depends_on_destroy
                [CallAnalyticsStart; CallAnalyticsStop] true 1000 1001)
             eq_refl))).
Defined.

(** With tasks that have no [destroy]: [start()] then [stop()] leaves the
    scheduler running, its three tasks stored, and only the sync task
    stopped. *)
Example stop_without_destroy :
  let s := analyticsStop false (analyticsStart newAnalyticsScheduler) in
  analyticsRunning s = true
  /\ map fst (entries (scheduledTasks s)) = ["sync"; "aggregation"; "cleanup"]%string
  /\ map (fun t => (timerSpec t, timerLive t)) (timers (scheduledTasks s))
     = [("0 */2 * * *", false); ("0 1 * * *", true); ("0 2 * * 0", true)]%string.
Proof. cbv zeta. repeat split. Qed.

(** ** Automatic sync timers *)

Lemma autoSyncCalls_ok (calls : list AutoSyncCall) :
  forall r, registryOk r -> registryOk (fold_left autoSyncCall calls r).
Proof.
  induction calls as [ | c rest IH ]; intros r H; [ exact H | ].
  cbn [fold_left]. apply IH. destruct c; cbn [autoSyncCall].
  - unfold startAutoSync. apply registryOk_startTimerAs_new.
    + apply registryOk_stopAutoSync. exact H.
    + unfold stopAutoSync.
      destruct (mapGet userId (entries r)) as [id | ] eqn:E; cbn [entries].
      * intros Hin. apply in_map_iff in Hin. destruct Hin as [e [He Hin]].
        apply mapDelete_In in Hin. destruct Hin as [_ Hne]. contradiction.
      * apply mapGet_None. exact E.
  - apply registryOk_stopAutoSync. exact H.
Qed.

Lemma timerOf_startTimerAs_new (key spec : string) (r : Registry) :
  registryOk r -> ~ In key (map fst (entries r)) ->
  timerOf key (startTimerAs key spec r)
  = Some {| timerId := freshTimerId (timers r); timerSpec := spec;
            timerLive := true |}.
Proof.
  intros [_ [_ [_ [_ _]]]] Hnew. unfold timerOf, startTimerAs. cbn [entries timers].
  rewrite (mapSet_absent _ _ _ Hnew).
  assert (Hget : mapGet key (entries r ++ [(key, freshTimerId (timers r))])
                 = Some (freshTimerId (timers r))).
  { unfold mapGet. rewrite find_app_absent.
    - simpl. rewrite String.eqb_refl. reflexivity.
    - destruct (find (fun e => String.eqb (fst e) key) (entries r)) as [e | ] eqn:F;
        [ | reflexivity ].
      exfalso. apply Hnew. apply find_some in F. destruct F as [F Hk].
      apply String.eqb_eq in Hk. rewrite <- Hk. apply in_map. exact F. }
  rewrite Hget, find_app_absent.
  - simpl. rewrite Nat.eqb_refl. reflexivity.
  - destruct (find (fun t => Nat.eqb (timerId t) (freshTimerId (timers r)))
                (timers r)) as [t | ] eqn:F; [ | reflexivity ].
    exfalso. apply (freshTimerId_unused (timers r)).
    apply find_some in F. destruct F as [F Hid]. apply Nat.eqb_eq in Hid.
    rewrite <- Hid. apply in_map. exact F.
Qed.

(** X20. After any sequence of [startAutoSync] and [stopAutoSync] calls: each
    user has at most one stored interval and an interval fires exactly
    when it is stored, so at most one timer per user is ever running.
    Starting the sync of a user leaves that user with one live timer of
    the requested period and an active status; stopping it leaves the
    user with none and an inactive status. *)
Theorem auto_sync_keeps_one_timer_per_user
    (calls : list AutoSyncCall) (userId : string) (intervalMinutes : Z) :
  let r := fold_left autoSyncCall calls emptyRegistry in
  registryOk r
  /\ (exists id,
        timerOf userId (startAutoSync userId intervalMinutes r)
        = Some {| timerId := id;
                  timerSpec := showZ (intervalMinutes * 60 * 1000);
                  timerLive := true |})
  /\ fst (getSyncStatus userId (startAutoSync userId intervalMinutes r)) = true
  /\ fst (getSyncStatus userId (stopAutoSync userId r)) = false
  /\ (forall t, In t (liveTimers (stopAutoSync userId r)) ->
        ~ In (userId, timerId t) (entries r)).
Proof.
  cbv zeta.
  pose proof (autoSyncCalls_ok calls emptyRegistry registryOk_empty) as Hok.
  set (r := fold_left autoSyncCall calls emptyRegistry) in *.
  pose proof (registryOk_stopAutoSync userId r Hok) as Hok1.
  assert (Habsent : ~ In userId (map fst (entries (stopAutoSync userId r)))).
  { unfold stopAutoSync.
    destruct (mapGet userId (entries r)) as [id | ] eqn:E; cbn [entries].
    - intros Hin. apply in_map_iff in Hin. destruct Hin as [e [He Hin]].
      apply mapDelete_In in Hin. destruct Hin as [_ Hne]. contradiction.
    - apply mapGet_None. exact E. }
  pose proof (timerOf_startTimerAs_new userId
                (showZ (intervalMinutes * 60 * 1000)) _ Hok1 Habsent) as Htimer.
  split; [ exact Hok | ].
  split; [ eexists; exact Htimer | ].
  split.
  { unfold getSyncStatus. cbn [fst]. unfold timerOf, startAutoSync in *.
    destruct (mapGet userId (entries (startTimerAs userId _ (stopAutoSync userId r))));
      [ reflexivity | discriminate Htimer ]. }
  split.
  { unfold getSyncStatus. cbn [fst].
    rewrite (proj2 (mapGet_None userId _) Habsent). reflexivity. }
  intros t Ht Hentry. unfold liveTimers in Ht. apply filter_In in Ht.
  destruct Ht as [Ht Hlive].
  destruct Hok1 as [_ [_ [_ [_ Hl]]]].
  apply (Hl t Ht) in Hlive. apply in_map_iff in Hlive.
  destruct Hlive as [[k v] [Hv He]]. simpl in Hv. subst v.
  assert (Hget : mapGet userId (entries r) = Some (timerId t)).
  { destruct (mapGet userId (entries r)) as [id | ] eqn:E.
    - f_equal. apply mapGet_In in E.
      destruct Hok as [Hk _]. exact (entry_unique _ _ _ _ Hk E Hentry).
    - exfalso. apply (proj1 (mapGet_None _ _) E).
      apply in_map_iff. exists (userId, timerId t). split; [ reflexivity | exact Hentry ]. }
  unfold stopAutoSync in He. rewrite Hget in He. cbn [entries] in He.
  apply mapDelete_In in He. destruct He as [He Hne]. simpl in Hne.
  destruct Hok as [_ [Hv _]].
  apply Hne. exact (value_unique _ _ _ _ Hv He Hentry).
Qed.

(* ------------------------------------------------------------------ *)
(** ** Syncing the analytics of connected accounts *)
(* ------------------------------------------------------------------ *)

Lemma distinct_In (l : list string) (x : string) : In x (distinct l) <-> In x l.
Proof.
  induction l as [ | y l IH ]; [ reflexivity | ].
  cbn [distinct]. split.
  - intros [-> | Hin]; [ left; reflexivity | ].
    apply filter_In in Hin. right. apply IH. exact (proj1 Hin).
  - intros [-> | Hin]; [ left; reflexivity | ].
    destruct (String.eqb x y) eqn:E.
    + apply String.eqb_eq in E. left. symmetry. exact E.
    + right. apply filter_In. split; [ apply IH; exact Hin | ].
      rewrite E. reflexivity.
Qed.

Lemma distinct_NoDup (l : list string) : NoDup (distinct l).
Proof.
  induction l as [ | y l IH ]; [ constructor | ].
  cbn [distinct]. constructor.
  - intros Hin. apply filter_In in Hin. destruct Hin as [_ Hne].
    rewrite String.eqb_refl in Hne. discriminate Hne.
  - apply NoDup_filter. exact IH.
Qed.

(** The accounts of platform [p]. *)
Lemma accountMatches_all (p : string) (a : ConnectedAccount) :
  accountMatches p None a = String.eqb (acc_platform a) p.
Proof. unfold accountMatches. apply andb_true_r. Qed.

Lemma accounts_of_platform_cons (p : string) (a : ConnectedAccount)
    (accounts : list ConnectedAccount) :
  List.length (filter (accountMatches p None) (a :: accounts))
  = ((if String.eqb (acc_platform a) p then 1 else 0)
     + List.length (filter (accountMatches p None) accounts))%nat.
Proof.
  cbn [filter]. rewrite accountMatches_all.
  destruct (String.eqb (acc_platform a) p); reflexivity.
Qed.

(** Every account is of exactly one of a duplicate-free list of platforms
    that covers the accounts. *)
Lemma accounts_by_platform (accounts : list ConnectedAccount) :
  forall (platforms : list string),
    NoDup platforms ->
    (forall a, In a accounts -> In (acc_platform a) platforms) ->
    list_sum (map (fun p => List.length (filter (accountMatches p None) accounts))
                  platforms)
    = List.length accounts.
Proof.
  induction accounts as [ | a accounts IH ]; intros platforms Hnd Hcover.
  - induction platforms as [ | p ps IHp ]; [ reflexivity | ].
    simpl. apply IHp.
    + inversion Hnd; assumption.
    + intros a [].
  - specialize (IH platforms Hnd (fun b Hb => Hcover b (or_intror Hb))).
    pose proof (Hcover a (or_introl eq_refl)) as Hin.
    cbn [List.length]. rewrite <- IH. clear IH Hcover.
    induction platforms as [ | p ps IHp ]; [ destruct Hin | ].
    inversion Hnd as [ | ? ? Hnotin Hnd' ]; subst.
    cbn [map list_sum fold_right]. rewrite (accounts_of_platform_cons p).
    destruct (String.eqb (acc_platform a) p) eqn:E.
    + apply String.eqb_eq in E.
      assert (Hrest : map (fun q => List.length
                                      (filter (accountMatches q None) (a :: accounts))) ps
                      = map (fun q => List.length
                                        (filter (accountMatches q None) accounts)) ps).
      { apply map_ext_in. intros q Hq. rewrite accounts_of_platform_cons.
        destruct (String.eqb (acc_platform a) q) eqn:E'; [ | reflexivity ].
        apply String.eqb_eq in E'. exfalso. apply Hnotin. congruence. }
      unfold list_sum in *. rewrite Hrest. lia.
    + destruct Hin as [Hin | Hin].
      * exfalso. subst p. rewrite String.eqb_refl in E. discriminate E.
      * unfold list_sum in *. rewrite (IHp Hnd' Hin). lia.
Qed.

Section AnalyticsSyncFacts.

Variable accept : Analytics.doc -> bool.
Variable findUserById : string -> outcome (option UserDoc).
Variable fetchAnalytics : string -> ConnectedAccount -> outcome (list AnalyticsItem).

Lemma storeAnalyticsData_keeps_oneActive (now : Z) (user plat : string)
    (items : list AnalyticsItem) (store : Analytics.Store) :
  oneActivePerMedia store ->
  oneActivePerMedia (storeAfter (storeAnalyticsData accept now user plat items store)).
Proof.
  intros Hok. unfold storeAnalyticsData. rewrite storeAfter_rethrow.
  apply (storeEachAnalytics_inv store accept now user plat items [] store).
  split; [ exact Hok | ]. apply Forall_forall. intros d Hd.
  left. exists d. repeat split. exact Hd.
Qed.

(** One account: the result carries the account's id, an unsupported
    platform throws before anything is stored, and the collection stays
    consistent. *)
Lemma syncAccountAnalytics_cases (now : Z) (userId plat : string)
    (account : ConnectedAccount) (store : Analytics.Store) :
  (forall r store',
     syncAccountAnalytics accept fetchAnalytics now userId plat account store
     = (Returned r, store') ->
     r = {| res_accountId := acc_accountId account; res_success := true |}
     /\ syncSupported plat = true)
  /\ (syncSupported plat = false ->
      exists e,
        syncAccountAnalytics accept fetchAnalytics now userId plat account store
        = (Thrown e, store))
  /\ (oneActivePerMedia store ->
      oneActivePerMedia
        (storeAfter
           (syncAccountAnalytics accept fetchAnalytics now userId plat account store))).
Proof.
  split; [ | split ].
  - intros r store'. unfold syncAccountAnalytics, tryCatch.
    destruct (syncSupported plat); [ | unfold throw; discriminate ].
    destruct (fetchAnalytics plat account) as [items | e];
      [ | unfold throw; discriminate ].
    unfold bind, ret.
    destruct (storeAnalyticsData accept now userId plat items store) as [[l | e] s];
      [ | unfold throw; discriminate ].
    intros H. inversion H. split; reflexivity.
  - intros Hun. unfold syncAccountAnalytics, tryCatch. rewrite Hun.
    eexists. reflexivity.
  - intros Hok. unfold syncAccountAnalytics. rewrite storeAfter_rethrow.
    destruct (syncSupported plat); [ | exact Hok ].
    destruct (fetchAnalytics plat account) as [items | e]; [ | exact Hok ].
    pose proof (storeAnalyticsData_keeps_oneActive now userId plat items store Hok) as H.
    unfold bind, ret, storeAfter in *.
    destruct (storeAnalyticsData accept now userId plat items store) as [[l | e] s];
      exact H.
Qed.

Lemma syncEachAccount_results (now : Z) (userId plat : string)
    (accounts : list ConnectedAccount) :
  forall (acc : list AccountResult) (store : Analytics.Store),
    let run := syncEachAccount accept fetchAnalytics now userId plat accounts acc store in
    map res_accountId (fst run) = map res_accountId acc ++ map acc_accountId accounts
    /\ (syncSupported plat = false ->
        filter res_success (fst run) = filter res_success acc /\ snd run = store)
    /\ (oneActivePerMedia store -> oneActivePerMedia (snd run)).
Proof.
  induction accounts as [ | a accounts IH ]; intros acc store; cbv zeta.
  - cbn [syncEachAccount fst snd map]. rewrite app_nil_r. auto.
  - cbn [syncEachAccount].
    destruct (syncAccountAnalytics_cases now userId plat a store)
      as [Hret [Hthrow Hinv]].
    destruct (syncAccountAnalytics accept fetchAnalytics now userId plat a store)
      as [[r | e] s] eqn:Hrun.
    + destruct (Hret r s eq_refl) as [-> Hsup].
      destruct (IH (acc ++ [ {| res_accountId := acc_accountId a;
                                res_success := true |} ]) s) as [Hids [_ Hkeep]].
      split; [ | split ].
      * rewrite Hids, map_app, <- app_assoc. reflexivity.
      * intros Hun. rewrite Hun in Hsup. discriminate Hsup.
      * intros Hok. apply Hkeep. exact (Hinv Hok).
    + destruct (IH (acc ++ [ {| res_accountId := acc_accountId a;
                                res_success := false |} ]) s) as [Hids [Hnone Hkeep]].
      split; [ | split ].
      * rewrite Hids, map_app, <- app_assoc. reflexivity.
      * intros Hun. destruct (Hthrow Hun) as [e' He'].
        assert (s = store) by congruence. subst s.
        destruct (Hnone Hun) as [Hf Hs]. split; [ | exact Hs ].
        rewrite Hf, filter_app. cbn [filter res_success]. apply app_nil_r.
      * intros Hok. apply Hkeep. exact (Hinv Hok).
Qed.

(** X21. [syncAnalyticsData] accounts for every matching account exactly
    once.  A failed call ([success: false]) leaves the collection as it
    was.  A call that reports [success: true] found the user and at least
    one matching account; [totalAccounts] is the number of matching
    accounts, [successfulSyncs + failedSyncs = totalAccounts], and
    [results] lists the matching accounts in order.  For a platform
    outside instagram, tiktok and youtube the call still reports
    [success: true], with no successful sync and nothing stored.  The
    collection keeps at most one active document per media. *)
Theorem syncAnalyticsData_accounts_for_every_account
    (now : Z) (userId plat : string) (accountId : option string)
    (store : Analytics.Store) :
  match syncAnalyticsData accept findUserById fetchAnalytics now userId plat
          accountId store with
  | (SyncFailed _, store') => store' = store
  | (SyncDone totalAccounts successfulSyncs failedSyncs results, store') =>
      exists user,
        findUserById userId = Returned (Some user)
        /\ let matching :=
             filter (accountMatches plat accountId) (user_connectedAccounts user) in
           (0 < totalAccounts)%nat
           /\ totalAccounts = List.length matching
           /\ (successfulSyncs + failedSyncs = totalAccounts)%nat
           /\ map res_accountId results = map acc_accountId matching
           /\ (syncSupported plat = false ->
               successfulSyncs = 0%nat /\ store' = store)
           /\ (oneActivePerMedia store -> oneActivePerMedia store')
  end.
Proof.
  unfold syncAnalyticsData.
  destruct (findUserById userId) as [[user | ] | e]; [ | reflexivity | reflexivity ].
  destruct (filter (accountMatches plat accountId) (user_connectedAccounts user))
    as [ | a matching ] eqn:Hmatch; [ reflexivity | ].
  destruct (syncEachAccount_results now userId plat (a :: matching) [] store)
    as [Hids [Hnone Hkeep]].
  destruct (syncEachAccount accept fetchAnalytics now userId plat (a :: matching) [] store)
    as [results store'].
  cbn [fst snd] in *. exists user. split; [ reflexivity | ]. cbv zeta.
  rewrite Hmatch.
  assert (Hlen : List.length results = List.length (a :: matching)).
  { rewrite <- (length_map res_accountId results), Hids.
    change (map res_accountId [] ++ map acc_accountId (a :: matching))
      with (map acc_accountId (a :: matching)).
    apply length_map. }
  split; [ cbn [List.length]; lia | ].
  split; [ reflexivity | ].
  split; [ rewrite filter_split_length; exact Hlen | ].
  split; [ exact Hids | ].
  split; [ | exact Hkeep ].
  intros Hun. destruct (Hnone Hun) as [Hf Hs]. rewrite Hf. split; [ reflexivity | exact Hs ].
Qed.

(** With a database that accepts every document, storing returns. *)
Lemma storeEachAnalytics_returns (now : Z) (user plat : string)
    (items : list AnalyticsItem) :
  (forall d, accept d = true) ->
  forall (acc : list Analytics.doc) (store : Analytics.Store),
    exists l, fst (storeEachAnalytics accept now user plat items acc store) = Returned l.
Proof.
  intros Hacc. induction items as [ | data rest IH ]; intros acc store.
  - exists acc. reflexivity.
  - cbn [storeEachAnalytics]. unfold bind at 1. unfold getStore.
    destruct (findByMediaId store user plat (item_mediaId data)) as [e | ].
    + unfold bind at 1. unfold updateMetrics. cbv zeta.
      unfold bind at 1. unfold saveAnalytics at 1. rewrite Hacc. unfold ret at 1.
      unfold bind at 1. unfold growthRatesJob at 1. cbv zeta.
      unfold bind at 1. unfold saveAnalytics at 1. rewrite Hacc. unfold ret at 1.
      apply IH.
    + cbv zeta. unfold bind at 1. unfold saveAnalytics at 1. rewrite Hacc.
      unfold bind at 1. unfold growthRatesJob at 1. cbv zeta.
      unfold bind at 1. unfold saveAnalytics at 1. rewrite Hacc. unfold ret at 1.
      apply IH.
Qed.

Lemma syncEachAccount_all_succeed (now : Z) (userId plat : string)
    (accounts : list ConnectedAccount) :
  syncsCleanly accept fetchAnalytics plat ->
  forall (acc : list AccountResult) (store : Analytics.Store),
    List.length
      (filter res_success
         (fst (syncEachAccount accept fetchAnalytics now userId plat accounts acc store)))
    = (List.length (filter res_success acc) + List.length accounts)%nat.
Proof.
  intros [Hacc [Hfetch Hsup]].
  induction accounts as [ | a accounts IH ]; intros acc store.
  - cbn [syncEachAccount fst List.length]. lia.
  - cbn [syncEachAccount].
    assert (Hrun : exists r s,
               syncAccountAnalytics accept fetchAnalytics now userId plat a store
               = (Returned r, s) /\ res_success r = true).
    { unfold syncAccountAnalytics, tryCatch. rewrite Hsup.
      destruct (Hfetch a) as [items ->]. unfold bind, ret.
      unfold storeAnalyticsData, tryCatch.
      destruct (storeEachAnalytics_returns now userId plat items Hacc [] store)
        as [l Hl].
      destruct (storeEachAnalytics accept now userId plat items [] store) as [o s].
      cbn [fst] in Hl. subst o. eexists. eexists. split; reflexivity. }
    destruct Hrun as [r [s [-> Hr]]].
    rewrite IH, filter_app, length_app. cbn [filter]. rewrite Hr.
    cbn [List.length]. lia.
Qed.

(** One platform of a user the lookup finds, by the scheduler's call
    (no account id): the call reports success, with the accounts of the
    platform as [totalAccounts]. *)
Lemma syncAnalyticsData_of_platform (now : Z) (userId : string) (u : UserDoc) (plat : string)
    (store : Analytics.Store) :
  findUserById userId = Returned (Some u) ->
  In plat (map acc_platform (user_connectedAccounts u)) ->
  exists successfulSyncs failedSyncs results store',
    syncAnalyticsData accept findUserById fetchAnalytics now userId plat None store
    = (SyncDone (List.length (filter (accountMatches plat None)
                                (user_connectedAccounts u)))
         successfulSyncs failedSyncs results, store')
    /\ (successfulSyncs
        <= List.length (filter (accountMatches plat None) (user_connectedAccounts u)))%nat
    /\ (syncsCleanly accept fetchAnalytics plat ->
        successfulSyncs
        = List.length (filter (accountMatches plat None) (user_connectedAccounts u)))
    /\ (syncSupported plat = false -> successfulSyncs = 0%nat /\ store' = store)
    /\ (oneActivePerMedia store -> oneActivePerMedia store').
Proof.
  intros Hfind Hin. unfold syncAnalyticsData. rewrite Hfind.
  destruct (filter (accountMatches plat None) (user_connectedAccounts u))
    as [ | a matching ] eqn:Hmatch.
  { exfalso. apply in_map_iff in Hin. destruct Hin as [a [Ha Hin]].
    assert (Hf : In a (filter (accountMatches plat None) (user_connectedAccounts u))).
    { apply filter_In. split; [ exact Hin | ].
      rewrite accountMatches_all, Ha. apply String.eqb_refl. }
    rewrite Hmatch in Hf. destruct Hf. }
  destruct (syncEachAccount_results now userId plat (a :: matching) [] store)
    as [Hids [Hnone Hkeep]].
  pose proof (fun H => syncEachAccount_all_succeed now userId plat
                         (a :: matching) H [] store) as Hall.
  destruct (syncEachAccount accept fetchAnalytics now userId plat
              (a :: matching) [] store) as [results store'].
  cbn [fst snd] in *.
  assert (Hlen : List.length results = List.length (a :: matching)).
  { rewrite <- (length_map res_accountId results), Hids.
    change (map res_accountId [] ++ map acc_accountId (a :: matching))
      with (map acc_accountId (a :: matching)).
    apply length_map. }
  eexists. eexists. eexists. eexists. split; [ reflexivity | ].
  split; [ | split; [ | split ] ].
  - rewrite <- Hlen. pose proof (filter_split_length res_success results). lia.
  - intros Hclean. rewrite (Hall Hclean). reflexivity.
  - intros Hun. destruct (Hnone Hun) as [Hf Hs]. rewrite Hf.
    split; [ reflexivity | exact Hs ].
  - exact Hkeep.
Qed.

Lemma syncEachPlatform_totals (now : Z) (u : UserDoc) :
  findUserById (user_id u) = Returned (Some u) ->
  forall (ps : list string),
    (forall p, In p ps -> In p (map acc_platform (user_connectedAccounts u))) ->
    forall (totals : nat * nat) (store : Analytics.Store),
      let run := syncEachPlatform accept findUserById fetchAnalytics now (user_id u)
                   ps totals store in
      exists k,
        fst run = ((fst totals + k)%nat, snd totals)
        /\ (k <= accountsOn u ps)%nat
        /\ ((forall p, In p ps -> syncsCleanly accept fetchAnalytics p) ->
            k = accountsOn u ps)
        /\ ((forall p, In p ps -> syncSupported p = false) ->
            k = 0%nat /\ snd run = store)
        /\ (oneActivePerMedia store -> oneActivePerMedia (snd run)).
Proof.
  intros Hfind. induction ps as [ | p ps IH ]; intros Hcover totals store; cbv zeta.
  - exists 0%nat. cbn [syncEachPlatform fst snd]. rewrite Nat.add_0_r.
    split; [ destruct totals; reflexivity | ].
    split; [ apply Nat.le_0_l | ]. auto.
  - cbn [syncEachPlatform].
    destruct (syncAnalyticsData_of_platform now (user_id u) u p store Hfind
                (Hcover p (or_introl eq_refl)))
      as [ok [failed [results [store' [-> [Hle [Hclean [Hun Hkeep]]]]]]]].
    destruct (IH (fun q Hq => Hcover q (or_intror Hq))
                ((fst totals + ok)%nat, snd totals) store')
      as [k [Hrun [Hk [Hkclean [Hkun Hkkeep]]]]].
    exists (ok + k)%nat. cbn [fst snd] in Hrun.
    unfold accountsOn in *. cbn [map list_sum fold_right].
    split; [ rewrite Hrun; f_equal; lia | ].
    split; [ unfold list_sum in *; lia | ].
    split; [ | split ].
    + intros Hall. rewrite (Hclean (Hall p (or_introl eq_refl))).
      rewrite (Hkclean (fun q Hq => Hall q (or_intror Hq))). reflexivity.
    + intros Hnone. destruct (Hun (Hnone p (or_introl eq_refl))) as [-> ->].
      destruct (Hkun (fun q Hq => Hnone q (or_intror Hq))) as [-> Hs].
      split; [ reflexivity | exact Hs ].
    + intros Hok. apply Hkkeep, Hkeep, Hok.
Qed.

Lemma syncEachUser_totals (now : Z) (users : list UserDoc) :
  usersFound findUserById users ->
  forall (totals : nat * nat) (store : Analytics.Store),
    let run := syncEachUser accept findUserById fetchAnalytics now users totals store in
    exists k,
      fst run = ((fst totals + k)%nat, snd totals)
      /\ (k <= accountsOf users)%nat
      /\ ((forall u a, In u users -> In a (user_connectedAccounts u) ->
                       syncsCleanly accept fetchAnalytics (acc_platform a)) ->
          k = accountsOf users)
      /\ ((forall u a, In u users -> In a (user_connectedAccounts u) ->
                       syncSupported (acc_platform a) = false) ->
          k = 0%nat /\ snd run = store)
      /\ (oneActivePerMedia store -> oneActivePerMedia (snd run)).
Proof.
  induction users as [ | u users IH ]; intros Hfound totals store; cbv zeta.
  - exists 0%nat. cbn [syncEachUser fst snd]. rewrite Nat.add_0_r.
    split; [ destruct totals; reflexivity | ].
    split; [ apply Nat.le_0_l | ]. auto.
  - cbn [syncEachUser]. cbv zeta.
    set (ps := distinct (map acc_platform (user_connectedAccounts u))).
    assert (Hcover : forall p, In p ps -> In p (map acc_platform (user_connectedAccounts u))).
    { intros p Hp. apply distinct_In. exact Hp. }
    assert (Hon : accountsOn u ps = List.length (user_connectedAccounts u)).
    { apply accounts_by_platform; [ apply distinct_NoDup | ].
      intros a Ha. apply distinct_In, in_map. exact Ha. }
    destruct (syncEachPlatform_totals now u (Hfound u (or_introl eq_refl)) ps Hcover
                totals store) as [k1 [Hrun1 [Hk1 [Hclean1 [Hun1 Hkeep1]]]]].
    destruct (syncEachPlatform accept findUserById fetchAnalytics now (user_id u) ps
                totals store) as [totals' store'].
    cbn [fst snd] in *. subst totals'.
    destruct (IH (fun v Hv => Hfound v (or_intror Hv))
                ((fst totals + k1)%nat, snd totals) store')
      as [k [Hrun [Hk [Hclean [Hun Hkeep]]]]].
    exists (k1 + k)%nat. cbn [fst snd] in Hrun.
    unfold accountsOf in *. cbn [map list_sum fold_right].
    split; [ rewrite Hrun; f_equal; lia | ].
    split; [ unfold list_sum in *; lia | ].
    split; [ | split ].
    + intros Hall. rewrite Hclean1, Hon.
      * rewrite (Hclean (fun v a Hv Ha => Hall v a (or_intror Hv) Ha)). reflexivity.
      * intros p Hp. apply Hcover, in_map_iff in Hp. destruct Hp as [a [<- Ha]].
        exact (Hall u a (or_introl eq_refl) Ha).
    + intros Hnone. destruct Hun1 as [-> ->].
      * intros p Hp. apply Hcover, in_map_iff in Hp. destruct Hp as [a [<- Ha]].
        exact (Hnone u a (or_introl eq_refl) Ha).
      * destruct (Hun (fun v a Hv Ha => Hnone v a (or_intror Hv) Ha)) as [-> Hs].
        split; [ reflexivity | exact Hs ].
    + intros Hok. apply Hkeep, Hkeep1, Hok.
Qed.

(** X22. The scheduled sync counts every connected account at most once.
    When the lookup by id finds each user the query returned, the run
    logs no error, [usersProcessed] is the number of users, and
    [totalSynced] is at most the number of connected accounts of these
    users, although it calls [syncAnalyticsData] once per distinct
    platform and not per account.  [totalSynced] is exactly that number
    when every account is of a platform that syncs cleanly (supported,
    answered by the platform, accepted by the database).  The collection
    keeps at most one active document per media. *)
Theorem syncAllUserAnalytics_counts_each_account_once
    (now : Z) (users : list UserDoc) (store : Analytics.Store) :
  usersFound findUserById users ->
  exists totalSynced store',
    syncAllUserAnalytics accept findUserById fetchAnalytics now (Returned users) store
    = (Some (List.length users, totalSynced, 0%nat), store')
    /\ (totalSynced <= accountsOf users)%nat
    /\ ((forall u a, In u users -> In a (user_connectedAccounts u) ->
                     syncsCleanly accept fetchAnalytics (acc_platform a)) ->
        totalSynced = accountsOf users)
    /\ (oneActivePerMedia store -> oneActivePerMedia store').
Proof.
  intros Hfound. unfold syncAllUserAnalytics.
  destruct (syncEachUser_totals now users Hfound (0%nat, 0%nat) store)
    as [k [Hrun [Hk [Hclean [_ Hkeep]]]]].
  destruct (syncEachUser accept findUserById fetchAnalytics now users (0%nat, 0%nat) store)
    as [totals store'].
  cbn [fst snd] in *. subst totals. cbn [fst snd].
  exists k, store'.
  split; [ reflexivity | ]. split; [ exact Hk | ]. split; [ exact Hclean | exact Hkeep ].
Qed.

(** X23. Accounts of a platform the sync does not support pass silently.
    When the lookup by id finds each user and every connected account is
    of a platform other than instagram, tiktok and youtube, the
    scheduled sync stores nothing and logs [totalSynced = 0] with
    [totalErrors = 0]: the failures stay inside the [success: true]
    answers of [syncAnalyticsData]. *)
Theorem syncAllUserAnalytics_unsupported_is_silent
    (now : Z) (users : list UserDoc) (store : Analytics.Store) :
  usersFound findUserById users ->
  (forall u a, In u users -> In a (user_connectedAccounts u) ->
               syncSupported (acc_platform a) = false) ->
  syncAllUserAnalytics accept findUserById fetchAnalytics now (Returned users) store
  = (Some (List.length users, 0%nat, 0%nat), store).
Proof.
  intros Hfound Hnone. unfold syncAllUserAnalytics.
  destruct (syncEachUser_totals now users Hfound (0%nat, 0%nat) store)
    as [k [Hrun [_ [_ [Hun _]]]]].
  destruct (Hun Hnone) as [-> Hs].
  destruct (syncEachUser accept findUserById fetchAnalytics now users (0%nat, 0%nat) store)
    as [totals store'].
  cbn [fst snd] in *. subst totals store'. reflexivity.
Qed.

Lemma syncPlatformsOf_results (now : Z) (userId : string) (u : UserDoc) :
  findUserById userId = Returned (Some u) ->
  forall (ps : list string),
    (forall p, In p ps -> In p (map acc_platform (user_connectedAccounts u))) ->
    forall (acc : list (string * SyncResult)) (store : Analytics.Store),
      let run := syncPlatformsOf accept findUserById fetchAnalytics now userId ps acc
                   store in
      map fst (fst run) = map fst acc ++ ps
      /\ (Forall (fun r => syncSuccess (snd r) = true) acc ->
          Forall (fun r => syncSuccess (snd r) = true) (fst run))
      /\ ((forall p, In p ps -> syncSupported p = false) -> snd run = store)
      /\ (oneActivePerMedia store -> oneActivePerMedia (snd run)).
Proof.
  intros Hfind. induction ps as [ | p ps IH ]; intros Hcover acc store; cbv zeta.
  - cbn [syncPlatformsOf fst snd]. rewrite app_nil_r. auto.
  - cbn [syncPlatformsOf].
    destruct (syncAnalyticsData_of_platform now userId u p store Hfind
                (Hcover p (or_introl eq_refl)))
      as [ok [failed [results [store' [-> [_ [_ [Hun Hkeep]]]]]]]].
    destruct (IH (fun q Hq => Hcover q (or_intror Hq))
                (acc ++ [(p, SyncDone (List.length
                                         (filter (accountMatches p None)
                                            (user_connectedAccounts u)))
                               ok failed results)]) store')
      as [Hnames [Hall [Hnone Hinv]]].
    split; [ | split; [ | split ] ].
    + rewrite Hnames, map_app, <- app_assoc. reflexivity.
    + intros Hacc. apply Hall. apply Forall_app. split; [ exact Hacc | ].
      constructor; [ reflexivity | constructor ].
    + intros Hno. rewrite (Hnone (fun q Hq => Hno q (or_intror Hq))).
      exact (proj2 (Hun (Hno p (or_introl eq_refl)))).
    + intros Hok. apply Hinv, Hkeep, Hok.
Qed.

Lemma filter_all {A : Type} (p : A -> bool) (l : list A) :
  Forall (fun x => p x = true) l -> filter p l = l.
Proof.
  induction 1 as [ | x l Hx _ IH ]; [ reflexivity | ].
  cbn [filter]. rewrite Hx, IH. reflexivity.
Qed.

(** X24. A manual sync of a user without a platform (none, or the empty
    string): when the user is not found it fails and stores nothing;
    when the user is found it reports [success: true], one result per
    distinct platform of the connected accounts, in order of first
    appearance, every one with [success: true], so that
    [successfulSyncs = totalPlatforms] whether or not any account was
    synced; and when no platform of the user is supported nothing is
    stored.  The collection keeps at most one active document per
    media. *)
Theorem triggerUserSync_reports_every_platform
    (now : Z) (userId : string) (store : Analytics.Store) :
  triggerUserSync accept findUserById fetchAnalytics now userId (Some EmptyString) store
  = triggerUserSync accept findUserById fetchAnalytics now userId None store
  /\ (findUserById userId = Returned None ->
      triggerUserSync accept findUserById fetchAnalytics now userId None store
      = (TriggerFailed "User not found", store))
  /\ (forall u,
        findUserById userId = Returned (Some u) ->
        let platforms := distinct (map acc_platform (user_connectedAccounts u)) in
        exists results store',
          triggerUserSync accept findUserById fetchAnalytics now userId None store
          = (TriggerAll results (List.length platforms) (List.length platforms), store')
          /\ map fst results = platforms
          /\ Forall (fun r => syncSuccess (snd r) = true) results
          /\ ((forall a, In a (user_connectedAccounts u) ->
                         syncSupported (acc_platform a) = false) ->
              store' = store)
          /\ (oneActivePerMedia store -> oneActivePerMedia store')).
Proof.
  split; [ reflexivity | ].
  split.
  { intros Hnone. unfold triggerUserSync. rewrite Hnone. reflexivity. }
  intros u Hfind. cbv zeta. unfold triggerUserSync. rewrite Hfind.
  set (ps := distinct (map acc_platform (user_connectedAccounts u))).
  assert (Hcover : forall p, In p ps -> In p (map acc_platform (user_connectedAccounts u))).
  { intros p Hp. apply distinct_In. exact Hp. }
  destruct (syncPlatformsOf_results now userId u Hfind ps Hcover [] store)
    as [Hnames [Hall [Hnone Hinv]]].
  destruct (syncPlatformsOf accept findUserById fetchAnalytics now userId ps [] store)
    as [results store'].
  cbn [fst snd map app] in *.
  specialize (Hall (Forall_nil _)).
  exists results, store'.
  split.
  { rewrite (filter_all (fun r => syncSuccess (snd r)) results Hall).
    rewrite <- Hnames at 3. rewrite length_map. reflexivity. }
  split; [ exact Hnames | ].
  split; [ exact Hall | ].
  split; [ | exact Hinv ].
  intros Hun. apply Hnone. intros p Hp.
  apply Hcover, in_map_iff in Hp. destruct Hp as [a [<- Ha]]. exact (Hun a Ha).
Qed.

End AnalyticsSyncFacts.

Lemma syncAllUserAnalytics_counts_each_account_once_witness :
  exists totalSynced store',
    syncAllUserAnalytics (fun _ => true) (findIn [creatorUser; linkedinUser])
      (fun _ _ => Returned []) (hours 30) (Returned [creatorUser; linkedinUser]) []
    = (Some (2%nat, totalSynced, 0%nat), store')
    /\ (totalSynced <= 4)%nat.
Proof.
  destruct (syncAllUserAnalytics_counts_each_account_once
              (fun _ => true) (findIn [creatorUser; linkedinUser])
              (fun _ _ => Returned []) (hours 30) [creatorUser; linkedinUser] [])
    as [n [s [Hrun [Hle _]]]].
  - intros u [<- | [<- | []]]; reflexivity.
  - exists n, s. split; [ exact Hrun | exact Hle ].
Defined.

Lemma syncAllUserAnalytics_unsupported_is_silent_witness :
  syncAllUserAnalytics (fun _ => true) (findIn [linkedinUser])
    (fun _ _ => Returned []) (hours 30) (Returned [linkedinUser]) []
  = (Some (1%nat, 0%nat, 0%nat), []).
Proof.
  apply (syncAllUserAnalytics_unsupported_is_silent
           (fun _ => true) (findIn [linkedinUser]) (fun _ _ => Returned [])
           (hours 30) [linkedinUser] []).
  - intros u [<- | []]; reflexivity.
  - intros u a [<- | []] [<- | []]; reflexivity.
Defined.

(** The scheduled sync of both users: the two instagram accounts are
    synced, the twitter and linkedin accounts are not, and no error is
    counted. *)
Example scheduled_sync_of_mixed_accounts :
  fst (syncAllUserAnalytics (fun _ => true) (findIn [creatorUser; linkedinUser])
         (fun _ _ => Returned []) (hours 30) (Returned [creatorUser; linkedinUser]) [])
  = Some (2%nat, 2%nat, 0%nat).
Proof. vm_compute. reflexivity. Qed.

(* ------------------------------------------------------------------ *)
(** ** Connecting and disconnecting accounts *)
(* ------------------------------------------------------------------ *)

Lemma sameAccount_key (plat accountId : string) (a : ConnectedAccount) :
  sameAccount plat accountId a = true <-> accountKey a = (plat, accountId).
Proof.
  unfold sameAccount, accountKey. rewrite andb_true_iff, !String.eqb_eq.
  split; [ intros [-> ->]; reflexivity | intros H; inversion H; auto ].
Qed.

Lemma findIndex_Some {A : Type} (p : A -> bool) (l : list A) :
  forall i, findIndex p l = Some i ->
            exists a, nth_error l i = Some a /\ p a = true.
Proof.
  induction l as [ | x l IH ]; intros i H; [ discriminate H | ].
  cbn [findIndex] in H. destruct (p x) eqn:Hx.
  - inversion H. exists x. split; [ reflexivity | exact Hx ].
  - destruct (findIndex p l) as [j | ]; [ | discriminate H ].
    inversion H. destruct (IH j eq_refl) as [a [Ha Hp]].
    exists a. split; assumption.
Qed.

Lemma findIndex_None {A : Type} (p : A -> bool) (l : list A) :
  findIndex p l = None -> forall a, In a l -> p a = false.
Proof.
  induction l as [ | x l IH ]; intros H a Ha; [ destruct Ha | ].
  cbn [findIndex] in H. destruct (p x) eqn:Hx; [ discriminate H | ].
  destruct (findIndex p l); [ discriminate H | ].
  destruct Ha as [<- | Ha]; [ exact Hx | exact (IH eq_refl a Ha) ].
Qed.

Lemma findIndex_found {A : Type} (p : A -> bool) (l : list A) (a : A) :
  In a l -> p a = true -> exists i, findIndex p l = Some i.
Proof.
  intros Ha Hp. destruct (findIndex p l) as [i | ] eqn:E; [ exists i; reflexivity | ].
  rewrite (findIndex_None p l E a Ha) in Hp. discriminate Hp.
Qed.

Lemma updateAt_map {A B : Type} (key : A -> B) (f : A -> A) (l : list A) :
  forall i a, nth_error l i = Some a -> key (f a) = key a ->
              map key (updateAt i f l) = map key l.
Proof.
  induction l as [ | x l IH ]; intros [ | i ] a Hn Hk; try discriminate Hn.
  - inversion Hn; subst. cbn [updateAt map]. rewrite Hk. reflexivity.
  - cbn [updateAt map]. f_equal. exact (IH i a Hn Hk).
Qed.

Lemma updateAt_In {A : Type} (f : A -> A) (l : list A) :
  forall i a, nth_error l i = Some a ->
    In (f a) (updateAt i f l)
    /\ forall b, In b (updateAt i f l) -> b = f a \/ In b l.
Proof.
  induction l as [ | x l IH ]; intros [ | i ] a Hn; try discriminate Hn.
  - inversion Hn; subst. cbn [updateAt]. split; [ left; reflexivity | ].
    intros b [<- | Hb]; [ left; reflexivity | right; right; exact Hb ].
  - cbn [updateAt]. destruct (IH i a Hn) as [Hin Hof].
    split; [ right; exact Hin | ].
    intros b [<- | Hb]; [ right; left; reflexivity | ].
    destruct (Hof b Hb) as [-> | Hl]; [ left; reflexivity | right; right; exact Hl ].
Qed.

(** An element of the updated array other than the new one was there
    before, at another index. *)
Lemma updateAt_others {A B : Type} (key : A -> B) (f : A -> A) (l : list A) :
  NoDup (map key l) ->
  forall i a, nth_error l i = Some a -> key (f a) = key a ->
    forall b, In b (updateAt i f l) -> key b = key a -> b = f a.
Proof.
  induction l as [ | x l IH ]; intros Hnd [ | i ] a Hn Hk b Hb Hkey;
    try discriminate Hn; inversion Hnd as [ | ? ? Hnotin Hnd' ]; subst.
  - inversion Hn; subst. cbn [updateAt] in Hb.
    destruct Hb as [<- | Hb]; [ reflexivity | ].
    exfalso. apply Hnotin. rewrite <- Hkey. apply in_map. exact Hb.
  - cbn [updateAt] in Hb. destruct Hb as [<- | Hb].
    + exfalso. apply Hnotin. rewrite Hkey. apply in_map.
      cbn [nth_error] in Hn. exact (nth_error_In _ _ Hn).
    + exact (IH Hnd' i a Hn Hk b Hb Hkey).
Qed.

Lemma findUser_Some (userId : string) (store : UserStore) (u : UserDoc) :
  findUser userId store = Some u -> In u store /\ user_id u = userId.
Proof.
  unfold findUser. intros H. apply find_some in H. destruct H as [Hin Heq].
  apply String.eqb_eq in Heq. split; assumption.
Qed.

Lemma user_id_injective (store : UserStore) (u v : UserDoc) :
  NoDup (map user_id store) -> In u store -> In v store ->
  user_id u = user_id v -> u = v.
Proof.
  induction store as [ | w store IH ]; intros Hnd Hu Hv Heq; [ destruct Hu | ].
  inversion Hnd as [ | ? ? Hnotin Hnd' ]; subst.
  destruct Hu as [<- | Hu], Hv as [<- | Hv].
  - reflexivity.
  - exfalso. apply Hnotin. rewrite Heq. apply in_map. exact Hv.
  - exfalso. apply Hnotin. rewrite <- Heq. apply in_map. exact Hu.
  - exact (IH Hnd' Hu Hv Heq).
Qed.

(** Saving a changed copy of a stored user replaces that user and no
    other. *)
Lemma replace_user (store : UserStore) (u u' : UserDoc) :
  NoDup (map user_id store) -> In u store -> user_id u' = user_id u ->
  let store' := map (fun v => if String.eqb (user_id v) (user_id u') then u' else v)
                  store in
  map user_id store' = map user_id store
  /\ findUser (user_id u) store' = Some u'
  /\ Forall2 (fun v v' => (v = u /\ v' = u') \/ (v <> u /\ v' = v)) store store'.
Proof.
  intros Hnd Hin Hid. cbv zeta. rewrite Hid.
  induction store as [ | w store IH ]; [ destruct Hin | ].
  inversion Hnd as [ | ? ? Hnotin Hnd' ]; subst.
  cbn [map]. unfold findUser. cbn [find].
  destruct Hin as [-> | Hin].
  - rewrite String.eqb_refl. cbn [user_id]. rewrite Hid, String.eqb_refl.
    assert (Hsame : map (fun v => if String.eqb (user_id v) (user_id u) then u' else v)
                      store = store).
    { rewrite <- (map_id store) at 2. apply map_ext_in. intros v Hv.
      destruct (String.eqb (user_id v) (user_id u)) eqn:E; [ | reflexivity ].
      apply String.eqb_eq in E. exfalso. apply Hnotin. rewrite <- E.
      apply in_map. exact Hv. }
    rewrite Hsame. split; [ reflexivity | ]. split; [ reflexivity | ].
    constructor; [ left; split; reflexivity | ].
    clear Hsame IH Hnd' Hnd. induction store as [ | v store IHs ]; constructor.
    + right. split; [ | reflexivity ]. intros ->. apply Hnotin. left. reflexivity.
    + apply IHs. intros H. apply Hnotin. right. exact H.
  - destruct (IH Hnd' Hin) as [Hids [Hfind Hrel]].
    destruct (String.eqb (user_id w) (user_id u)) eqn:E.
    + apply String.eqb_eq in E. exfalso. apply Hnotin. rewrite E.
      apply in_map. exact Hin.
    + rewrite E. split; [ cbn [map]; f_equal; exact Hids | ].
      split; [ exact Hfind | ].
      constructor; [ | exact Hrel ].
      right. split; [ | reflexivity ]. intros ->. rewrite String.eqb_refl in E.
      discriminate E.
Qed.

Lemma accountsStep_keeps (l l' : list ConnectedAccount) :
  accountsStep l l' -> NoDup (map accountKey l) ->
  NoDup (map accountKey l')
  /\ exists more, map accountKey l' = map accountKey l ++ more.
Proof.
  intros [[i [a [f [Hn [Hk ->]]]]] | [info [Hnew ->]]] Hnd.
  - rewrite (updateAt_map accountKey f l i a Hn Hk).
    split; [ exact Hnd | ]. exists []. symmetry. apply app_nil_r.
  - rewrite map_app. cbn [map]. split.
    + apply NoDup_snoc; assumption.
    + eexists. reflexivity.
Qed.

Lemma withAccount_step (user : UserDoc) (plat : string) (accountData : AccountData) :
  trim (data_accountId accountData) = data_accountId accountData ->
  accountsStep (user_connectedAccounts user)
    (user_connectedAccounts (withAccount user plat accountData)).
Proof.
  intros Htrim.
  assert (Hkey : accountKey (castAccount (accountInfoOf plat accountData))
                 = (plat, data_accountId accountData)).
  { unfold accountKey, castAccount, accountInfoOf. cbn [acc_platform acc_accountId].
    rewrite Htrim. reflexivity. }
  unfold withAccount. cbn [user_connectedAccounts].
  destruct (findIndex (sameAccount plat (data_accountId accountData))
              (user_connectedAccounts user)) as [i | ] eqn:E.
  - left. destruct (findIndex_Some _ _ i E) as [a [Hn Hp]].
    exists i, a, (fun _ => castAccount (accountInfoOf plat accountData)).
    split; [ exact Hn | ]. split; [ | reflexivity ].
    apply sameAccount_key in Hp. rewrite Hp. exact Hkey.
  - right. exists (castAccount (accountInfoOf plat accountData)).
    split; [ | reflexivity ].
    intros Hin. apply in_map_iff in Hin. destruct Hin as [a [Hk Ha]].
    pose proof (findIndex_None _ _ E a Ha) as Hf.
    assert (Ht : sameAccount plat (data_accountId accountData) a = true).
    { apply sameAccount_key. rewrite Hk. exact Hkey. }
    rewrite Ht in Hf. discriminate Hf.
Qed.

Section ConnectedAccountFacts.

Variable userSaveOk : UserDoc -> bool.

(** What [addConnectedAccount] does, without the plumbing. *)
Lemma addConnectedAccount_run (userId plat : string) (accountData : AccountData)
    (store : UserStore) :
  addConnectedAccount userSaveOk userId plat accountData store
  = match findUser userId store with
    | None => (Thrown "User not found", store)
    | Some user =>
        if userSaveOk (withAccount user plat accountData)
        then (Returned (accountInfoOf plat accountData),
              savedUser (withAccount user plat accountData) store)
        else (Thrown "ValidationError", store)
    end.
Proof.
  unfold addConnectedAccount, tryCatch, bind, getStore, throw, ret.
  destruct (findUser userId store) as [user | ]; [ | reflexivity ].
  cbv zeta. unfold saveUser. fold (accountInfoOf plat accountData).
  fold (withAccount user plat accountData).
  destruct (userSaveOk (withAccount user plat accountData)); reflexivity.
Qed.

(** What [removeConnectedAccount] does, without the plumbing. *)
Lemma removeConnectedAccount_run (userId plat accountId : string)
    (store : UserStore) :
  removeConnectedAccount userSaveOk userId plat accountId store
  = match findUser userId store with
    | None => (Thrown "User not found", store)
    | Some user =>
        match findIndex (sameAccount plat accountId) (user_connectedAccounts user) with
        | None => (Thrown "Connected account not found", store)
        | Some i =>
            let user' :=
              {| user_id := user_id user;
                 user_connectedAccounts :=
                   updateAt i deactivated (user_connectedAccounts user) |} in
            if userSaveOk user'
            then (Returned tt, savedUser user' store)
            else (Thrown "ValidationError", store)
        end
    end.
Proof.
  unfold removeConnectedAccount, tryCatch, bind, getStore, throw.
  destruct (findUser userId store) as [user | ]; [ | reflexivity ].
  destruct (findIndex (sameAccount plat accountId) (user_connectedAccounts user))
    as [i | ]; [ | reflexivity ].
  cbv zeta. unfold saveUser.
  destruct (userSaveOk _); reflexivity.
Qed.

(** Every call leaves the collection as it was or saves one stored user
    with one write to its accounts. *)
Lemma accountCall_step (store : UserStore) (c : AccountCall) :
  idTrimmed c ->
  accountCall userSaveOk store c = store
  \/ exists u u',
       In u store /\ user_id u' = user_id u
       /\ accountsStep (user_connectedAccounts u) (user_connectedAccounts u')
       /\ accountCall userSaveOk store c = savedUser u' store.
Proof.
  intros Htrim.
  destruct c as [userId plat accountData | userId plat accountId]; cbn [accountCall].
  - rewrite addConnectedAccount_run.
    destruct (findUser userId store) as [user | ] eqn:Hfind; [ | left; reflexivity ].
    destruct (userSaveOk (withAccount user plat accountData)); [ | left; reflexivity ].
    right. exists user, (withAccount user plat accountData).
    split; [ exact (proj1 (findUser_Some _ _ _ Hfind)) | ].
    split; [ reflexivity | ].
    split; [ apply withAccount_step; exact Htrim | reflexivity ].
  - rewrite removeConnectedAccount_run.
    destruct (findUser userId store) as [user | ] eqn:Hfind; [ | left; reflexivity ].
    destruct (findIndex (sameAccount plat accountId) (user_connectedAccounts user))
      as [i | ] eqn:Hidx; [ | left; reflexivity ].
    cbv zeta. destruct (userSaveOk _); [ | left; reflexivity ].
    right.
    exists user, {| user_id := user_id user;
                    user_connectedAccounts :=
                      updateAt i deactivated (user_connectedAccounts user) |}.
    split; [ exact (proj1 (findUser_Some _ _ _ Hfind)) | ].
    split; [ reflexivity | ].
    split; [ | reflexivity ].
    cbn [user_connectedAccounts]. left.
    destruct (findIndex_Some _ _ i Hidx) as [a [Hn _]].
    exists i, a, deactivated. repeat split. exact Hn.
Qed.

Lemma Forall2_In_r {A B : Type} (R : A -> B -> Prop) (l : list A) (l' : list B) :
  Forall2 R l l' -> forall y, In y l' -> exists x, In x l /\ R x y.
Proof.
  induction 1 as [ | x y0 l l' Hxy _ IH ]; intros y Hy; [ destruct Hy | ].
  destruct Hy as [<- | Hy].
  - exists x. split; [ left; reflexivity | exact Hxy ].
  - destruct (IH y Hy) as [x' [Hx' HR]]. exists x'. split; [ right | ]; assumption.
Qed.

Lemma accountsKept_refl (store : UserStore) : Forall2 accountsKept store store.
Proof.
  induction store as [ | u store IH ]; constructor; [ | exact IH ].
  split; [ reflexivity | ]. exists []. symmetry. apply app_nil_r.
Qed.

Lemma accountsKept_trans (s1 s2 : UserStore) :
  Forall2 accountsKept s1 s2 ->
  forall s3, Forall2 accountsKept s2 s3 -> Forall2 accountsKept s1 s3.
Proof.
  induction 1 as [ | u1 u2 s1 s2 [Hid [m1 Hm1]] _ IH ]; intros s3 H23.
  - inversion H23. constructor.
  - inversion H23 as [ | ? u3 ? s3' [Hid' [m2 Hm2]] Hrest ]; subst.
    constructor; [ | exact (IH _ Hrest) ].
    split; [ congruence | ]. exists (m1 ++ m2).
    rewrite Hm2, Hm1, app_assoc. reflexivity.
Qed.

Lemma accountCall_keeps (store : UserStore) (c : AccountCall) :
  usersOk store -> idTrimmed c ->
  usersOk (accountCall userSaveOk store c)
  /\ Forall2 accountsKept store (accountCall userSaveOk store c).
Proof.
  intros [Hids Hkeys] Htrim.
  destruct (accountCall_step store c Htrim) as [-> | [u [u' [Hin [Hid [Hstep ->]]]]]].
  - split; [ split; assumption | apply accountsKept_refl ].
  - destruct (replace_user store u u' Hids Hin Hid) as [Hsame [_ Hrel]].
    fold (savedUser u' store) in Hsame, Hrel.
    destruct (accountsStep_keeps _ _ Hstep (Hkeys u Hin)) as [Hnd Hmore].
    split; [ split | ].
    + rewrite Hsame. exact Hids.
    + intros v' Hv'. destruct (Forall2_In_r _ _ _ Hrel v' Hv') as [v [Hv HR]].
      destruct HR as [[-> ->] | [_ ->]]; [ exact Hnd | exact (Hkeys v Hv) ].
    + refine (Forall2_impl _ _ Hrel). intros v v' [[-> ->] | [_ ->]].
      * split; [ exact Hid | exact Hmore ].
      * split; [ reflexivity | ]. exists []. symmetry. apply app_nil_r.
Qed.

(** X25. On a collection with unique user ids in which no user has two
    accounts of one platform with the same account id, any sequence of
    [addConnectedAccount] and [removeConnectedAccount] calls whose account
    ids have no white space around them, whatever the calls return and
    whatever saves are refused, keeps both properties; it adds and removes
    no user, and the accounts a user had stay where they were: an account
    is never deleted, new ones come after them. *)
Theorem connected_accounts_stay_unique
    (calls : list AccountCall) (store : UserStore) :
  usersOk store -> Forall idTrimmed calls ->
  let store' := fold_left (accountCall userSaveOk) calls store in
  usersOk store' /\ Forall2 accountsKept store store'.
Proof.
  cbv zeta. revert store.
  induction calls as [ | c calls IH ]; intros store Hok Htrim.
  - split; [ exact Hok | apply accountsKept_refl ].
  - inversion Htrim as [ | ? ? Hc Hrest ]; subst.
    cbn [fold_left]. destruct (accountCall_keeps store c Hok Hc) as [Hok1 Hrel1].
    destruct (IH _ Hok1 Hrest) as [Hok2 Hrel2].
    split; [ exact Hok2 | exact (accountsKept_trans _ _ Hrel1 _ Hrel2) ].
Qed.

Lemma getConnectedAccounts_all (userId : string) (store : UserStore) (u : UserDoc) :
  findUser userId store = Some u ->
  getConnectedAccounts userId None store
  = (Returned (filter acc_isActive (user_connectedAccounts u)), store).
Proof.
  intros Hfind. unfold getConnectedAccounts, tryCatch, bind, getStore, ret.
  rewrite Hfind. reflexivity.
Qed.

Lemma updateAt_length {A : Type} (f : A -> A) (l : list A) :
  forall i, List.length (updateAt i f l) = List.length l.
Proof.
  induction l as [ | x l IH ]; intros [ | i ]; cbn [updateAt List.length];
    try reflexivity.
  f_equal. apply IH.
Qed.

Lemma accountKey_injective (l : list ConnectedAccount) (a b : ConnectedAccount) :
  NoDup (map accountKey l) -> In a l -> In b l -> accountKey a = accountKey b -> a = b.
Proof.
  induction l as [ | x l IH ]; intros Hnd Ha Hb Heq; [ destruct Ha | ].
  inversion Hnd as [ | ? ? Hnotin Hnd' ]; subst.
  destruct Ha as [<- | Ha], Hb as [<- | Hb].
  - reflexivity.
  - exfalso. apply Hnotin. rewrite Heq. apply in_map. exact Hb.
  - exfalso. apply Hnotin. rewrite <- Heq. apply in_map. exact Ha.
  - exact (IH Hnd' Ha Hb Heq).
Qed.

Lemma withAccount_holds (user : UserDoc) (plat : string) (accountData : AccountData) :
  In (castAccount (accountInfoOf plat accountData))
     (user_connectedAccounts (withAccount user plat accountData)).
Proof.
  unfold withAccount. cbn [user_connectedAccounts].
  destruct (findIndex (sameAccount plat (data_accountId accountData))
              (user_connectedAccounts user)) as [i | ] eqn:E.
  - destruct (findIndex_Some _ _ i E) as [a [Hn _]].
    exact (proj1 (updateAt_In (fun _ => castAccount (accountInfoOf plat accountData))
                    _ i a Hn)).
  - apply in_or_app. right. left. reflexivity.
Qed.

(** X26. On such a collection, when [addConnectedAccount] returns: it
    returns the account information as it was passed, active;
    [getConnectedAccounts] afterwards lists the account as it is stored,
    with [accountId] and [username] trimmed.  If the user already had an
    account with this platform and exactly this account id, active or
    not, that entry is replaced in place (the number of accounts is
    unchanged, a disconnected account is connected again); otherwise the
    user has one account more.  When the account id that was passed has
    no white space around it, the listed account is the only one of its
    platform and account id. *)
Theorem addConnectedAccount_lists_account_once
    (userId plat : string) (accountData : AccountData)
    (store store' : UserStore) (info : ConnectedAccount) :
  usersOk store ->
  addConnectedAccount userSaveOk userId plat accountData store
  = (Returned info, store') ->
  info = {| acc_platform := plat;
            acc_accountId := data_accountId accountData;
            acc_username := data_username accountData;
            acc_isActive := true |}
  /\ exists user user' listed,
       findUser userId store = Some user
       /\ findUser userId store' = Some user'
       /\ getConnectedAccounts userId None store' = (Returned listed, store')
       /\ In {| acc_platform := plat;
                acc_accountId := trim (data_accountId accountData);
                acc_username := trim (data_username accountData);
                acc_isActive := true |} listed
       /\ List.length (user_connectedAccounts user')
          = (if existsb (sameAccount plat (data_accountId accountData))
                  (user_connectedAccounts user)
             then List.length (user_connectedAccounts user)
             else S (List.length (user_connectedAccounts user)))
       /\ (trim (data_accountId accountData) = data_accountId accountData ->
           forall a, In a listed ->
             accountKey a = (plat, data_accountId accountData) ->
             a = {| acc_platform := plat;
                    acc_accountId := data_accountId accountData;
                    acc_username := trim (data_username accountData);
                    acc_isActive := true |}).
Proof.
  intros [Hids Hkeys] Hrun. rewrite addConnectedAccount_run in Hrun.
  destruct (findUser userId store) as [user | ] eqn:Hfind; [ | discriminate Hrun ].
  destruct (userSaveOk (withAccount user plat accountData)); [ | discriminate Hrun ].
  inversion Hrun; subst info store'. clear Hrun.
  split; [ reflexivity | ].
  destruct (findUser_Some _ _ _ Hfind) as [Hin Hid].
  destruct (replace_user store user (withAccount user plat accountData) Hids Hin eq_refl)
    as [_ [Hfind' _]].
  fold (savedUser (withAccount user plat accountData) store) in Hfind'.
  rewrite Hid in Hfind'.
  exists user, (withAccount user plat accountData).
  exists (filter acc_isActive (user_connectedAccounts (withAccount user plat accountData))).
  split; [ reflexivity | ]. split; [ exact Hfind' | ].
  split; [ exact (getConnectedAccounts_all _ _ _ Hfind') | ].
  split.
  { apply filter_In. split; [ | reflexivity ].
    exact (withAccount_holds user plat accountData). }
  split.
  - unfold withAccount. cbn [user_connectedAccounts].
    destruct (findIndex (sameAccount plat (data_accountId accountData))
                (user_connectedAccounts user)) as [i | ] eqn:E.
    + destruct (findIndex_Some _ _ i E) as [a [Hn Hp]].
      assert (Hex : existsb (sameAccount plat (data_accountId accountData))
                      (user_connectedAccounts user) = true).
      { apply existsb_exists. exists a.
        split; [ exact (nth_error_In _ _ Hn) | exact Hp ]. }
      rewrite Hex. apply updateAt_length.
    + assert (Hex : existsb (sameAccount plat (data_accountId accountData))
                      (user_connectedAccounts user) = false).
      { destruct (existsb _ _) eqn:Hx; [ | reflexivity ].
        apply existsb_exists in Hx. destruct Hx as [a [Ha Hp]].
        rewrite (findIndex_None _ _ E a Ha) in Hp. discriminate Hp. }
      rewrite Hex, length_app. cbn [List.length]. lia.
  - intros Htrim a Ha Hk. apply filter_In in Ha.
    destruct (accountsStep_keeps _ _ (withAccount_step user plat accountData Htrim)
                (Hkeys user Hin)) as [Hnd _].
    pose proof (withAccount_holds user plat accountData) as Hheld.
    assert (Ha' : a = castAccount (accountInfoOf plat accountData)).
    { apply (accountKey_injective _ _ _ Hnd (proj1 Ha) Hheld).
      rewrite Hk. unfold accountKey, castAccount, accountInfoOf.
      cbn [acc_platform acc_accountId]. rewrite Htrim. reflexivity. }
    rewrite Ha'. unfold castAccount, accountInfoOf.
    cbn [acc_platform acc_accountId acc_username acc_isActive].
    rewrite Htrim. reflexivity.
Qed.

(** X28. An account id that is passed with white space around it is
    stored trimmed but looked up untrimmed: when the database accepts the
    saves and the user has no account of the platform with the id as
    passed, [addConnectedAccount] called twice with the same data finds
    no existing account either time and leaves the user with two
    accounts of the same platform and (trimmed) account id after the
    accounts the user had, so that account keys are no longer unique. *)
Theorem padded_account_id_is_stored_twice
    (userId plat : string) (accountData : AccountData)
    (store : UserStore) (user : UserDoc) :
  (forall u, userSaveOk u = true) ->
  NoDup (map user_id store) ->
  findUser userId store = Some user ->
  trim (data_accountId accountData) <> data_accountId accountData ->
  (forall a, In a (user_connectedAccounts user) ->
             sameAccount plat (data_accountId accountData) a = false) ->
  let stored :=
    {| acc_platform := plat;
       acc_accountId := trim (data_accountId accountData);
       acc_username := trim (data_username accountData);
       acc_isActive := true |} in
  let store' :=
    fold_left (accountCall userSaveOk)
      [AddAccount userId plat accountData; AddAccount userId plat accountData]
      store in
  findUser userId store'
  = Some {| user_id := user_id user;
            user_connectedAccounts :=
              user_connectedAccounts user ++ [stored; stored] |}
  /\ ~ usersOk store'.
Proof.
  intros Hsave Hids Hfind Hpad Hnone. cbv zeta.
  set (stored := {| acc_platform := plat;
                    acc_accountId := trim (data_accountId accountData);
                    acc_username := trim (data_username accountData);
                    acc_isActive := true |}).
  assert (Hadd : forall u s,
             NoDup (map user_id s) -> findUser userId s = Some u ->
             (forall a, In a (user_connectedAccounts u) ->
                        sameAccount plat (data_accountId accountData) a = false) ->
             let u' := {| user_id := user_id u;
                          user_connectedAccounts :=
                            user_connectedAccounts u ++ [stored] |} in
             let s' := accountCall userSaveOk s (AddAccount userId plat accountData) in
             NoDup (map user_id s') /\ findUser userId s' = Some u').
  { intros u s Hnd Hu Hno. cbv zeta. cbn [accountCall].
    rewrite addConnectedAccount_run, Hu, Hsave. cbn [storeAfter snd].
    assert (Hw : withAccount u plat accountData
                 = {| user_id := user_id u;
                      user_connectedAccounts := user_connectedAccounts u ++ [stored] |}).
    { unfold withAccount.
      destruct (findIndex (sameAccount plat (data_accountId accountData))
                  (user_connectedAccounts u)) as [i | ] eqn:E; [ | reflexivity ].
      destruct (findIndex_Some _ _ i E) as [a [Hn Hp]].
      rewrite (Hno a (nth_error_In _ _ Hn)) in Hp. discriminate Hp. }
    rewrite Hw. destruct (findUser_Some _ _ _ Hu) as [Hin Hid].
    destruct (replace_user s u
                {| user_id := user_id u;
                   user_connectedAccounts := user_connectedAccounts u ++ [stored] |}
                Hnd Hin eq_refl) as [Hsame [Hfound _]].
    unfold savedUser. split; [ rewrite Hsame; exact Hnd | ].
    rewrite <- Hid. exact Hfound. }
  cbn [fold_left].
  destruct (Hadd user store Hids Hfind Hnone) as [Hids1 Hfind1].
  destruct (Hadd _ _ Hids1 Hfind1) as [Hids2 Hfind2].
  { cbn [user_connectedAccounts]. intros a Ha. apply in_app_or in Ha.
    destruct Ha as [Ha | [<- | []]]; [ exact (Hnone a Ha) | ].
    unfold sameAccount, stored. cbn [acc_platform acc_accountId].
    destruct (String.eqb_spec (trim (data_accountId accountData))
                (data_accountId accountData)) as [E | E];
      [ contradiction | apply andb_false_r ]. }
  cbn [user_id user_connectedAccounts] in Hfind2.
  rewrite <- app_assoc in Hfind2. cbn [app] in Hfind2.
  split; [ exact Hfind2 | ].
  intros [_ Hkeys]. destruct (findUser_Some _ _ _ Hfind2) as [Hin _].
  specialize (Hkeys _ Hin). cbn [user_connectedAccounts] in Hkeys.
  rewrite map_app in Hkeys. apply NoDup_remove_2 in Hkeys.
  apply Hkeys. apply in_or_app. right. left. reflexivity.
Qed.

End ConnectedAccountFacts.

(** X27. [removeConnectedAccount] only hides an account.  For a user
    without an account of the given key it throws and changes nothing.
    When it returns, on a collection with unique user ids and account
    keys, [getConnectedAccounts] no longer lists an account of this
    key, yet the account is still among the user's connected accounts,
    and [syncAnalyticsData] for this platform and account id still
    finds it: the call reports [success: true] with the account among
    its results, never that no connected account was found. *)
Theorem removeConnectedAccount_hides_but_sync_still_finds
    (userSaveOk : UserDoc -> bool) (accept : Analytics.doc -> bool)
    (fetchAnalytics : string -> ConnectedAccount -> outcome (list AnalyticsItem))
    (now : Z) (userId plat accountId : string) (store : UserStore)
    (analytics : Analytics.Store) :
  usersOk store ->
  (forall u, findUser userId store = Some u ->
             ~ In (plat, accountId) (map accountKey (user_connectedAccounts u)) ->
             removeConnectedAccount userSaveOk userId plat accountId store
             = (Thrown "Connected account not found", store))
  /\ (forall store',
        removeConnectedAccount userSaveOk userId plat accountId store
        = (Returned tt, store') ->
        (exists user' listed,
            findUser userId store' = Some user'
            /\ In (plat, accountId) (map accountKey (user_connectedAccounts user'))
            /\ getConnectedAccounts userId None store' = (Returned listed, store')
            /\ ~ In (plat, accountId) (map accountKey listed))
        /\ exists total ok failed results analytics',
             syncAnalyticsData accept (findIn store') fetchAnalytics now userId plat
               (Some accountId) analytics
             = (SyncDone total ok failed results, analytics')
             /\ In accountId (map res_accountId results)).
Proof.
  intros [Hids Hkeys]. split.
  { intros u Hfind Hnot. rewrite removeConnectedAccount_run, Hfind.
    destruct (findIndex (sameAccount plat accountId) (user_connectedAccounts u))
      as [i | ] eqn:E; [ | reflexivity ].
    destruct (findIndex_Some _ _ i E) as [a [Hn Hp]]. exfalso. apply Hnot.
    apply sameAccount_key in Hp. rewrite <- Hp. apply in_map.
    exact (nth_error_In _ _ Hn). }
  intros store' Hrun. rewrite removeConnectedAccount_run in Hrun.
  destruct (findUser userId store) as [user | ] eqn:Hfind; [ | discriminate Hrun ].
  destruct (findIndex (sameAccount plat accountId) (user_connectedAccounts user))
    as [i | ] eqn:E; [ | discriminate Hrun ].
  cbv zeta in Hrun.
  set (user' := {| user_id := user_id user;
                   user_connectedAccounts :=
                     updateAt i deactivated (user_connectedAccounts user) |}) in *.
  destruct (userSaveOk user'); [ | discriminate Hrun ].
  inversion Hrun; subst store'. clear Hrun.
  destruct (findUser_Some _ _ _ Hfind) as [Hin Hid].
  destruct (replace_user store user user' Hids Hin eq_refl) as [_ [Hfind' _]].
  fold (savedUser user' store) in Hfind'. rewrite Hid in Hfind'.
  destruct (findIndex_Some _ _ i E) as [a [Hn Hp]].
  pose proof (proj1 (sameAccount_key _ _ _) Hp) as Hkey.
  assert (Hsame : map accountKey (user_connectedAccounts user')
                  = map accountKey (user_connectedAccounts user)).
  { exact (updateAt_map accountKey deactivated _ i a Hn eq_refl). }
  destruct (updateAt_In deactivated (user_connectedAccounts user) i a Hn)
    as [Hheld _].
  split.
  - exists user', (filter acc_isActive (user_connectedAccounts user')).
    split; [ exact Hfind' | ].
    split; [ rewrite Hsame, <- Hkey; apply in_map; exact (nth_error_In _ _ Hn) | ].
    split; [ exact (getConnectedAccounts_all _ _ _ Hfind') | ].
    intros Hl. apply in_map_iff in Hl. destruct Hl as [b [Hb Hbin]].
    apply filter_In in Hbin. destruct Hbin as [Hbin Hact].
    assert (b = deactivated a).
    { apply (updateAt_others accountKey deactivated (user_connectedAccounts user)
               (Hkeys user Hin) i a Hn eq_refl b Hbin). congruence. }
    subst b. discriminate Hact.
  - unfold syncAnalyticsData, findIn. fold (findUser userId (savedUser user' store)).
    rewrite Hfind'.
    assert (Hmatch : In (deactivated a)
                       (filter (accountMatches plat (Some accountId))
                          (user_connectedAccounts user'))).
    { apply filter_In. split; [ exact Hheld | ].
      unfold sameAccount in Hp. apply andb_true_iff in Hp. destruct Hp as [Hp1 Hp2].
      unfold accountMatches. cbn [deactivated acc_platform acc_accountId].
      rewrite Hp1. destruct accountId; [ reflexivity | exact Hp2 ]. }
    destruct (filter (accountMatches plat (Some accountId))
                (user_connectedAccounts user')) as [ | m matching ] eqn:Hf;
      [ destruct Hmatch | ].
    destruct (syncEachAccount_results accept fetchAnalytics now userId plat
                (m :: matching) [] analytics) as [Hres _].
    destruct (syncEachAccount accept fetchAnalytics now userId plat (m :: matching)
                [] analytics) as [results analytics'].
    cbn [fst] in Hres.
    eexists. eexists. eexists. exists results, analytics'.
    split; [ reflexivity | ].
    rewrite Hres. cbn [map app].
    replace accountId with (acc_accountId (deactivated a)).
    + change (In (acc_accountId (deactivated a)) (map acc_accountId (m :: matching))).
      apply in_map. exact Hmatch.
    + cbn [deactivated acc_accountId]. unfold accountKey in Hkey. congruence.
Qed.

Lemma sample_users_ok : usersOk [creatorUser; linkedinUser].
Proof.
  split.
  - constructor; [ intros [H | []]; discriminate H | ].
    constructor; [ intros [] | constructor ].
  - intros u [<- | [<- | []]]; cbn.
    + constructor; [ intros [H | [H | []]]; discriminate H | ].
      constructor; [ intros [H | []]; discriminate H | ].
      constructor; [ intros [] | constructor ].
    + constructor; [ intros [] | constructor ].
Qed.

Lemma connected_accounts_stay_unique_witness :
  usersOk
    (fold_left (accountCall (fun _ => true))
       [ AddAccount "u2" "instagram"
           {| data_accountId := "ig-9"; data_username := "new" |};
         RemoveAccount "u1" "twitter" "tw-1" ]
       [creatorUser; linkedinUser]).
Proof.
  refine (proj1 (connected_accounts_stay_unique (fun _ => true)
                   [ AddAccount "u2" "instagram"
                       {| data_accountId := "ig-9"; data_username := "new" |};
                     RemoveAccount "u1" "twitter" "tw-1" ]
                   [creatorUser; linkedinUser] sample_users_ok _)).
  repeat constructor.
Defined.

Lemma addConnectedAccount_lists_account_once_witness :
  exists user user' listed,
    findUser "u1" [creatorUser; linkedinUser] = Some user
    /\ findUser "u1"
         (storeAfter
            (addConnectedAccount (fun _ => true) "u1" "twitter"
               {| data_accountId := "tw-1"; data_username := " renamed " |}
               [creatorUser; linkedinUser]))
       = Some user'
    /\ resultOf
         (getConnectedAccounts "u1" None
            (storeAfter
               (addConnectedAccount (fun _ => true) "u1" "twitter"
                  {| data_accountId := "tw-1"; data_username := " renamed " |}
                  [creatorUser; linkedinUser])))
       = Returned listed
    /\ In {| acc_platform := "twitter"; acc_accountId := "tw-1";
             acc_username := "renamed"; acc_isActive := true |} listed
    /\ List.length (user_connectedAccounts user') = 3%nat.
Proof.
  destruct (addConnectedAccount_lists_account_once (fun _ => true)
              "u1" "twitter"
              {| data_accountId := "tw-1"; data_username := " renamed " |}
              [creatorUser; linkedinUser] _ _ sample_users_ok eq_refl)
    as [_ [user [user' [listed [Hu [Hu' [Hget [Hin [Hlen _]]]]]]]]].
  exists user, user', listed.
  split; [ exact Hu | ]. split; [ exact Hu' | ].
  split; [ exact (f_equal fst Hget) | ].
  split; [ exact Hin | ].
  rewrite Hlen. inversion Hu. reflexivity.
Defined.

Lemma padded_account_id_is_stored_twice_witness :
  findUser "u2"
    (fold_left (accountCall (fun _ => true))
       [ AddAccount "u2" "instagram"
           {| data_accountId := " ig-7 "; data_username := "seven" |};
         AddAccount "u2" "instagram"
           {| data_accountId := " ig-7 "; data_username := "seven" |} ]
       [creatorUser; linkedinUser])
  = Some {| user_id := "u2";
            user_connectedAccounts :=
              [ {| acc_platform := "linkedin"; acc_accountId := "li-1";
                   acc_username := "work"; acc_isActive := true |};
                {| acc_platform := "instagram"; acc_accountId := "ig-7";
                   acc_username := "seven"; acc_isActive := true |};
                {| acc_platform := "instagram"; acc_accountId := "ig-7";
                   acc_username := "seven"; acc_isActive := true |} ] |}.
Proof.
  refine (proj1 (padded_account_id_is_stored_twice (fun _ => true)
                   "u2" "instagram"
                   {| data_accountId := " ig-7 "; data_username := "seven" |}
                   [creatorUser; linkedinUser] linkedinUser
                   (fun _ => eq_refl) (proj1 sample_users_ok) eq_refl _ _)).
  - discriminate.
  - intros a [<- | []]. reflexivity.
Defined.

Lemma removeConnectedAccount_hides_but_sync_still_finds_witness :
  exists total ok failed results analytics',
    syncAnalyticsData (fun _ => true)
      (findIn (storeAfter (removeConnectedAccount (fun _ => true) "u1" "instagram"
                             "ig-2" [creatorUser; linkedinUser])))
      (fun _ _ => Returned []) (hours 30) "u1" "instagram" (Some "ig-2"%string) []
    = (SyncDone total ok failed results, analytics')
    /\ In "ig-2"%string (map res_accountId results).
Proof.
  exact (proj2 (proj2 (removeConnectedAccount_hides_but_sync_still_finds
                         (fun _ => true) (fun _ => true) (fun _ _ => Returned [])
                         (hours 30) "u1" "instagram" "ig-2"
                         [creatorUser; linkedinUser] [] sample_users_ok)
                  _ eq_refl)).
Defined.

(** Connecting, disconnecting and listing on the sample users: the
    disconnected account is no longer listed, and the scheduled sync
    still syncs it. *)
Example disconnect_then_list_and_sync :
  let users :=
    storeAfter (removeConnectedAccount (fun _ => true) "u1" "instagram" "ig-2"
                  [creatorUser; linkedinUser]) in
  map acc_accountId
    match resultOf (getConnectedAccounts "u1" None users) with
    | Returned listed => listed
    | Thrown _ => []
    end
  = ["ig-1"; "tw-1"]%string
  /\ fst (syncAllUserAnalytics (fun _ => true) (findIn users)
            (fun _ _ => Returned []) (hours 30) (Returned users) [])
     = Some (2%nat, 2%nat, 0%nat).
Proof. vm_compute. split; reflexivity. Qed.
